(** * Monthly best friends wall: aggregation, scoring and winner selection

    A shallow embedding of
    [src/wechat_decrypt_tool/wrapped/cards/card_04_monthly_best_friends_wall.py].

    Conventions of the embedding.
    - Python [int] is [Z]; Python [float] is modelled by the real numbers [R]
      and [float(n)] is [IZR n].  Inside [_score_month_agg] and the
      averages the arithmetic is that of the reals: rounding of binary64
      operations is not modelled.  The selection of the winner is written
      over the values the scorer returns ([month_winner_with]), so what is
      proved of it does not depend on that reading.
    - A Python [str] is a [string], one [ascii] per character (code points
      below 256); [str.strip] removes the whitespace characters among them.
    - A Python [dict] is an association list in insertion order.
    - A raised exception is the [Raise] constructor of [result].
    - Collaborators that live outside this file ([_should_keep_session],
      [datetime.fromtimestamp], [datetime.timestamp], the contact lookups,
      [round]) are section variables. *)

From Stdlib Require Import ZArith List String Ascii Bool Lia.
From Stdlib Require Import DecimalString.
From Stdlib Require Import ListSet Permutation Sorted.
From Stdlib Require Import Reals Lra.
Import ListNotations.

Open Scope string_scope.
Open Scope list_scope.
Open Scope Z_scope.

(** ** Python built-ins used by the module *)

Module Py.

(** Characters removed by [str.strip()]: those of [str.isspace] among the
    code points below 256. *)
Definition is_space (c : ascii) : bool :=
  let n := N_of_ascii c in
  ((9 <=? n) && (n <=? 13) || (28 <=? n) && (n <=? 32)
   || (n =? 133) || (n =? 160))%N.

Fixpoint lstrip (s : string) : string :=
  match s with
  | EmptyString => EmptyString
  | String c s' => if is_space c then lstrip s' else s
  end.

Fixpoint rstrip (s : string) : string :=
  match s with
  | EmptyString => EmptyString
  | String c s' =>
      match rstrip s' with
      | EmptyString => if is_space c then EmptyString else String c EmptyString
      | r => String c r
      end
  end.

Definition strip (s : string) : string := rstrip (lstrip s).

(** [str(x or "")] for a cell that is a text or NULL. *)
Definition str_or_empty (x : option string) : string :=
  match x with Some s => s | None => "" end.

(** [int(x or 0)] for a cell that is an integer or NULL. *)
Definition int_or_zero (x : option Z) : Z :=
  match x with Some z => z | None => 0 end.

(** [s * n] for a one-character string. *)
Fixpoint repeat_char (c : ascii) (n : nat) : string :=
  match n with
  | O => EmptyString
  | S k => String c (repeat_char c k)
  end.

(** [s[-1]] of a non-empty string, as a string. *)
Fixpoint last_char (s : string) : string :=
  match s with
  | EmptyString => EmptyString
  | String c EmptyString => String c EmptyString
  | String _ s' => last_char s'
  end.

Definition first_char (s : string) : string :=
  match s with
  | EmptyString => EmptyString
  | String c _ => String c EmptyString
  end.

(** Exceptions raised in the module: by [datetime] and the clock of the
    platform, and by the arithmetic of the scorer. *)
Inductive error : Type :=
| ValueError
| ZeroDivisionError
| KeyError
| OverflowError
| OSError.

Inductive result (A : Type) : Type :=
| Ok (a : A)
| Raise (e : error).

Arguments Ok {A} a.
Arguments Raise {A} e.

Definition bind {A B : Type} (m : result A) (k : A -> result B) : result B :=
  match m with
  | Ok a => k a
  | Raise e => Raise e
  end.

(** [dict] as an association list in insertion order. *)
Section Dict.
Context {K V : Type} (eqb : K -> K -> bool).

Fixpoint dict_get (d : list (K * V)) (k : K) : option V :=
  match d with
  | [] => None
  | (k', v) :: d' => if eqb k' k then Some v else dict_get d' k
  end.

(** [d[k] = v]: an existing key keeps its position. *)
Fixpoint dict_set (d : list (K * V)) (k : K) (v : V) : list (K * V) :=
  match d with
  | [] => [(k, v)]
  | (k', v') :: d' =>
      if eqb k' k then (k', v) :: d' else (k', v') :: dict_set d' k v
  end.
End Dict.

(** [max(1, n)] and friends on integers are [Z.max]; on floats: *)
Definition Rltb (x y : R) : bool := if Rlt_dec x y then true else false.
Definition Rleb (x y : R) : bool := if Rle_dec x y then true else false.
Definition Reqb (x y : R) : bool := if Req_dec_T x y then true else false.

(** [max(a, b)] returns [b] only when [b > a]. *)
Definition fmax (a b : R) : R := if Rltb a b then b else a.

(** [math.log1p]: domain error at and below -1. *)
Definition log1p (x : R) : result R :=
  if Rleb x (-1) then Raise ValueError else Ok (ln (1 + x)).

(** Float division. *)
Definition fdiv (x y : R) : result R :=
  if Reqb y 0 then Raise ZeroDivisionError else Ok (x / y)%R.

(** [list.sort(key=...)] and [sorted]: a stable sort that only uses [<]
    on the keys.  Elements are inserted from left to right, each one after
    every element that is not greater, as a stable sort leaves them. *)
Section Sort.
Context {A : Type} (ltb : A -> A -> bool).

Fixpoint insert_sorted (x : A) (l : list A) : list A :=
  match l with
  | [] => [x]
  | y :: t => if ltb x y then x :: y :: t else y :: insert_sorted x t
  end.

Definition sort (l : list A) : list A :=
  fold_left (fun acc x => insert_sorted x acc) l [].
End Sort.

(** [str(n)] of an integer, as an f-string prints it. *)
Definition str_of_int (z : Z) : string := NilZero.string_of_int (Z.to_int z).

End Py.

Notation "x <- m ;; k" := (Py.bind m (fun x => k))
  (at level 61, m at next level, right associativity).

(** ** The aggregate of one conversation in one month: [_MonthConvAgg] *)

Record MonthConvAgg : Type := mkAgg {
  username : string;
  month : Z;
  incoming : Z;
  outgoing : Z;
  replies : Z;
  sum_gap : Z;
  sum_gap_capped : Z;
  active_days : set Z;
  time_bucket_mask : Z
}.

Definition new_agg (u : string) (m : Z) : MonthConvAgg :=
  mkAgg u m 0 0 0 0 0 (empty_set Z) 0.

Definition total (a : MonthConvAgg) : Z := incoming a + outgoing a.

Definition interaction (a : MonthConvAgg) : Z := Z.min (incoming a) (outgoing a).

Definition active_days_count (a : MonthConvAgg) : Z :=
  Z.of_nat (List.length (active_days a)).

Definition time_bucket_count (a : MonthConvAgg) : Z :=
  let m := Z.land (time_bucket_mask a) 15 in
  Z.land m 1 + Z.land (Z.shiftr m 1) 1 + Z.land (Z.shiftr m 2) 1
  + Z.land (Z.shiftr m 3) 1.

Definition avg_reply_seconds (a : MonthConvAgg) : R :=
  if replies a <=? 0 then 0%R else (IZR (sum_gap a) / IZR (replies a))%R.

Definition avg_reply_seconds_capped (a : MonthConvAgg) : R :=
  if replies a <=? 0 then 0%R
  else (IZR (sum_gap_capped a) / IZR (replies a))%R.

Definition observe (a : MonthConvAgg) (day hour : Z) : MonthConvAgg :=
  let days :=
    if (1 <=? day) && (day <=? 31)
    then set_add Z.eq_dec day (active_days a)
    else active_days a in
  let bucket := Z.max 0 (Z.min 3 (hour / 6)) in
  mkAgg (username a) (month a) (incoming a) (outgoing a) (replies a)
        (sum_gap a) (sum_gap_capped a) days
        (Z.lor (time_bucket_mask a) (Z.shiftl 1 bucket)).

(** ** Rows of the search index and the clock *)

(** A row of the query: [username], [sender_username] and [ts]; a cell is
    [None] for SQL NULL.  The columns are a text, a text and the result of
    a [CAST ... AS INTEGER], so reading them raises nothing and the
    [except] branch of the loop is never taken.  The two remaining columns
    ([sort_seq_i], [local_id_i]) only order the rows and are never read by
    the pass. *)
Record Row : Type := mkRow {
  row_username : option string;
  row_sender : option string;
  row_ts : option Z
}.

(** The fields of [datetime.fromtimestamp(ts)] that the pass reads. *)
Record DateTime : Type := mkDateTime {
  dt_month : Z;
  dt_day : Z;
  dt_hour : Z
}.

(** An instance of the clock: local time in the UTC zone (proleptic
    Gregorian calendar, days counted from 1970-01-01). *)
Definition utc_fromtimestamp (ts : Z) : DateTime :=
  let days := ts / 86400 in
  let secs := ts mod 86400 in
  let z := days + 719468 in
  let era := z / 146097 in
  let doe := z - era * 146097 in
  let yoe := (doe - doe / 1460 + doe / 36524 - doe / 146096) / 365 in
  let doy := doe - (365 * yoe + yoe / 4 - yoe / 100) in
  let mp := (5 * doy + 2) / 153 in
  let d := doy - (153 * mp + 2) / 5 + 1 in
  let m := if mp <? 10 then mp + 3 else mp - 9 in
  mkDateTime m d (secs / 3600).

(** [datetime(year, 1, 1)], kept as its year: the constructor takes the
    years [MINYEAR..MAXYEAR], that is 1..9999, and raises [ValueError] for
    any other. *)
Definition datetime_jan1 (year : Z) : Py.result Z :=
  if (1 <=? year) && (year <=? 9999) then Py.Ok year
  else Py.Raise Py.ValueError.

(** An instance of [int(datetime(year, 1, 1).timestamp())]: the epoch
    second of January 1 at 00:00 in the UTC zone, where the conversion
    raises nothing. *)
Definition utc_timestamp (year : Z) : Py.result Z :=
  let y := year - 1 in
  Py.Ok (86400 * (365 * (year - 1970) + (y / 4 - y / 100 + y / 400 - 477))).

(** Values of the returned structure (what [json.dumps] would see). *)
#[warnings="-register-all"]
Inductive value : Type :=
| VNone
| VBool (b : bool)
| VInt (z : Z)
| VFloat (r : R)
| VStr (s : string)
| VList (l : list value)
| VDict (d : list (string * value)).

Definition dict := list (string * value).

(** [d.get(k)]: [None] both for a missing key and never for a present
    one, so absence stays distinguishable from a stored [VNone]. *)
Definition get (d : dict) (k : string) : option value :=
  Py.dict_get String.eqb d k.

(** [isinstance(x, dict)] on the result of a [.get]. *)
Definition as_dict (x : option value) : option dict :=
  match x with
  | Some (VDict d) => Some d
  | _ => None
  end.

(** [str(x or "")] on the result of a [.get] that holds a string. *)
Definition value_str_or_empty (x : option value) : string :=
  match x with
  | Some (VStr s) => s
  | _ => ""
  end.

(** [int(x or 0)] on the result of a [.get] that holds an integer. *)
Definition value_int_or_zero (x : option value) : Z :=
  match x with
  | Some (VInt z) => z
  | _ => 0
  end.

(** [range(a, b)]. *)
Definition range (a b : Z) : list Z :=
  map (fun i => a + Z.of_nat i) (seq 0 (Z.to_nat (b - a))).

(** The score dictionary returned by the scorer, keys ["interaction"],
    ["speed"], ["continuity"], ["coverage"] and ["final"]. *)
Record ScoreBreakdown : Type := mkScore {
  s_interaction : R;
  s_speed : R;
  s_continuity : R;
  s_coverage : R;
  s_final : R
}.

(** [weights[k]]. *)
Definition weight (w : list (string * R)) (k : string) : Py.result R :=
  match Py.dict_get String.eqb w k with
  | Some x => Py.Ok x
  | None => Py.Raise Py.KeyError
  end.

Definition _score_month_agg (agg : MonthConvAgg)
    (month_max_interaction month_max_active_days : Z) (tau_seconds : R)
    (weights : list (string * R)) : Py.result ScoreBreakdown :=
  let max_interaction := Z.max 1 month_max_interaction in
  let max_active := Z.max 1 month_max_active_days in
  num <- Py.log1p (IZR (interaction agg)) ;;
  den <- Py.log1p (IZR max_interaction) ;;
  interaction_score <- Py.fdiv num den ;;
  ratio <- Py.fdiv (avg_reply_seconds_capped agg) (Py.fmax 1 tau_seconds) ;;
  speed_score <- Py.fdiv 1 (1 + ratio) ;;
  continuity_score <- Py.fdiv (IZR (active_days_count agg)) (IZR max_active) ;;
  coverage_score <- Py.fdiv (IZR (time_bucket_count agg)) 4 ;;
  wi <- weight weights "interaction" ;;
  ws <- weight weights "speed" ;;
  wc <- weight weights "continuity" ;;
  wv <- weight weights "coverage" ;;
  Py.Ok (mkScore interaction_score speed_score continuity_score coverage_score
           (wi * interaction_score + ws * speed_score
            + wc * continuity_score + wv * coverage_score)%R).

(** Policy constants of [compute_monthly_best_friends_wall_stats]. *)
Definition gap_cap_seconds : Z := 6 * 60 * 60.
Definition tau_seconds : Z := 30 * 60.

Definition weights : list (string * R) :=
  [("interaction", 0.40%R); ("speed", 0.30%R);
   ("continuity", 0.20%R); ("coverage", 0.10%R)].

Definition minTotalMessages : Z := 8.
Definition minInteraction : Z := 3.
Definition minReplyCount : Z := 1.
Definition minActiveDays : Z := 2.

(** ** The aggregation pass (lines 182-237) *)

Record PassState : Type := mkState {
  per_month_aggs : list (Z * list MonthConvAgg);
  cur_username : string;
  conv_month_aggs : list (Z * MonthConvAgg);
  prev_other_ts : option Z
}.

Definition init_state : PassState :=
  mkState (map (fun m => (m, [])) (range 1 13)) "" [] None.

(** [per_month_aggs[m].append(agg)]; every key [1..12] exists, and the
    caller has checked [1 <= m <= 12]. *)
Definition pool_append (pool : list (Z * list MonthConvAgg)) (m : Z)
    (agg : MonthConvAgg) : list (Z * list MonthConvAgg) :=
  match Py.dict_get Z.eqb pool m with
  | Some l => Py.dict_set Z.eqb pool m (l ++ [agg])
  | None => pool
  end.

Definition flush_conv (st : PassState) : PassState :=
  if (cur_username st =? "")%string then st
  else
    mkState
      (fold_left
         (fun pool '(m, agg) =>
            if (1 <=? m) && (m <=? 12) && (0 <? total agg)
            then pool_append pool m agg
            else pool)
         (conv_month_aggs st) (per_month_aggs st))
      (cur_username st) [] None.

(** [per_month_aggs.get(month) or []]. *)
Definition pool_get (pool : list (Z * list MonthConvAgg)) (m : Z)
    : list MonthConvAgg :=
  match Py.dict_get Z.eqb pool m with
  | Some l => l
  | None => []
  end.

(** The eligibility filter of one month (lines 269-279). *)
Definition is_eligible (agg : MonthConvAgg) : bool :=
  negb (total agg <? minTotalMessages)
  && negb (interaction agg <? minInteraction)
  && negb (replies agg <? minReplyCount)
  && negb (active_days_count agg <? minActiveDays).

Definition eligible_of (aggs : list MonthConvAgg) : list MonthConvAgg :=
  filter is_eligible aggs.

(** [max(...)] of a non-empty sequence of integers. *)
Definition max_of (l : list Z) : Z :=
  match l with
  | [] => 0
  | x :: t => fold_left Z.max t x
  end.

(** The tie key and the order of Python tuples: the first component that
    differs decides. *)
Definition TieKey : Type := (R * R * R * R * string)%type.

Definition tie_key_ltb (k1 k2 : TieKey) : bool :=
  let '(a1, b1, c1, d1, u1) := k1 in
  let '(a2, b2, c2, d2, u2) := k2 in
  if negb (Py.Reqb a1 a2) then Py.Rltb a1 a2
  else if negb (Py.Reqb b1 b2) then Py.Rltb b1 b2
  else if negb (Py.Reqb c1 c2) then Py.Rltb c1 c2
  else if negb (Py.Reqb d1 d2) then Py.Rltb d1 d2
  else String.ltb u1 u2.

Definition Scored : Type := (TieKey * MonthConvAgg * ScoreBreakdown)%type.

Definition scored_ltb (x y : Scored) : bool :=
  tie_key_ltb (fst (fst x)) (fst (fst y)).

(** The selection of one month (lines 268-309), written over the values
    the interpreter has at hand: [scorer agg mi ma] is what the call of
    [_score_month_agg] returns and [avg_capped agg] the value of
    [agg.avg_reply_seconds_capped()].  These are finite binary64 numbers,
    each read as the real number it denotes, and [<] and [==] on them are
    those of the reals; [float(n)] of a counter is exact.  The selection
    itself computes nothing with floats but the negation of the key, which
    is exact, so it is the same function whatever rounding produced the
    scores. *)
Section Selector.
Variable scorer : MonthConvAgg -> Z -> Z -> Py.result ScoreBreakdown.
Variable avg_capped : MonthConvAgg -> R.

Definition tie_key_with (agg : MonthConvAgg) (score : ScoreBreakdown)
    : TieKey :=
  ((- s_final score)%R, (- IZR (interaction agg))%R,
   avg_capped agg, (- IZR (active_days_count agg))%R,
   username agg).

(** Lines 286-302: score every eligible aggregate; an exception of the
    scorer leaves the loop and the function. *)
Fixpoint score_all_with (eligible : list MonthConvAgg)
    (month_max_interaction month_max_active_days : Z)
    : Py.result (list Scored) :=
  match eligible with
  | [] => Py.Ok []
  | agg :: rest =>
      score <- scorer agg month_max_interaction month_max_active_days ;;
      tl <- score_all_with rest month_max_interaction
              month_max_active_days ;;
      Py.Ok ((tie_key_with agg score, agg, score) :: tl)
  end.

(** Lines 268-309 for one month: [None] stands for the [continue] of a
    month without eligible aggregate. *)
Definition month_winner_with (aggs : list MonthConvAgg)
    : Py.result (option (MonthConvAgg * ScoreBreakdown)) :=
  let eligible := eligible_of aggs in
  match eligible with
  | [] => Py.Ok None
  | _ =>
      let month_max_interaction := max_of (map interaction eligible) in
      let month_max_active_days := max_of (map active_days_count eligible) in
      scored <- score_all_with eligible month_max_interaction
                  month_max_active_days ;;
      match Py.sort scored_ltb scored with
      | (_, winner_agg, winner_score) :: _ =>
          Py.Ok (Some (winner_agg, winner_score))
      | [] => Py.Ok None
      end
  end.
End Selector.

(** The selection inside the model of the whole function, where the
    arithmetic of the scorer and of the averages is that of the reals.
    Two scores that are equal as real numbers may differ in their last
    binary digit in the interpreter (see [Sample.quick] and
    [Sample.steady] below); [month_winner_with] takes the scores as they
    are returned. *)
Definition score_call (agg : MonthConvAgg)
    (month_max_interaction month_max_active_days : Z)
    : Py.result ScoreBreakdown :=
  _score_month_agg agg month_max_interaction month_max_active_days
    (IZR tau_seconds) weights.

Definition tie_key : MonthConvAgg -> ScoreBreakdown -> TieKey :=
  tie_key_with avg_reply_seconds_capped.

Definition score_all
    : list MonthConvAgg -> Z -> Z -> Py.result (list Scored) :=
  score_all_with score_call avg_reply_seconds_capped.

Definition month_winner
    : list MonthConvAgg
      -> Py.result (option (MonthConvAgg * ScoreBreakdown)) :=
  month_winner_with score_call avg_reply_seconds_capped.

(** The loop over the months (lines 265-309): [month_winner_raw] and
    [winner_usernames]. *)
Definition WinnerRaw : Type := list (Z * (MonthConvAgg * ScoreBreakdown)).

Fixpoint select_winners (pool : list (Z * list MonthConvAgg))
    (months : list Z) (raw : WinnerRaw) (names : list string)
    : Py.result (WinnerRaw * list string) :=
  match months with
  | [] => Py.Ok (raw, names)
  | m :: rest =>
      w <- month_winner (pool_get pool m) ;;
      match w with
      | None => select_winners pool rest raw names
      | Some (agg, score) =>
          select_winners pool rest (Py.dict_set Z.eqb raw m (agg, score))
            (names ++ [username agg])
      end
  end.

(** Lines 311-316. *)
Fixpoint uniq_usernames (names : list string) (seen : list string)
    : list string :=
  match names with
  | [] => []
  | u :: rest =>
      if negb (u =? "")%string && negb (existsb (String.eqb u) seen)
      then u :: uniq_usernames rest (u :: seen)
      else uniq_usernames rest seen
  end.

Definition _mask_name (name : string) : string :=
  let s := Py.strip name in
  match String.length s with
  | O => ""
  | 1%nat => "*"
  | 2%nat => (Py.first_char s ++ "*")%string
  | n => (Py.first_char s ++ Py.repeat_char "*"%char (n - 2)%nat
          ++ Py.last_char s)%string
  end.

(** Lines 374-382 on one item of [months]. *)
Definition count_winner (counts : list (string * Z)) (item : value)
    : list (string * Z) :=
  match item with
  | VDict d =>
      match as_dict (get d "winner") with
      | None => counts
      | Some w =>
          let u := Py.strip (value_str_or_empty (get w "username")) in
          if (u =? "")%string then counts
          else
            let old := match Py.dict_get String.eqb counts u with
                       | Some n => n
                       | None => 0
                       end in
            Py.dict_set String.eqb counts u (old + 1)
      end
  | _ => counts
  end.

Definition winner_month_counts (months : list value) : list (string * Z) :=
  fold_left count_winner months [].

(** The sort key [(-int(kv[1]), str(kv[0]))] of the champion. *)
Definition champion_ltb (x y : string * Z) : bool :=
  if negb (- snd x =? - snd y) then - snd x <? - snd y
  else String.ltb (fst x) (fst y).

(** Line 397. *)
Definition filled_months_of (months : list value) : list Z :=
  flat_map
    (fun x =>
       match x with
       | VDict d =>
           match as_dict (get d "winner") with
           | Some _ => [value_int_or_zero (get d "month")]
           | None => []
           end
       | _ => []
       end)
    months.

(** ** A concrete setting for the examples

    The clock is [utc_fromtimestamp], every session is kept, there is no
    contact database, and the account is ["wxid_me"]. *)
Module Sample.

Definition keep_all (u : string) : bool := true.
Definition no_contacts (names : list string) : list (string * unit) := [].
Definition display (row : option unit) (u : string) : string := u.
Definition avatar (account u : string) : string := u.
Definition round_keep (x : R) : R := x.
Definition account : string := "wxid_me".

Definition msg (conv sender : string) (ts : Z) : Row :=
  mkRow (Some conv) (Some sender) (Some ts).

(** 2025-01-03, 2025-01-08, 2025-02-03 and 2025-02-08 at 12:00:00 UTC. *)
Definition jan3 : Z := 1735905600.
Definition jan8 : Z := 1736337600.
Definition feb3 : Z := 1738584000.
Definition feb8 : Z := 1739016000.

(** A message of [conv] at [ts] answered by the owner 30 seconds later. *)
Definition pair_at (conv : string) (ts : Z) : list Row :=
  [msg conv conv ts; msg conv account (ts + 30)].

(** Four answered messages on two days of one month. *)
Definition chat (conv : string) (d1 d2 : Z) : list Row :=
  pair_at conv d1 ++ pair_at conv (d1 + 3600)
  ++ pair_at conv d2 ++ pair_at conv (d2 + 3600).

(** "wxid_a" in January; "wxid_a" then "wxid_b", both in January and
    February. *)
Definition rows_a : list Row := chat "wxid_a" jan3 jan8.

Definition rows_ab : list Row :=
  chat "wxid_a" jan3 jan8 ++ chat "wxid_a" feb3 feb8
  ++ chat "wxid_b" jan3 jan8 ++ chat "wxid_b" feb3 feb8.

(** An eligible aggregate as the pass builds them, and a record that no
    pass builds (a negative sum of capped gaps). *)
Definition good : MonthConvAgg :=
  mkAgg "wxid_a" 1 4 4 4 120 120 [3; 8] 4.

Definition broken : MonthConvAgg :=
  mkAgg "wxid_x" 1 4 4 1 (-1800) (-1800) [3; 8] 4.

(** An aggregate with more messages, quicker replies and more days than
    [good]. *)
Definition better : MonthConvAgg :=
  mkAgg "wxid_b" 1 5 5 5 100 100 [3; 8; 9] 4.






End Sample.

(** ** The pass over the rows and the composition of the result *)

Section Engine.

Set Default Proof Using "Type".

(** Collaborators: [_should_keep_session(username, include_official=False)],
    [datetime.fromtimestamp], [account_dir.name], the contact helpers,
    [round(x, 1)], and [timestamp y] for [int(d.timestamp())] of the naive
    [d = datetime(y, 1, 1)]: the epoch second of that local midnight, or
    the exception of the platform's conversion of local time. *)
Variable _should_keep_session : string -> bool.
Variable fromtimestamp : Z -> DateTime.
Variable account_name : string.
Variable ContactRow : Type.
Variable _load_contact_rows : list string -> list (string * ContactRow).
Variable _pick_display_name : option ContactRow -> string -> string.
Variable _build_avatar_url : string -> string -> string.
Variable round1 : R -> R.
Variable timestamp : Z -> Py.result Z.

(** Lines 27-30. *)
Definition _year_range_epoch_seconds (year : Z) : Py.result (Z * Z) :=
  d0 <- datetime_jan1 year ;;
  start <- timestamp d0 ;;
  d1 <- datetime_jan1 (year + 1) ;;
  end_ <- timestamp d1 ;;
  Py.Ok (start, end_).

Definition my_username : string := Py.strip account_name.

(** The reply bookkeeping of one kept row (lines 224-235): the updated
    aggregate and the new [prev_other_ts]. *)
Definition count_message (agg : MonthConvAgg) (prev : option Z)
    (sender : string) (ts : Z) : MonthConvAgg * option Z :=
  let is_me := (sender =? my_username)%string in
  if is_me then
    let agg1 :=
      mkAgg (username agg) (month agg) (incoming agg) (outgoing agg + 1)
            (replies agg) (sum_gap agg) (sum_gap_capped agg)
            (active_days agg) (time_bucket_mask agg) in
    match prev with
    | Some p =>
        if ts >=? p then
          let gap := ts - p in
          (mkAgg (username agg1) (month agg1) (incoming agg1)
                 (outgoing agg1) (replies agg1 + 1) (sum_gap agg1 + gap)
                 (sum_gap_capped agg1 + Z.min gap gap_cap_seconds)
                 (active_days agg1) (time_bucket_mask agg1),
           None)
        else (agg1, prev)
    | None => (agg1, prev)
    end
  else
    (mkAgg (username agg) (month agg) (incoming agg + 1) (outgoing agg)
           (replies agg) (sum_gap agg) (sum_gap_capped agg)
           (active_days agg) (time_bucket_mask agg),
     Some ts).

(** The body of the loop over the cursor (lines 196-235). *)
Definition process_row (st : PassState) (row : Row) : PassState :=
  let username := Py.strip (Py.str_or_empty (row_username row)) in
  let sender := Py.strip (Py.str_or_empty (row_sender row)) in
  let ts := Py.int_or_zero (row_ts row) in
  if (ts <=? 0) || (username =? "")%string then st
  else
    let st1 :=
      if negb (username =? cur_username st)%string then
        let f := flush_conv st in
        mkState (per_month_aggs f) username (conv_month_aggs f)
                (prev_other_ts f)
      else st in
    if negb (_should_keep_session username) then st1
    else
      let dt := fromtimestamp ts in
      let month := dt_month dt in
      if (month <? 1) || (month >? 12) then st1
      else
        let agg :=
          match Py.dict_get Z.eqb (conv_month_aggs st1) month with
          | Some a => a
          | None => new_agg username month
          end in
        let agg := observe agg (dt_day dt) (dt_hour dt) in
        let '(agg, prev) :=
          count_message agg (prev_other_ts st1) sender ts in
        mkState (per_month_aggs st1) (cur_username st1)
                (Py.dict_set Z.eqb (conv_month_aggs st1) month agg) prev.

Definition run_rows (st : PassState) (rows : list Row) : PassState :=
  fold_left process_row rows st.

(** The loop followed by the last [flush_conv()] (line 237). *)
Definition run_pass (rows : list Row) : PassState :=
  flush_conv (run_rows init_state rows).

(** Lines 320-372: the entry of one month. *)
Definition month_item (contact_rows : list (string * ContactRow))
    (month_winner_raw : WinnerRaw) (month : Z) : value :=
  match Py.dict_get Z.eqb month_winner_raw month with
  | None =>
      VDict [("month", VInt month); ("winner", VNone); ("metrics", VNone);
             ("raw", VNone); ("isFallback", VBool false);
             ("reason", VStr "insufficient_data")]
  | Some (agg, score) =>
      let row := Py.dict_get String.eqb contact_rows (username agg) in
      let display := _pick_display_name row (username agg) in
      let avatar :=
        if negb (username agg =? "")%string
        then _build_avatar_url account_name (username agg)
        else "" in
      VDict
        [("month", VInt month);
         ("winner",
          VDict [("username", VStr (username agg));
                 ("displayName", VStr display);
                 ("maskedName", VStr (_mask_name display));
                 ("avatarUrl", VStr avatar);
                 ("score", VFloat (s_final score));
                 ("score100", VFloat (round1 (s_final score * 100)%R))]);
         ("metrics",
          VDict [("interactionScore", VFloat (s_interaction score));
                 ("speedScore", VFloat (s_speed score));
                 ("continuityScore", VFloat (s_continuity score));
                 ("coverageScore", VFloat (s_coverage score))]);
         ("raw",
          VDict [("incomingMessages", VInt (incoming agg));
                 ("outgoingMessages", VInt (outgoing agg));
                 ("totalMessages", VInt (total agg));
                 ("interaction", VInt (interaction agg));
                 ("replyCount", VInt (replies agg));
                 ("avgReplySeconds", VFloat (avg_reply_seconds agg));
                 ("avgReplySecondsCapped",
                  VFloat (avg_reply_seconds_capped agg));
                 ("activeDays", VInt (active_days_count agg));
                 ("timeBucketsCount", VInt (time_bucket_count agg))]);
         ("isFallback", VBool false)]
  end.

(** Lines 384-395. *)
Definition top_champion_of (contact_rows : list (string * ContactRow))
    (counts : list (string * Z)) : value :=
  match counts with
  | [] => VNone
  | _ =>
      match Py.sort champion_ltb counts with
      | [] => VNone
      | (champion_username, _) :: _ =>
          let champion_months :=
            match Py.dict_get String.eqb counts champion_username with
            | Some n => n
            | None => 0
            end in
          let row := Py.dict_get String.eqb contact_rows champion_username in
          let display := _pick_display_name row champion_username in
          VDict [("username", VStr champion_username);
                 ("displayName", VStr display);
                 ("maskedName", VStr (_mask_name display));
                 ("monthsWon", VInt champion_months)]
      end
  end.

(** The function itself.  [index_exists] is [index_path.exists()],
    [has_fts] the result of the [sqlite_master] probe, [rows] the rows of
    the cursor (the events of the index between the two bounds of line
    120), and [probe_status] what lines 251-263 leave in [index_status]
    when the index was not used.  Line 120 comes first: a year whose
    bounds cannot be computed raises before anything is read. *)
Definition compute_monthly_best_friends_wall_stats
    (index_exists has_fts : bool) (rows : list Row) (probe_status : value)
    (year : Z) : Py.result value :=
  bounds <- _year_range_epoch_seconds year ;;
  let used_index :=
    index_exists && has_fts && negb (my_username =? "")%string in
  let pool :=
    if used_index then per_month_aggs (run_pass rows)
    else per_month_aggs init_state in
  let index_status := if used_index then VNone else probe_status in
  sel <- select_winners pool (range 1 13) [] [] ;;
  let month_winner_raw := fst sel in
  let winner_usernames := snd sel in
  let uniq_winner_usernames := uniq_usernames winner_usernames [] in
  let contact_rows :=
    match uniq_winner_usernames with
    | [] => []
    | _ => _load_contact_rows uniq_winner_usernames
    end in
  let months := map (month_item contact_rows month_winner_raw) (range 1 13) in
  let counts := winner_month_counts months in
  let top_champion := top_champion_of contact_rows counts in
  let filled_months := filled_months_of months in
  Py.Ok
    (VDict
       [("year", VInt year);
        ("months", VList months);
        ("summary",
         VDict [("monthsWithWinner",
                 VInt (Z.of_nat (List.length filled_months)));
                ("topChampion", top_champion);
                ("filledMonths", VList (map VInt filled_months))]);
        ("settings",
         VDict [("weights",
                 VDict (map (fun kv => (fst kv, VFloat (snd kv))) weights));
                ("tauSeconds", VInt tau_seconds);
                ("gapCapSeconds", VInt gap_cap_seconds);
                ("eligibility",
                 VDict [("minTotalMessages", VInt minTotalMessages);
                        ("minInteraction", VInt minInteraction);
                        ("minReplyCount", VInt minReplyCount);
                        ("minActiveDays", VInt minActiveDays)]);
                ("usedIndex", VBool used_index);
                ("indexStatus", index_status)])]).

(** ** Notions used to state the properties *)

(** The years for which line 120 returns the bounds of the query. *)
Definition year_range_ok (year : Z) : Prop :=
  exists bounds, _year_range_epoch_seconds year = Py.Ok bounds.

(** The conversation id the pass reads in a row, and whether the pass
    looks at the row at all (line 204). *)
Definition row_id (row : Row) : string :=
  Py.strip (Py.str_or_empty (row_username row)).

Definition row_valid (row : Row) : bool :=
  negb ((Py.int_or_zero (row_ts row) <=? 0) || (row_id row =? "")%string).

Definition conv_ids (rows : list Row) : list string :=
  map row_id (filter row_valid rows).

Definition rows_of_conv (u : string) (rows : list Row) : list Row :=
  filter (fun r => row_valid r && (row_id r =? u)%string) rows.

Definition str_le (a b : string) : Prop := String.leb a b = true.
Definition str_lt (a b : string) : Prop := String.ltb a b = true.

(** What a flush moves into the pool of month [m]. *)
Definition flushed (conv : list (Z * MonthConvAgg)) (m : Z)
    : list MonthConvAgg :=
  map snd
    (filter
       (fun kv =>
          (fst kv =? m) && (1 <=? fst kv) && (fst kv <=? 12)
          && (0 <? total (snd kv)))
       conv).

(** Counters are counts: what holds of every aggregate the pass builds. *)
Definition agg_wf (a : MonthConvAgg) : Prop :=
  0 <= incoming a /\ 0 <= outgoing a /\ 0 <= replies a
  /\ 0 <= sum_gap a /\ 0 <= sum_gap_capped a.

(** A conversation id as the pass stores it: stripped and not empty. *)
Definition name_ok (u : string) : Prop := Py.strip u = u /\ u <> "".

(** What holds of an aggregate kept under month [m]. *)
Definition pooled_ok (m : Z) (a : MonthConvAgg) : Prop :=
  month a = m /\ 1 <= m <= 12 /\ name_ok (username a) /\ 0 < total a
  /\ agg_wf a.

(** The invariant of the loop. *)
Record state_ok (st : PassState) : Prop := mk_state_ok {
  ok_keys : map fst (per_month_aggs st) = range 1 13;
  ok_idle :
    cur_username st = "" ->
    conv_month_aggs st = [] /\ prev_other_ts st = None;
  ok_cur : cur_username st <> "" -> name_ok (cur_username st);
  ok_conv_keys : NoDup (map fst (conv_month_aggs st));
  ok_conv :
    forall k a, In (k, a) (conv_month_aggs st) ->
                username a = cur_username st /\ pooled_ok k a;
  ok_pool :
    forall m a, In a (pool_get (per_month_aggs st) m) -> pooled_ok m a
}.

(** The state in which the row of conversation [u] is counted: the one
    in progress is flushed first when [u] is another conversation. *)
Definition entered (st : PassState) (u : string) : PassState :=
  if (u =? cur_username st)%string then st
  else mkState (per_month_aggs (flush_conv st)) u
         (conv_month_aggs (flush_conv st)) (prev_other_ts (flush_conv st)).

(** Two states that agree on what belongs to the conversation in
    progress. *)
Definition same_conv (s s' : PassState) : Prop :=
  cur_username s = cur_username s'
  /\ conv_month_aggs s = conv_month_aggs s'
  /\ prev_other_ts s = prev_other_ts s'.

(** What the pass has built from [rows] when the conversation ids come in
    ascending order: the pool holds finished conversations only, each one
    once per month and equal to what its own rows give. *)
Record pass_inv (rows : list Row) (st : PassState) : Prop := mk_pass_inv {
  inv_cur : cur_username st = last (conv_ids rows) "";
  inv_lt :
    forall m a, In a (pool_get (per_month_aggs st) m) ->
                str_lt (username a) (cur_username st);
  inv_nodup :
    forall m, NoDup (map username (pool_get (per_month_aggs st) m));
  inv_whole :
    forall m a,
      In a (pool_get (per_month_aggs st) m) ->
      pool_get (per_month_aggs (run_pass (rows_of_conv (username a) rows))) m
        = [a];
  inv_alone :
    same_conv (run_rows init_state (rows_of_conv (cur_username st) rows)) st;
  inv_alone_pool :
    per_month_aggs (run_rows init_state (rows_of_conv (cur_username st) rows))
      = per_month_aggs init_state
}.

(** What the scorer returns when nothing raises. *)
Definition score_total (a : MonthConvAgg)
    (month_max_interaction month_max_active_days : Z) (tau : R)
    (w : R * R * R * R) : ScoreBreakdown :=
  let '(wi, ws, wc, wv) := w in
  let interaction_score :=
    (ln (1 + IZR (interaction a))
     / ln (1 + IZR (Z.max 1 month_max_interaction)))%R in
  let speed_score :=
    (1 / (1 + avg_reply_seconds_capped a / Py.fmax 1 tau))%R in
  let continuity_score :=
    (IZR (active_days_count a) / IZR (Z.max 1 month_max_active_days))%R in
  let coverage_score := (IZR (time_bucket_count a) / 4)%R in
  mkScore interaction_score speed_score continuity_score coverage_score
    (wi * interaction_score + ws * speed_score
     + wc * continuity_score + wv * coverage_score)%R.

(** The scores in the words of the specification. *)
Definition avgReplyGapCapped (a : MonthConvAgg) : R :=
  if replies a =? 0 then 0%R
  else (IZR (sum_gap_capped a) / IZR (replies a))%R.

Definition spec_score (a : MonthConvAgg) (maxInteraction maxActiveDays : Z)
    : ScoreBreakdown :=
  let interactionScore :=
    (ln (1 + IZR (interaction a))
     / ln (1 + IZR (Z.max 1 maxInteraction)))%R in
  let speedScore := (1 / (1 + avgReplyGapCapped a / 1800))%R in
  let continuityScore :=
    (IZR (active_days_count a) / IZR (Z.max 1 maxActiveDays))%R in
  let coverageScore := (IZR (time_bucket_count a) / 4)%R in
  mkScore interactionScore speedScore continuityScore coverageScore
    (0.40 * interactionScore + 0.30 * speedScore
     + 0.20 * continuityScore + 0.10 * coverageScore)%R.

Definition in_unit (x : R) : Prop := (0 <= x <= 1)%R.

Definition scores_in_unit (s : ScoreBreakdown) : Prop :=
  in_unit (s_interaction s) /\ in_unit (s_speed s)
  /\ in_unit (s_continuity s) /\ in_unit (s_coverage s)
  /\ in_unit (s_final s).

(** The order of Python tuples, componentwise from the left. *)
Definition lex {A B : Type} (ltA : A -> A -> Prop) (ltB : B -> B -> Prop)
    (x y : A * B) : Prop :=
  ltA (fst x) (fst y) \/ (fst x = fst y /\ ltB (snd x) (snd y)).

Record strict_total {A : Type} (lt : A -> A -> Prop) : Prop := {
  st_irrefl : forall x, ~ lt x x;
  st_trans : forall x y z, lt x y -> lt y z -> lt x z;
  st_total : forall x y, x = y \/ lt x y \/ lt y x
}.

Definition key_lt : TieKey -> TieKey -> Prop :=
  lex (lex (lex (lex Rlt Rlt) Rlt) Rlt) str_lt.

(** The winner of a month when the scorer raises nothing. *)
Definition month_score (eligible : list MonthConvAgg) (a : MonthConvAgg)
    : ScoreBreakdown :=
  spec_score a (max_of (map interaction eligible))
    (max_of (map active_days_count eligible)).

Definition scored_of (eligible : list MonthConvAgg) : list Scored :=
  map (fun a => (tie_key a (month_score eligible a), a,
                 month_score eligible a))
    eligible.

Definition best_of (aggs : list MonthConvAgg)
    : option (MonthConvAgg * ScoreBreakdown) :=
  match Py.sort scored_ltb (scored_of (eligible_of aggs)) with
  | (_, w, s) :: _ => Some (w, s)
  | [] => None
  end.

(** [x] is not greater than [y] for the comparison [ltb]. *)
Definition not_greater {A : Type} (ltb : A -> A -> bool) (x y : A) : Prop :=
  ltb y x = false.

(** The pool the selection works on (lines 138-150). *)
Definition year_pool (index_exists has_fts : bool) (rows : list Row)
    : list (Z * list MonthConvAgg) :=
  if index_exists && has_fts && negb (my_username =? "")%string
  then per_month_aggs (run_pass rows)
  else per_month_aggs init_state.

(** The winners of the year when the scorer raises nothing. *)
Definition winners_raw (pool : list (Z * list MonthConvAgg)) : WinnerRaw :=
  flat_map
    (fun m =>
       match best_of (pool_get pool m) with
       | Some p => [(m, p)]
       | None => []
       end)
    (range 1 13).

(** Reading the returned structure. *)
Definition months_of (v : value) : list value :=
  match v with
  | VDict d =>
      match get d "months" with
      | Some (VList l) => l
      | _ => []
      end
  | _ => []
  end.

Definition summary_of (v : value) : dict :=
  match v with
  | VDict d =>
      match get d "summary" with
      | Some (VDict s) => s
      | _ => []
      end
  | _ => []
  end.

(** ** The card (lines 428-452)

    The fixed texts are kept as the bytes of their UTF-8 encoding. *)

(** The truth value of the result of a [.get]. *)
Definition truthy (x : option value) : bool :=
  match x with
  | None | Some VNone => false
  | Some (VBool b) => b
  | Some (VInt z) => negb (z =? 0)
  | Some (VFloat r) => negb (Py.Reqb r 0)
  | Some (VStr s) => negb (s =? "")%string
  | Some (VList l) => match l with [] => false | _ => true end
  | Some (VDict d) => match d with [] => false | _ => true end
  end.

Definition narrative_none : string :=
  "今年还没有足够的聊天互动数据来评选每月最佳好友（或搜索索引尚未就绪）。".

Definition narrative_champion (champ_name : string) (months_won : Z)
    : string :=
  (champ_name ++ " 拿下了 " ++ Py.str_of_int months_won
   ++ " 个月的月度最佳好友；这一年你们的聊天默契很稳定。")%string.

Definition narrative_months (months_with_winner : Z) : string :=
  ("你在 " ++ Py.str_of_int months_with_winner
   ++ " 个月里都出现了稳定的“月度最佳好友”。")%string.

Definition build_card_04_monthly_best_friends_wall
    (index_exists has_fts : bool) (rows : list Row) (probe_status : value)
    (year : Z) : Py.result value :=
  data <- compute_monthly_best_friends_wall_stats index_exists has_fts rows
            probe_status year ;;
  let summary := summary_of data in
  let top_champion := get summary "topChampion" in
  let months_with_winner :=
    value_int_or_zero (get summary "monthsWithWinner") in
  let narrative :=
    if months_with_winner <=? 0 then narrative_none
    else
      match as_dict top_champion with
      | Some tc =>
          if truthy (get tc "displayName")
          then narrative_champion
                 (value_str_or_empty (get tc "displayName"))
                 (value_int_or_zero (get tc "monthsWon"))
          else narrative_months months_with_winner
      | None => narrative_months months_with_winner
      end in
  Py.Ok
    (VDict [("id", VInt 4);
            ("title", VStr "陪你走过每个月的人");
            ("scope", VStr "global");
            ("category", VStr "B");
            ("status", VStr "ok");
            ("kind", VStr "chat/monthly_best_friends_wall");
            ("narrative", VStr narrative);
            ("data", data)]).

(** The conversation id of the winner of an entry of [months], if any. *)
Definition item_winner (item : value) : option string :=
  match item with
  | VDict d =>
      match get d "winner" with
      | Some (VDict w) =>
          match get w "username" with
          | Some (VStr u) => Some u
          | _ => None
          end
      | _ => None
      end
  | _ => None
  end.

Definition item_month (item : value) : Z :=
  match item with
  | VDict d => value_int_or_zero (get d "month")
  | _ => 0
  end.

Definition won_by (u : string) (item : value) : bool :=
  match item_winner item with
  | Some x => (x =? u)%string
  | None => false
  end.

(** The number of months that conversation [u] won. *)
Definition months_won (months : list value) (u : string) : Z :=
  Z.of_nat (List.length (filter (won_by u) months)).

Definition has_winner (item : value) : bool :=
  match item_winner item with
  | Some _ => true
  | None => false
  end.

(** The order in which the champion is chosen: more months first, then
    the smaller conversation id. *)
Definition champion_lt (x y : string * Z) : Prop :=
  lex Z.lt str_lt (- snd x, fst x) (- snd y, fst y).

(** The tally of a conversation in [winner_month_counts]. *)
Definition count_of (counts : list (string * Z)) (u : string) : Z :=
  match Py.dict_get String.eqb counts u with
  | Some n => n
  | None => 0
  end.

(** An entry of [months] as the composer builds them: the tally and the
    list of filled months read it the way [item_winner] does. *)
Definition item_good (item : value) : Prop :=
  (forall counts,
      count_winner counts item =
        match item_winner item with
        | Some u => Py.dict_set String.eqb counts u (count_of counts u + 1)
        | None => counts
        end)
  /\ filled_months_of [item] =
       (if has_winner item then [item_month item] else []).

(** A property of aggregates that holds of every aggregate of a state, in
    the month map of the conversation in progress and in the pool. *)
Definition all_aggs (P : MonthConvAgg -> Prop) (st : PassState) : Prop :=
  (forall k a, In (k, a) (conv_month_aggs st) -> P a)
  /\ (forall m a, In a (pool_get (per_month_aggs st) m) -> P a).

(** Whether the pass counts a row: the row is read, its session is kept and
    its month is one of [1..12] (lines 204-217). *)
Definition row_counted (row : Row) : bool :=
  row_valid row
  && _should_keep_session (row_id row)
  && (1 <=? dt_month (fromtimestamp (Py.int_or_zero (row_ts row))))
  && (dt_month (fromtimestamp (Py.int_or_zero (row_ts row))) <=? 12).

(** Whether the row is a message of the account owner (line 224). *)
Definition row_from_me (row : Row) : bool :=
  (Py.strip (Py.str_or_empty (row_sender row)) =? my_username)%string.

Definition count_rows (p : Row -> bool) (rows : list Row) : Z :=
  Z.of_nat (List.length (filter p rows)).

(** Sums of a counter over a list of aggregates, over the twelve pools and
    over the month map of a conversation. *)
Definition sum_of (f : MonthConvAgg -> Z) (l : list MonthConvAgg) : Z :=
  fold_right (fun a s => f a + s) 0 l.

Definition months_sum (F : Z -> Z) (ms : list Z) : Z :=
  fold_right (fun m s => F m + s) 0 ms.

Definition pool_sum (f : MonthConvAgg -> Z)
    (pool : list (Z * list MonthConvAgg)) : Z :=
  months_sum (fun m => sum_of f (pool_get pool m)) (range 1 13).

Definition conv_sum (f : MonthConvAgg -> Z)
    (conv : list (Z * MonthConvAgg)) : Z :=
  sum_of f (map snd conv).

(** The month the clock gives for the row (lines 214-215). *)
Definition row_month (row : Row) : Z :=
  dt_month (fromtimestamp (Py.int_or_zero (row_ts row))).

(** What a row adds to a counter that grows by [g month sender] per
    counted message. *)
Definition rows_weight (g : Z -> string -> Z) (rows : list Row) : Z :=
  fold_right
    (fun r s =>
       (if row_counted r
        then g (row_month r) (Py.strip (Py.str_or_empty (row_sender r)))
        else 0) + s)
    0 rows.

(** Whether the last message counted waits for a reply. *)
Definition pending (st : PassState) : Z :=
  match prev_other_ts st with
  | Some _ => 1
  | None => 0
  end.

(** Two states that differ by what the pool held before. *)
Definition framed (P : Z -> list MonthConvAgg) (s s' : PassState) : Prop :=
  same_conv s s'
  /\ forall m,
       pool_get (per_month_aggs s') m = P m ++ pool_get (per_month_aggs s) m.

(** The two shapes of an entry of [months] (lines 323-332 and 341-372). *)
Definition empty_entry (m : Z) : value :=
  VDict [("month", VInt m); ("winner", VNone); ("metrics", VNone);
         ("raw", VNone); ("isFallback", VBool false);
         ("reason", VStr "insufficient_data")].

Definition winner_entry (contact_rows : list (string * ContactRow)) (m : Z)
    (agg : MonthConvAgg) (score : ScoreBreakdown) : value :=
  let display :=
    _pick_display_name (Py.dict_get String.eqb contact_rows (username agg))
      (username agg) in
  VDict
    [("month", VInt m);
     ("winner",
      VDict [("username", VStr (username agg));
             ("displayName", VStr display);
             ("maskedName", VStr (_mask_name display));
             ("avatarUrl",
              VStr (if negb (username agg =? "")%string
                    then _build_avatar_url account_name (username agg)
                    else ""));
             ("score", VFloat (s_final score));
             ("score100", VFloat (round1 (s_final score * 100)%R))]);
     ("metrics",
      VDict [("interactionScore", VFloat (s_interaction score));
             ("speedScore", VFloat (s_speed score));
             ("continuityScore", VFloat (s_continuity score));
             ("coverageScore", VFloat (s_coverage score))]);
     ("raw",
      VDict [("incomingMessages", VInt (incoming agg));
             ("outgoingMessages", VInt (outgoing agg));
             ("totalMessages", VInt (total agg));
             ("interaction", VInt (interaction agg));
             ("replyCount", VInt (replies agg));
             ("avgReplySeconds", VFloat (avg_reply_seconds agg));
             ("avgReplySecondsCapped",
              VFloat (avg_reply_seconds_capped agg));
             ("activeDays", VInt (active_days_count agg));
             ("timeBucketsCount", VInt (time_bucket_count agg))]);
     ("isFallback", VBool false)].

Definition settings_of (v : value) : dict :=
  match v with
  | VDict d =>
      match get d "settings" with
      | Some (VDict s) => s
      | _ => []
      end
  | _ => []
  end.

(** Lines 309-318: the ids the contacts are loaded for, and the rows
    loaded. *)
Definition winner_names (pool : list (Z * list MonthConvAgg)) : list string :=
  map (fun kv => username (fst (snd kv))) (winners_raw pool).

Definition contact_query (pool : list (Z * list MonthConvAgg))
    : list string :=
  uniq_usernames (winner_names pool) [].

Definition contacts_of (pool : list (Z * list MonthConvAgg))
    : list (string * ContactRow) :=
  match contact_query pool with
  | [] => []
  | _ => _load_contact_rows (contact_query pool)
  end.

(** Whether the index is read (line 150). *)
Definition index_used (index_exists has_fts : bool) : bool :=
  index_exists && has_fts && negb (my_username =? "")%string.

(** [active_days.add(day)] behind the test of line 84. *)
Definition add_day (d : Z) (l : set Z) : set Z :=
  if (1 <=? d) && (d <=? 31) then set_add Z.eq_dec d l else l.

(** Every reply credited so far answers a message received before it, and
    a message that still waits for its reply has not been answered. *)
Definition replies_answer (st : PassState) : Prop :=
  pool_sum replies (per_month_aggs st) + conv_sum replies (conv_month_aggs st)
  + pending st
  <= pool_sum incoming (per_month_aggs st)
     + conv_sum incoming (conv_month_aggs st).

(** Proofs that do not speak of a collaborator do not depend on it. *)
Ltac drop_collaborators :=
  try clear round1; try clear timestamp; try clear _build_avatar_url;
  try clear _pick_display_name; try clear _load_contact_rows;
  try clear ContactRow; try clear fromtimestamp;
  try clear _should_keep_session; try clear account_name.

(** ** Association lists *)

Section DictFacts.
Context {K V : Type} (eqb : K -> K -> bool).
Hypothesis eqb_spec : forall x y, reflect (x = y) (eqb x y).

Set Default Proof Using "Type eqb_spec".

Lemma dict_get_set_same (d : list (K * V)) k v :
  Py.dict_get eqb (Py.dict_set eqb d k v) k = Some v.
Proof.
  induction d as [|[k' v'] d IH]; simpl.
  - destruct (eqb_spec k k); congruence.
  - destruct (eqb_spec k' k) as [E|E]; simpl.
    + destruct (eqb_spec k' k); congruence.
    + destruct (eqb_spec k' k); congruence.
Qed.

Lemma dict_get_set_other (d : list (K * V)) k k' v :
  k <> k' ->
  Py.dict_get eqb (Py.dict_set eqb d k v) k' = Py.dict_get eqb d k'.
Proof.
  intros Hne. induction d as [|[k0 v0] d IH]; simpl.
  - destruct (eqb_spec k k'); congruence.
  - destruct (eqb_spec k0 k) as [E|E]; simpl.
    + subst k0. destruct (eqb_spec k k'); congruence.
    + destruct (eqb_spec k0 k'); congruence.
Qed.

Lemma dict_set_keys_present (d : list (K * V)) k v v0 :
  Py.dict_get eqb d k = Some v0 ->
  map fst (Py.dict_set eqb d k v) = map fst d.
Proof.
  induction d as [|[k' v'] d IH]; simpl; [discriminate|].
  destruct (eqb_spec k' k); simpl; intros H; [reflexivity|].
  now rewrite IH.
Qed.

Lemma dict_set_keys_absent (d : list (K * V)) k v :
  Py.dict_get eqb d k = None ->
  map fst (Py.dict_set eqb d k v) = map fst d ++ [k].
Proof.
  induction d as [|[k' v'] d IH]; simpl; [reflexivity|].
  destruct (eqb_spec k' k); simpl; intros H; [discriminate|].
  now rewrite IH.
Qed.

Lemma dict_get_in (d : list (K * V)) k v :
  Py.dict_get eqb d k = Some v -> In (k, v) d.
Proof.
  induction d as [|[k' v'] d IH]; simpl; [discriminate|].
  destruct (eqb_spec k' k); intros H.
  - left. congruence.
  - right. auto.
Qed.

Lemma dict_get_none (d : list (K * V)) k :
  Py.dict_get eqb d k = None <-> ~ In k (map fst d).
Proof.
  drop_collaborators.
  induction d as [|[k' v'] d IH]; simpl; [tauto|].
  destruct (eqb_spec k' k); split; intros H.
  - discriminate.
  - exfalso. apply H. now left.
  - intros [E|E]; [congruence|]. now apply IH in H.
  - apply IH. tauto.
Qed.

Lemma in_dict_get (d : list (K * V)) k v :
  NoDup (map fst d) -> In (k, v) d -> Py.dict_get eqb d k = Some v.
Proof.
  drop_collaborators.
  induction d as [|[k' v'] d IH]; simpl; [tauto|].
  intros Hnd [E|E].
  - inversion E; subst. destruct (eqb_spec k k); congruence.
  - inversion Hnd; subst. destruct (eqb_spec k' k) as [->|Hne].
    + exfalso. apply H1. apply in_map_iff. now exists (k, v).
    + auto.
Qed.

Lemma dict_set_in (d : list (K * V)) k v x :
  In x (Py.dict_set eqb d k v) -> x = (k, v) \/ In x d.
Proof.
  induction d as [|[k' v'] d IH]; simpl.
  - intros [E|[]]. now left.
  - destruct (eqb_spec k' k) as [->|Hne]; simpl.
    + intros [E|E]; [now left|]. right. now right.
    + intros [E|E]; [right; now left|].
      destruct (IH E) as [E'|E']; [now left|right; now right].
Qed.
End DictFacts.

Set Default Proof Using "Type".

(** ** One step of the pass *)

Lemma process_row_skip st row :
  row_valid row = false -> process_row st row = st.
Proof.
  unfold row_valid, row_id, process_row. intros H.
  apply negb_false_iff in H. now rewrite H.
Qed.

(** A row of the conversation in progress, kept and dated in [1..12]. *)
Lemma process_row_same st row :
  row_valid row = true ->
  row_id row = cur_username st ->
  _should_keep_session (row_id row) = true ->
  1 <= dt_month (fromtimestamp (Py.int_or_zero (row_ts row))) <= 12 ->
  process_row st row =
    let ts := Py.int_or_zero (row_ts row) in
    let dt := fromtimestamp ts in
    let agg :=
      match Py.dict_get Z.eqb (conv_month_aggs st) (dt_month dt) with
      | Some a => a
      | None => new_agg (row_id row) (dt_month dt)
      end in
    let r := count_message (observe agg (dt_day dt) (dt_hour dt))
               (prev_other_ts st)
               (Py.strip (Py.str_or_empty (row_sender row))) ts in
    mkState (per_month_aggs st) (cur_username st)
      (Py.dict_set Z.eqb (conv_month_aggs st) (dt_month dt) (fst r))
      (snd r).
Proof.
  unfold row_valid, row_id, process_row. intros Hv Hid Hk Hm.
  apply negb_true_iff in Hv. rewrite Hv, Hid, String.eqb_refl. simpl.
  rewrite <- Hid, Hk. simpl.
  replace (dt_month (fromtimestamp (Py.int_or_zero (row_ts row))) <? 1)
    with false by (symmetry; apply Z.ltb_ge; lia).
  replace (dt_month (fromtimestamp (Py.int_or_zero (row_ts row))) >? 12)
    with false by (symmetry; rewrite Z.gtb_ltb; apply Z.ltb_ge; lia).
  simpl.
  destruct (count_message _ _ _ _) as [a p]. reflexivity.
Qed.

(** A row of another conversation first flushes the one in progress. *)
Lemma process_row_change st row :
  row_valid row = true ->
  row_id row <> cur_username st ->
  process_row st row =
    process_row
      (mkState (per_month_aggs (flush_conv st)) (row_id row)
         (conv_month_aggs (flush_conv st)) (prev_other_ts (flush_conv st)))
      row.
Proof.
  unfold row_valid, row_id, process_row. intros Hv Hid.
  apply negb_true_iff in Hv. rewrite Hv.
  apply String.eqb_neq in Hid. rewrite Hid. cbn [negb cur_username].
  rewrite String.eqb_refl. reflexivity.
Qed.

(** ** Flushing a conversation into the pool *)

Lemma range_in a b x : In x (range a b) <-> a <= x < b.
Proof.
  unfold range. rewrite in_map_iff. split.
  - intros [i [<- Hi]]. apply in_seq in Hi. lia.
  - intros H. exists (Z.to_nat (x - a)). split; [lia|].
    apply in_seq. lia.
Qed.

Lemma pool_has_key (pool : list (Z * list MonthConvAgg)) m :
  map fst pool = range 1 13 -> 1 <= m <= 12 ->
  exists l, Py.dict_get Z.eqb pool m = Some l.
Proof.
  intros Hk Hm.
  destruct (Py.dict_get Z.eqb pool m) as [l|] eqn:E; [now exists l|].
  apply (dict_get_none Z.eqb Z.eqb_spec) in E. exfalso. apply E.
  rewrite Hk. apply range_in. lia.
Qed.

Lemma pool_no_key (pool : list (Z * list MonthConvAgg)) m :
  map fst pool = range 1 13 -> ~ (1 <= m <= 12) -> pool_get pool m = [].
Proof.
  intros Hk Hm. unfold pool_get.
  destruct (Py.dict_get Z.eqb pool m) as [l|] eqn:E; [|reflexivity].
  apply (dict_get_in Z.eqb Z.eqb_spec) in E.
  exfalso. apply Hm.
  assert (In m (map fst pool)) by (apply in_map_iff; now exists (m, l)).
  rewrite Hk in H. apply range_in in H. lia.
Qed.

Lemma pool_append_keys pool m a :
  map fst (pool_append pool m a) = map fst pool.
Proof.
  unfold pool_append.
  destruct (Py.dict_get Z.eqb pool m) as [l|] eqn:E; [|reflexivity].
  now apply (dict_set_keys_present Z.eqb Z.eqb_spec) with (v0 := l).
Qed.

Lemma pool_get_append pool m a m' :
  map fst pool = range 1 13 -> 1 <= m <= 12 ->
  pool_get (pool_append pool m a) m' =
    if m =? m' then pool_get pool m' ++ [a] else pool_get pool m'.
Proof.
  intros Hk Hm. destruct (pool_has_key pool m Hk Hm) as [l Hl].
  unfold pool_append, pool_get. rewrite Hl.
  destruct (Z.eqb_spec m m') as [<-|Hne].
  - now rewrite (dict_get_set_same Z.eqb Z.eqb_spec), Hl.
  - now rewrite (dict_get_set_other Z.eqb Z.eqb_spec).
Qed.

Lemma flush_fold conv : forall pool m,
  map fst pool = range 1 13 ->
  let pool' :=
    fold_left
      (fun pool '(m, agg) =>
         if (1 <=? m) && (m <=? 12) && (0 <? total agg)
         then pool_append pool m agg
         else pool)
      conv pool in
  map fst pool' = range 1 13
  /\ pool_get pool' m = pool_get pool m ++ flushed conv m.
Proof.
  induction conv as [|[k a] conv IH]; intros pool m Hk; cbn [fold_left].
  - split; [assumption|]. unfold flushed. cbn. now rewrite app_nil_r.
  - unfold flushed. cbn [filter fst snd].
    destruct ((1 <=? k) && (k <=? 12) && (0 <? total a)) eqn:G.
    + assert (Hr : 1 <= k <= 12).
      { apply andb_prop in G. destruct G as [G _].
        apply andb_prop in G. destruct G as [G1 G2].
        apply Z.leb_le in G1. apply Z.leb_le in G2. lia. }
      destruct (IH (pool_append pool k a) m) as [IH1 IH2].
      { now rewrite pool_append_keys. }
      split; [exact IH1|]. cbv zeta in IH2. rewrite IH2.
      rewrite pool_get_append by assumption.
      unfold flushed.
      replace ((k =? m) && (1 <=? k) && (k <=? 12) && (0 <? total a))
        with ((k =? m) && ((1 <=? k) && (k <=? 12) && (0 <? total a)))
        by (now rewrite !andb_assoc).
      rewrite G, andb_true_r.
      destruct (k =? m); cbn [map snd]; [now rewrite <- app_assoc|reflexivity].
    + destruct (IH pool m Hk) as [IH1 IH2].
      split; [exact IH1|]. cbv zeta in IH2. rewrite IH2.
      unfold flushed.
      replace ((k =? m) && (1 <=? k) && (k <=? 12) && (0 <? total a))
        with ((k =? m) && ((1 <=? k) && (k <=? 12) && (0 <? total a)))
        by (now rewrite !andb_assoc).
      now rewrite G, andb_false_r.
Qed.

(** What [flush_conv] does to a state whose conversation is named. *)
Lemma flush_conv_named st :
  cur_username st <> "" ->
  map fst (per_month_aggs st) = range 1 13 ->
  map fst (per_month_aggs (flush_conv st)) = range 1 13
  /\ (forall m,
        pool_get (per_month_aggs (flush_conv st)) m =
          pool_get (per_month_aggs st) m ++ flushed (conv_month_aggs st) m)
  /\ cur_username (flush_conv st) = cur_username st
  /\ conv_month_aggs (flush_conv st) = []
  /\ prev_other_ts (flush_conv st) = None.
Proof.
  intros Hc Hk. unfold flush_conv.
  apply String.eqb_neq in Hc. rewrite Hc. cbn [per_month_aggs cur_username
    conv_month_aggs prev_other_ts].
  split; [|split; [|auto]].
  - apply (flush_fold (conv_month_aggs st) (per_month_aggs st) 0 Hk).
  - intros m. apply (flush_fold (conv_month_aggs st) (per_month_aggs st) m Hk).
Qed.

Lemma init_state_keys : map fst (per_month_aggs init_state) = range 1 13.
Proof. reflexivity. Qed.

Lemma count_message_reply a p ts :
  p <= ts ->
  count_message a (Some p) my_username ts =
    (mkAgg (username a) (month a) (incoming a) (outgoing a + 1)
       (replies a + 1) (sum_gap a + (ts - p))
       (sum_gap_capped a + Z.min (ts - p) 21600)
       (active_days a) (time_bucket_mask a),
     None).
Proof.
  intros H. unfold count_message. rewrite String.eqb_refl.
  replace (ts >=? p) with true by (symmetry; rewrite Z.geb_leb; now apply Z.leb_le).
  reflexivity.
Qed.

Lemma count_message_early a p ts :
  ts < p ->
  count_message a (Some p) my_username ts =
    (mkAgg (username a) (month a) (incoming a) (outgoing a + 1)
       (replies a) (sum_gap a) (sum_gap_capped a)
       (active_days a) (time_bucket_mask a),
     Some p).
Proof.
  intros H. unfold count_message. rewrite String.eqb_refl.
  replace (ts >=? p) with false by (symmetry; rewrite Z.geb_leb; now apply Z.leb_gt).
  reflexivity.
Qed.

Lemma count_message_no_pending a ts :
  count_message a None my_username ts =
    (mkAgg (username a) (month a) (incoming a) (outgoing a + 1)
       (replies a) (sum_gap a) (sum_gap_capped a)
       (active_days a) (time_bucket_mask a),
     None).
Proof. unfold count_message. now rewrite String.eqb_refl. Qed.

Lemma count_message_incoming a prev sender ts :
  sender <> my_username ->
  count_message a prev sender ts =
    (mkAgg (username a) (month a) (incoming a + 1) (outgoing a)
       (replies a) (sum_gap a) (sum_gap_capped a)
       (active_days a) (time_bucket_mask a),
     Some ts).
Proof.
  intros H. unfold count_message. apply String.eqb_neq in H. now rewrite H.
Qed.

Lemma row_valid_intro u s t :
  0 < t -> Py.strip u <> "" -> row_valid (mkRow (Some u) s (Some t)) = true.
Proof.
  intros Ht Hu. unfold row_valid, row_id. cbn [row_ts row_username
    Py.int_or_zero Py.str_or_empty].
  apply String.eqb_neq in Hu. rewrite Hu.
  replace (t <=? 0) with false by (symmetry; apply Z.leb_gt; lia).
  reflexivity.
Qed.

Lemma init_pool_get m : pool_get (per_month_aggs init_state) m = [].
Proof.
  unfold pool_get.
  destruct (Py.dict_get Z.eqb (per_month_aggs init_state) m) as [l|] eqn:E;
    [|reflexivity].
  apply (dict_get_in Z.eqb Z.eqb_spec) in E.
  unfold init_state in E. cbn [per_month_aggs] in E.
  apply in_map_iff in E. destruct E as [k [E _]]. congruence.
Qed.

(** C3.  In one conversation and one month, an incoming message at [t0]
    followed by two messages of the owner at [t0 + 60] and [t0 + 120]
    gives an aggregate with one reply and a summed gap of 60 seconds.
    The rule behind it: a message of the owner earns a reply credit of
    [ts - prev_other_ts] only when a pending timestamp is set and
    [ts] is not before it; the gap is added to [sum_gap], its minimum
    with 21600 to [sum_gap_capped], and the pending timestamp is cleared;
    a message of the other side overwrites the pending timestamp. *)
Theorem reply_gap_single_credit (conv other me : string) (t0 m : Z) :
  0 < t0 ->
  Py.strip conv <> "" ->
  _should_keep_session (Py.strip conv) = true ->
  Py.strip me = my_username ->
  Py.strip other <> my_username ->
  1 <= m <= 12 ->
  dt_month (fromtimestamp t0) = m ->
  dt_month (fromtimestamp (t0 + 60)) = m ->
  dt_month (fromtimestamp (t0 + 120)) = m ->
  (exists a,
     pool_get
       (per_month_aggs
          (run_pass
             [mkRow (Some conv) (Some other) (Some t0);
              mkRow (Some conv) (Some me) (Some (t0 + 60));
              mkRow (Some conv) (Some me) (Some (t0 + 120))])) m = [a]
     /\ incoming a = 1 /\ outgoing a = 2 /\ replies a = 1
     /\ sum_gap a = 60 /\ sum_gap_capped a = 60)
  /\ (forall a p ts,
        p <= ts ->
        count_message a (Some p) my_username ts =
          (mkAgg (username a) (month a) (incoming a) (outgoing a + 1)
             (replies a + 1) (sum_gap a + (ts - p))
             (sum_gap_capped a + Z.min (ts - p) 21600)
             (active_days a) (time_bucket_mask a),
           None))
  /\ (forall a p ts,
        ts < p ->
        count_message a (Some p) my_username ts =
          (mkAgg (username a) (month a) (incoming a) (outgoing a + 1)
             (replies a) (sum_gap a) (sum_gap_capped a)
             (active_days a) (time_bucket_mask a),
           Some p))
  /\ (forall a ts,
        count_message a None my_username ts =
          (mkAgg (username a) (month a) (incoming a) (outgoing a + 1)
             (replies a) (sum_gap a) (sum_gap_capped a)
             (active_days a) (time_bucket_mask a),
           None))
  /\ (forall a prev sender ts,
        sender <> my_username ->
        count_message a prev sender ts =
          (mkAgg (username a) (month a) (incoming a + 1) (outgoing a)
             (replies a) (sum_gap a) (sum_gap_capped a)
             (active_days a) (time_bucket_mask a),
           Some ts)).
Proof.
  intros Ht Hc Hk Hme Ho Hm M0 M1 M2.
  split; [|split; [|split; [|split]]];
    [ | intros; now apply count_message_reply
      | intros; now apply count_message_early
      | intros; apply count_message_no_pending
      | intros; now apply count_message_incoming ].
  set (r0 := mkRow (Some conv) (Some other) (Some t0)).
  set (r1 := mkRow (Some conv) (Some me) (Some (t0 + 60))).
  set (r2 := mkRow (Some conv) (Some me) (Some (t0 + 120))).
  assert (V0 : row_valid r0 = true) by (apply row_valid_intro; [lia|assumption]).
  assert (V1 : row_valid r1 = true) by (apply row_valid_intro; [lia|assumption]).
  assert (V2 : row_valid r2 = true) by (apply row_valid_intro; [lia|assumption]).
  unfold run_pass, run_rows. cbn [fold_left].
  rewrite (process_row_change init_state r0 V0) by exact Hc.
  change (flush_conv init_state) with init_state.
  rewrite (process_row_same _ r0);
    [ | exact V0 | reflexivity | exact Hk
      | cbn [r0 row_ts Py.int_or_zero]; lia ].
  cbn [r0 row_ts row_sender Py.int_or_zero Py.str_or_empty init_state
       conv_month_aggs prev_other_ts cur_username per_month_aggs Py.dict_get].
  rewrite count_message_incoming by exact Ho.
  cbn [fst snd Py.dict_set]. rewrite M0.
  rewrite (process_row_same _ r1);
    [ | exact V1 | reflexivity | exact Hk
      | cbn [r1 row_ts Py.int_or_zero]; lia ].
  cbn [r1 row_ts row_sender Py.int_or_zero Py.str_or_empty
       conv_month_aggs prev_other_ts cur_username per_month_aggs].
  rewrite M1. cbn [Py.dict_get]. rewrite Z.eqb_refl, Hme.
  rewrite count_message_reply by lia.
  cbn [fst snd Py.dict_set]. rewrite Z.eqb_refl.
  rewrite (process_row_same _ r2);
    [ | exact V2 | reflexivity | exact Hk
      | cbn [r2 row_ts Py.int_or_zero]; lia ].
  cbn [r2 row_ts row_sender Py.int_or_zero Py.str_or_empty
       conv_month_aggs prev_other_ts cur_username per_month_aggs].
  rewrite M2. cbn [Py.dict_get]. rewrite Z.eqb_refl, Hme.
  rewrite count_message_no_pending.
  cbn [fst snd Py.dict_set]. rewrite Z.eqb_refl.
  match goal with
  | |- context [flush_conv ?s] =>
      destruct (flush_conv_named s) as (_ & Hget & _);
        [exact Hc | reflexivity | rewrite Hget]
  end.
  cbn [per_month_aggs conv_month_aggs].
  change (map (fun m0 : Z => (m0, [])) (range 1 13))
    with (per_month_aggs init_state).
  rewrite init_pool_get. unfold flushed. cbn [filter fst snd app].
  rewrite Z.eqb_refl.
  replace (1 <=? m) with true by (symmetry; apply Z.leb_le; lia).
  replace (m <=? 12) with true by (symmetry; apply Z.leb_le; lia).
  cbn [andb]. unfold total at 1.
  cbn [incoming outgoing observe new_agg].
  cbn [Z.ltb Z.add Z.compare Pos.add Pos.succ map snd].
  eexists. split; [reflexivity|].
  cbn [incoming outgoing replies sum_gap sum_gap_capped observe new_agg].
  repeat split; lia.
Qed.

Lemma flush_conv_named_reset st :
  cur_username st <> "" ->
  conv_month_aggs (flush_conv st) = [] /\ prev_other_ts (flush_conv st) = None.
Proof.
  intros Hc. unfold flush_conv. apply String.eqb_neq in Hc. now rewrite Hc.
Qed.

(** Within a conversation a pending timestamp disappears only when a
    reply of the owner consumes it. *)
Lemma pending_kept_in_conversation st row p :
  prev_other_ts st = Some p ->
  row_id row = cur_username st ->
  prev_other_ts (process_row st row) = None ->
  Py.strip (Py.str_or_empty (row_sender row)) = my_username
  /\ p <= Py.int_or_zero (row_ts row).
Proof.
  intros Hp Hid. unfold process_row. fold (row_id row).
  destruct ((Py.int_or_zero (row_ts row) <=? 0) || (row_id row =? "")%string);
    [congruence|].
  rewrite Hid, String.eqb_refl. cbn [negb].
  destruct (negb (_should_keep_session (cur_username st))); [congruence|].
  destruct ((dt_month (fromtimestamp (Py.int_or_zero (row_ts row))) <? 1)
            || (dt_month (fromtimestamp (Py.int_or_zero (row_ts row))) >? 12));
    [congruence|].
  rewrite Hp. unfold count_message.
  destruct (String.eqb_spec (Py.strip (Py.str_or_empty (row_sender row)))
              my_username) as [E|E].
  - destruct (Py.int_or_zero (row_ts row) >=? p) eqn:G;
      cbn [prev_other_ts]; [|congruence].
    intros _. split; [exact E|]. rewrite Z.geb_leb in G. now apply Z.leb_le.
  - cbn [prev_other_ts]. congruence.
Qed.

(** C10.  The pending timestamp belongs to the conversation, not to a
    month: when the pending incoming message is dated in month [m] and the
    next message of the owner in the same conversation is dated in another
    month [m'], not before it, the reply and the whole gap go to the
    aggregate of [m'] and the reply count of [m] stays as it was.  Inside
    a conversation the pending timestamp only disappears by being consumed;
    a change of conversation starts the next one with none. *)
Theorem reply_credit_crosses_month (st : PassState)
    (conv other me : string) (t1 t2 : Z) :
  let r1 := mkRow (Some conv) (Some other) (Some t1) in
  let r2 := mkRow (Some conv) (Some me) (Some t2) in
  let m := dt_month (fromtimestamp t1) in
  let m' := dt_month (fromtimestamp t2) in
  let old k :=
    match Py.dict_get Z.eqb (conv_month_aggs st) k with
    | Some a => a
    | None => new_agg (Py.strip conv) k
    end in
  let st2 := process_row (process_row st r1) r2 in
  0 < t1 -> t1 <= t2 ->
  Py.strip conv <> "" ->
  Py.strip conv = cur_username st ->
  _should_keep_session (Py.strip conv) = true ->
  Py.strip me = my_username ->
  Py.strip other <> my_username ->
  1 <= m <= 12 -> 1 <= m' <= 12 -> m <> m' ->
  (exists a a',
     Py.dict_get Z.eqb (conv_month_aggs st2) m = Some a
     /\ Py.dict_get Z.eqb (conv_month_aggs st2) m' = Some a'
     /\ incoming a = incoming (old m) + 1
     /\ replies a = replies (old m)
     /\ sum_gap a = sum_gap (old m)
     /\ sum_gap_capped a = sum_gap_capped (old m)
     /\ outgoing a' = outgoing (old m') + 1
     /\ replies a' = replies (old m') + 1
     /\ sum_gap a' = sum_gap (old m') + (t2 - t1)
     /\ sum_gap_capped a' =
          sum_gap_capped (old m') + Z.min (t2 - t1) 21600)
  /\ prev_other_ts (process_row st r1) = Some t1
  /\ prev_other_ts st2 = None
  /\ (forall s row p,
        prev_other_ts s = Some p ->
        row_id row = cur_username s ->
        prev_other_ts (process_row s row) = None ->
        Py.strip (Py.str_or_empty (row_sender row)) = my_username
        /\ p <= Py.int_or_zero (row_ts row))
  /\ (forall s row,
        row_valid row = true ->
        row_id row <> cur_username s ->
        cur_username s <> "" ->
        process_row s row =
          process_row
            (mkState (per_month_aggs (flush_conv s)) (row_id row) [] None)
            row).
Proof.
  intros r1 r2 m m' old st2 Ht1 Ht2 Hc Hcur Hk Hme Ho Hm Hm' Hne.
  assert (V1 : row_valid r1 = true) by (apply row_valid_intro; [lia|assumption]).
  assert (V2 : row_valid r2 = true) by (apply row_valid_intro; [lia|assumption]).
  set (o1 := observe (old m) (dt_day (fromtimestamp t1))
               (dt_hour (fromtimestamp t1))).
  set (o2 := observe (old m') (dt_day (fromtimestamp t2))
               (dt_hour (fromtimestamp t2))).
  set (a1 := mkAgg (username o1) (month o1) (incoming o1 + 1) (outgoing o1)
               (replies o1) (sum_gap o1) (sum_gap_capped o1)
               (active_days o1) (time_bucket_mask o1)).
  set (a2 := mkAgg (username o2) (month o2) (incoming o2) (outgoing o2 + 1)
               (replies o2 + 1) (sum_gap o2 + (t2 - t1))
               (sum_gap_capped o2 + Z.min (t2 - t1) 21600)
               (active_days o2) (time_bucket_mask o2)).
  assert (E1 : process_row st r1 =
               mkState (per_month_aggs st) (cur_username st)
                 (Py.dict_set Z.eqb (conv_month_aggs st) m a1) (Some t1)).
  { rewrite (process_row_same st r1 V1 Hcur Hk) by exact Hm.
    cbn [r1 row_ts row_sender Py.int_or_zero Py.str_or_empty].
    rewrite count_message_incoming by exact Ho. reflexivity. }
  assert (E2 : st2 =
               mkState (per_month_aggs st) (cur_username st)
                 (Py.dict_set Z.eqb
                    (Py.dict_set Z.eqb (conv_month_aggs st) m a1) m' a2)
                 None).
  { unfold st2. rewrite E1.
    rewrite (process_row_same _ r2 V2); [ | exact Hcur | exact Hk | exact Hm' ].
    cbn [r2 row_ts row_sender Py.int_or_zero Py.str_or_empty
         conv_month_aggs prev_other_ts cur_username per_month_aggs].
    fold m'. rewrite (dict_get_set_other Z.eqb Z.eqb_spec) by exact Hne.
    rewrite Hme.
    rewrite count_message_reply by exact Ht2. reflexivity. }
  split; [|split; [|split; [|split]]].
  - rewrite E2. cbn [conv_month_aggs].
    eexists. eexists.
    rewrite (dict_get_set_other Z.eqb Z.eqb_spec) by congruence.
    rewrite !(dict_get_set_same Z.eqb Z.eqb_spec).
    split; [reflexivity|]. split; [reflexivity|].
    repeat split; reflexivity.
  - now rewrite E1.
  - now rewrite E2.
  - exact pending_kept_in_conversation.
  - intros s row Hv Hid Hs.
    rewrite (process_row_change s row Hv Hid).
    destruct (flush_conv_named_reset s Hs) as [-> ->]. reflexivity.
Qed.

(** ** [str.strip] *)

Lemma rstrip_cons c s :
  Py.rstrip (String c s) =
    match Py.rstrip s with
    | EmptyString => if Py.is_space c then EmptyString else String c EmptyString
    | String c' r => String c (String c' r)
    end.
Proof. cbn [Py.rstrip]. now destruct (Py.rstrip s). Qed.

Lemma rstrip_idem s : Py.rstrip (Py.rstrip s) = Py.rstrip s.
Proof.
  induction s as [|c s IH]; [reflexivity|].
  rewrite rstrip_cons. destruct (Py.rstrip s) as [|c' r] eqn:E.
  - destruct (Py.is_space c) eqn:Sp; [reflexivity|].
    rewrite rstrip_cons. cbn [Py.rstrip]. now rewrite Sp.
  - rewrite rstrip_cons, IH. reflexivity.
Qed.

Lemma rstrip_head c s :
  Py.is_space c = false ->
  exists r, Py.rstrip (String c s) = String c r.
Proof.
  intros Sp. rewrite rstrip_cons. destruct (Py.rstrip s) as [|c' r].
  - rewrite Sp. now exists EmptyString.
  - now exists (String c' r).
Qed.

Lemma lstrip_head s :
  Py.lstrip s = EmptyString
  \/ exists c r, Py.lstrip s = String c r /\ Py.is_space c = false.
Proof.
  induction s as [|c s IH]; [now left|].
  cbn [Py.lstrip]. destruct (Py.is_space c) eqn:Sp; [exact IH|].
  right. now exists c, s.
Qed.

Lemma strip_idem s : Py.strip (Py.strip s) = Py.strip s.
Proof.
  unfold Py.strip.
  destruct (lstrip_head s) as [E|[c [r [E Sp]]]]; rewrite E; [reflexivity|].
  destruct (rstrip_head c r Sp) as [r' E']. rewrite E'.
  cbn [Py.lstrip]. rewrite Sp. rewrite <- E'. apply rstrip_idem.
Qed.

(** ** The invariant of the pass *)

Lemma process_row_valid st row :
  row_valid row = true ->
  process_row st row = process_row (entered st (row_id row)) row
  /\ cur_username (entered st (row_id row)) = row_id row.
Proof.
  intros Hv. unfold entered.
  destruct (String.eqb_spec (row_id row) (cur_username st)) as [E|E].
  - split; [reflexivity|now symmetry].
  - split; [now apply process_row_change|reflexivity].
Qed.

Lemma process_row_idle st row :
  row_valid row = true ->
  row_id row = cur_username st ->
  _should_keep_session (row_id row) = false
  \/ ~ 1 <= dt_month (fromtimestamp (Py.int_or_zero (row_ts row))) <= 12 ->
  process_row st row = st.
Proof.
  unfold row_valid, row_id, process_row. intros Hv Hid Hc.
  apply negb_true_iff in Hv. rewrite Hv, Hid, String.eqb_refl.
  cbn [negb]. rewrite <- Hid.
  destruct (_should_keep_session _) eqn:K; cbn [negb]; [|reflexivity].
  destruct Hc as [Hc|Hc]; [discriminate|].
  destruct (Z.ltb_spec (dt_month (fromtimestamp (Py.int_or_zero (row_ts row)))) 1);
    [reflexivity|].
  rewrite Z.gtb_ltb.
  destruct (Z.ltb_spec 12 (dt_month (fromtimestamp (Py.int_or_zero (row_ts row)))));
    [reflexivity|].
  exfalso. apply Hc. lia.
Qed.

Lemma init_state_ok : state_ok init_state.
Proof.
  constructor; cbn [init_state per_month_aggs cur_username conv_month_aggs
    prev_other_ts].
  - reflexivity.
  - auto.
  - congruence.
  - constructor.
  - intros k a [].
  - intros m a H.
    change (map (fun m0 : Z => (m0, [])) (range 1 13))
      with (per_month_aggs init_state) in H.
    rewrite init_pool_get in H. destruct H.
Qed.

Lemma flushed_in conv m a :
  In a (flushed conv m) -> In (m, a) conv.
Proof.
  unfold flushed. rewrite in_map_iff. intros [[k b] [E H]].
  apply filter_In in H. destruct H as [H G]. cbn [fst snd] in *. subst b.
  apply andb_prop in G. destruct G as [G _].
  apply andb_prop in G. destruct G as [G _].
  apply andb_prop in G. destruct G as [G _].
  apply Z.eqb_eq in G. now subst k.
Qed.

Lemma flush_conv_ok st : state_ok st -> state_ok (flush_conv st).
Proof.
  intros Hok. destruct (String.eqb_spec (cur_username st) "") as [E|E].
  - unfold flush_conv. apply String.eqb_eq in E. now rewrite E.
  - destruct (flush_conv_named st E (ok_keys st Hok))
      as (Hk & Hget & Hcur & Hconv & Hprev).
    constructor.
    + exact Hk.
    + now rewrite Hconv, Hprev.
    + rewrite Hcur. apply (ok_cur st Hok).
    + rewrite Hconv. constructor.
    + rewrite Hconv. intros k a [].
    + intros m a. rewrite Hget, in_app_iff. intros [H|H].
      * now apply (ok_pool st Hok).
      * apply flushed_in in H. now apply (ok_conv st Hok) in H.
Qed.

Lemma row_id_name_ok row : row_valid row = true -> name_ok (row_id row).
Proof.
  unfold row_valid. intros Hv. apply negb_true_iff in Hv.
  apply orb_false_elim in Hv. destruct Hv as [_ Hv].
  apply String.eqb_neq in Hv. split; [|exact Hv].
  unfold row_id. apply strip_idem.
Qed.

Lemma entered_ok st row :
  state_ok st -> row_valid row = true -> state_ok (entered st (row_id row)).
Proof.
  intros Hok Hv. unfold entered.
  destruct (String.eqb_spec (row_id row) (cur_username st)) as [E|E];
    [exact Hok|].
  pose proof (flush_conv_ok st Hok) as Hf.
  assert (Hreset : conv_month_aggs (flush_conv st) = []
                   /\ prev_other_ts (flush_conv st) = None).
  { destruct (String.eqb_spec (cur_username st) "") as [E0|E0].
    - unfold flush_conv. rewrite (proj2 (String.eqb_eq _ _) E0).
      now apply (ok_idle st Hok).
    - now apply flush_conv_named_reset. }
  destruct Hreset as [Hc Hp]. rewrite Hc, Hp.
  constructor; cbn [per_month_aggs cur_username conv_month_aggs
    prev_other_ts].
  - apply (ok_keys _ Hf).
  - auto.
  - intros _. now apply row_id_name_ok.
  - constructor.
  - intros k a [].
  - apply (ok_pool _ Hf).
Qed.

Lemma count_message_wf a prev sender ts :
  agg_wf a -> agg_wf (fst (count_message a prev sender ts)).
Proof.
  unfold agg_wf, count_message. intros (H1 & H2 & H3 & H4 & H5).
  destruct (sender =? my_username)%string.
  - destruct prev as [p|]; [|cbn; repeat split; lia].
    destruct (ts >=? p) eqn:G; [|cbn; repeat split; lia].
    rewrite Z.geb_leb in G. apply Z.leb_le in G.
    cbn. unfold gap_cap_seconds. repeat split; lia.
  - cbn. repeat split; lia.
Qed.

Lemma count_message_total a prev sender ts :
  total (fst (count_message a prev sender ts)) = total a + 1.
Proof.
  unfold count_message, total.
  destruct (sender =? my_username)%string.
  - destruct prev as [p|]; [|cbn; lia].
    destruct (ts >=? p); cbn; lia.
  - cbn. lia.
Qed.

Lemma count_message_id a prev sender ts :
  username (fst (count_message a prev sender ts)) = username a
  /\ month (fst (count_message a prev sender ts)) = month a.
Proof.
  unfold count_message.
  destruct (sender =? my_username)%string.
  - destruct prev as [p|]; [|now cbn].
    destruct (ts >=? p); now cbn.
  - now cbn.
Qed.

Lemma process_row_ok st row : state_ok st -> state_ok (process_row st row).
Proof.
  intros Hok. destruct (row_valid row) eqn:Hv;
    [|now rewrite process_row_skip].
  destruct (process_row_valid st row Hv) as [-> Hcur].
  pose proof (entered_ok st row Hok Hv) as Hok1.
  set (st1 := entered st (row_id row)) in *.
  pose proof (row_id_name_ok row Hv) as Hname.
  destruct (_should_keep_session (row_id row)) eqn:K;
    [|rewrite process_row_idle; auto].
  set (mo := dt_month (fromtimestamp (Py.int_or_zero (row_ts row)))).
  assert (Hdec : 1 <= mo <= 12 \/ ~ 1 <= mo <= 12) by lia.
  destruct Hdec as [Hm|Hm]; [|rewrite process_row_idle; auto].
  rewrite process_row_same by auto. cbv zeta. fold mo.
  set (agg0 := match Py.dict_get Z.eqb (conv_month_aggs st1) mo with
               | Some a => a
               | None => new_agg (row_id row) mo
               end).
  assert (H0 : username agg0 = row_id row /\ month agg0 = mo
               /\ 0 <= total agg0 /\ agg_wf agg0).
  { unfold agg0.
    destruct (Py.dict_get Z.eqb (conv_month_aggs st1) mo) as [a|] eqn:G.
    - apply (dict_get_in Z.eqb Z.eqb_spec) in G.
      apply (ok_conv _ Hok1) in G.
      destruct G as (G1 & G2 & _ & _ & G3 & G4).
      repeat split; try apply G4; try lia; congruence.
    - unfold agg_wf. cbn. repeat split; lia. }
  destruct H0 as (U0 & M0 & T0 & W0).
  set (r := count_message _ _ _ _).
  assert (Hr : username (fst r) = row_id row /\ month (fst r) = mo
               /\ 0 < total (fst r) /\ agg_wf (fst r)).
  { unfold r.
    destruct (count_message_id
                (observe agg0 (dt_day (fromtimestamp (Py.int_or_zero (row_ts row))))
                   (dt_hour (fromtimestamp (Py.int_or_zero (row_ts row)))))
                (prev_other_ts st1)
                (Py.strip (Py.str_or_empty (row_sender row)))
                (Py.int_or_zero (row_ts row))) as [-> ->].
    rewrite count_message_total.
    split; [exact U0|]. split; [exact M0|].
    split; [unfold total in *; cbn [incoming outgoing observe]; lia|].
    apply count_message_wf. exact W0. }
  destruct Hr as (U1 & M1 & T1 & W1).
  constructor; cbn [per_month_aggs cur_username conv_month_aggs
    prev_other_ts].
  - apply (ok_keys _ Hok1).
  - intros E. rewrite Hcur in E. now destruct Hname.
  - apply (ok_cur _ Hok1).
  - destruct (Py.dict_get Z.eqb (conv_month_aggs st1) mo) as [a|] eqn:G.
    + rewrite (dict_set_keys_present Z.eqb Z.eqb_spec) with (v0 := a);
        [apply (ok_conv_keys _ Hok1)|exact G].
    + rewrite (dict_set_keys_absent Z.eqb Z.eqb_spec) by exact G.
      apply NoDup_app; [apply (ok_conv_keys _ Hok1)|repeat constructor; auto| ].
      intros x Hx [<-|[]].
      now apply (dict_get_none Z.eqb Z.eqb_spec) in G.
  - intros k a Hin. apply (dict_set_in Z.eqb Z.eqb_spec) in Hin.
    destruct Hin as [E|Hin]; [|now apply (ok_conv _ Hok1)].
    inversion E; subst k a. rewrite Hcur.
    split; [exact U1|].
    unfold pooled_ok. rewrite U1. auto.
  - apply (ok_pool _ Hok1).
Qed.

Lemma run_rows_ok rows : forall st, state_ok st -> state_ok (run_rows st rows).
Proof.
  induction rows as [|r rows IH]; intros st Hok; [exact Hok|].
  cbn [run_rows fold_left]. apply IH. now apply process_row_ok.
Qed.

Lemma run_pass_ok rows : state_ok (run_pass rows).
Proof. apply flush_conv_ok, run_rows_ok, init_state_ok. Qed.

(** ** The order of strings *)

Lemma ascii_compare_refl c : Ascii.compare c c = Eq.
Proof. unfold Ascii.compare. apply N.compare_refl. Qed.

Lemma str_compare_refl s : String.compare s s = Eq.
Proof.
  induction s as [|c s IH]; [reflexivity|].
  cbn [String.compare]. now rewrite ascii_compare_refl.
Qed.

Lemma str_compare_lt_trans a : forall b c,
  String.compare a b = Lt -> String.compare b c = Lt ->
  String.compare a c = Lt.
Proof.
  induction a as [|x a IH]; intros [|y b] [|z c]; cbn [String.compare];
    try discriminate; auto.
  unfold Ascii.compare.
  destruct (N.compare_spec (N_of_ascii x) (N_of_ascii y)) as [E|E|E];
    try discriminate;
    destruct (N.compare_spec (N_of_ascii y) (N_of_ascii z)) as [F|F|F];
    try discriminate; intros H1 H2.
  - rewrite E, F, N.compare_refl. eauto.
  - rewrite E. now rewrite (proj2 (N.compare_lt_iff _ _) F).
  - rewrite <- F. now rewrite (proj2 (N.compare_lt_iff _ _) E).
  - assert (G : (N_of_ascii x < N_of_ascii z)%N) by lia.
    now rewrite (proj2 (N.compare_lt_iff _ _) G).
Qed.

Lemma str_lt_irrefl a : ~ str_lt a a.
Proof. unfold str_lt, String.ltb. now rewrite str_compare_refl. Qed.

Lemma str_lt_trans a b c : str_lt a b -> str_lt b c -> str_lt a c.
Proof.
  unfold str_lt, String.ltb. intros H1 H2.
  destruct (String.compare a b) eqn:E1; try discriminate.
  destruct (String.compare b c) eqn:E2; try discriminate.
  now rewrite (str_compare_lt_trans a b c E1 E2).
Qed.

Lemma str_le_cases a b : str_le a b <-> a = b \/ str_lt a b.
Proof.
  unfold str_le, str_lt, String.leb, String.ltb. split.
  - destruct (String.compare a b) eqn:E; try discriminate; intros _.
    + left. now apply String.compare_eq_iff.
    + now right.
  - intros [->|H].
    + now rewrite str_compare_refl.
    + now destruct (String.compare a b).
Qed.

Lemma str_le_trans a b c : str_le a b -> str_le b c -> str_le a c.
Proof.
  rewrite !str_le_cases. intros [->|H1] [->|H2]; auto.
  right. eapply str_lt_trans; eauto.
Qed.

Lemma str_lt_le_trans a b c : str_lt a b -> str_le b c -> str_lt a c.
Proof.
  rewrite str_le_cases. intros H1 [<-|H2]; [assumption|].
  eapply str_lt_trans; eauto.
Qed.

Lemma str_lt_neq a b : str_lt a b -> a <> b.
Proof. intros H ->. now apply str_lt_irrefl in H. Qed.

Lemma str_lt_total a b : a <> b -> str_lt a b \/ str_lt b a.
Proof.
  intros Hne. unfold str_lt, String.ltb.
  rewrite (String.compare_antisym b a).
  destruct (String.compare a b) eqn:E; cbn; auto.
  apply String.compare_eq_iff in E. contradiction.
Qed.

Lemma str_ltb_asym a b : String.ltb a b = true -> String.ltb b a = false.
Proof.
  unfold String.ltb. rewrite (String.compare_antisym b a).
  now destruct (String.compare a b).
Qed.

Lemma str_not_lt_empty a : ~ str_lt a "".
Proof. unfold str_lt, String.ltb. now destruct a. Qed.

(** ** Rows in ascending order of conversation *)

Lemma process_row_cur st row :
  row_valid row = true -> cur_username (process_row st row) = row_id row.
Proof.
  intros Hv. unfold row_valid in Hv. apply negb_true_iff in Hv.
  unfold process_row. fold (row_id row). rewrite Hv.
  destruct (String.eqb_spec (row_id row) (cur_username st)) as [E|E];
    cbn [negb];
    repeat match goal with
           | |- context [if ?c then _ else _] => destruct c
           | |- context [let '(_, _) := ?p in _] => destruct p
           end; cbn [cur_username]; auto.
Qed.

Lemma process_row_pool st row :
  per_month_aggs (process_row st row) =
    if row_valid row && negb (row_id row =? cur_username st)%string
    then per_month_aggs (flush_conv st)
    else per_month_aggs st.
Proof.
  unfold row_valid, process_row. fold (row_id row).
  destruct ((Py.int_or_zero (row_ts row) <=? 0) || (row_id row =? "")%string);
    cbn [negb andb]; [reflexivity|].
  destruct (String.eqb_spec (row_id row) (cur_username st)) as [E|E];
    cbn [negb];
    repeat match goal with
           | |- context [if ?c then _ else _] => destruct c
           | |- context [let '(_, _) := ?p in _] => destruct p
           end; cbn [per_month_aggs]; auto.
Qed.

Lemma process_row_same_conv s s' row :
  same_conv s s' -> same_conv (process_row s row) (process_row s' row).
Proof.
  destruct s as [p c cv pv], s' as [p' c' cv' pv'].
  unfold same_conv. cbn [cur_username conv_month_aggs prev_other_ts].
  intros (-> & -> & ->).
  unfold process_row, flush_conv.
  repeat (cbn [cur_username conv_month_aggs prev_other_ts per_month_aggs];
          match goal with
          | |- context [if ?c then _ else _] => destruct c
          | |- context [let '(_, _) := ?p in _] => destruct p eqn:?
          end);
    cbn [cur_username conv_month_aggs prev_other_ts per_month_aggs]; auto.
Qed.

Lemma conv_ids_app l l' : conv_ids (l ++ l') = conv_ids l ++ conv_ids l'.
Proof. unfold conv_ids. now rewrite filter_app, map_app. Qed.

Lemma rows_of_conv_app u l l' :
  rows_of_conv u (l ++ l') = rows_of_conv u l ++ rows_of_conv u l'.
Proof. unfold rows_of_conv. now rewrite filter_app. Qed.

Lemma rows_of_conv_absent u l :
  ~ In u (conv_ids l) -> rows_of_conv u l = [].
Proof.
  unfold rows_of_conv, conv_ids. induction l as [|r l IH]; [reflexivity|].
  cbn [filter]. destruct (row_valid r) eqn:Hv; cbn [andb map].
  - intros H. destruct (String.eqb_spec (row_id r) u) as [E|E].
    + exfalso. apply H. now left.
    + apply IH. intros G. apply H. now right.
  - exact IH.
Qed.

Lemma run_rows_app st l l' :
  run_rows st (l ++ l') = run_rows (run_rows st l) l'.
Proof. unfold run_rows. apply fold_left_app. Qed.

Lemma sorted_snoc (l : list string) x :
  StronglySorted str_le (l ++ [x]) ->
  StronglySorted str_le l /\ Forall (fun y => str_le y x) l.
Proof.
  induction l as [|y l IH]; cbn [app]; intros H.
  - split; constructor.
  - inversion H as [|? ? Hs Hf]; subst.
    destruct (IH Hs) as [IH1 IH2].
    split.
    + constructor; [exact IH1|].
      rewrite Forall_forall in *. intros z Hz. apply Hf.
      apply in_or_app. now left.
    + constructor; [|exact IH2].
      rewrite Forall_forall in Hf. apply Hf. apply in_or_app. right. now left.
Qed.

Lemma last_in (l : list string) d : l <> [] -> In (last l d) l.
Proof.
  induction l as [|y l IH]; [congruence|]. intros _.
  destruct l as [|z l]; [now left|].
  right. apply IH. discriminate.
Qed.

Lemma sorted_le_last (l : list string) d x :
  StronglySorted str_le l -> In x l -> str_le x (last l d).
Proof.
  induction l as [|y l IH]; [intros _ []|].
  intros H Hin. inversion H as [|? ? Hs Hf]; subst.
  destruct l as [|z l].
  - destruct Hin as [<-|[]]. cbn. apply str_le_cases. now left.
  - change (last (y :: z :: l) d) with (last (z :: l) d).
    destruct Hin as [<-|Hin]; [|now apply IH].
    rewrite Forall_forall in Hf. apply Hf. apply last_in. discriminate.
Qed.

(** A flush moves at most one aggregate per month. *)
Lemma flushed_single conv m a :
  NoDup (map fst conv) -> In a (flushed conv m) -> flushed conv m = [a].
Proof.
  unfold flushed. induction conv as [|[k b] conv IH]; [intros _ []|].
  cbn [map fst filter snd]. intros Hnd. inversion Hnd as [|? ? Hk Hnd']; subst.
  destruct ((k =? m) && (1 <=? k) && (k <=? 12) && (0 <? total b)) eqn:G.
  - assert (k = m).
    { apply andb_prop in G. destruct G as [G _].
      apply andb_prop in G. destruct G as [G _].
      apply andb_prop in G. destruct G as [G _]. now apply Z.eqb_eq. }
    subst k.
    assert (Hnone : filter
              (fun kv => (fst kv =? m) && (1 <=? fst kv) && (fst kv <=? 12)
                         && (0 <? total (snd kv))) conv = []).
    { destruct (filter _ conv) as [|[k' c] t] eqn:F; [reflexivity|].
      exfalso. apply Hk.
      assert (Hin : In (k', c) (filter
              (fun kv => (fst kv =? m) && (1 <=? fst kv) && (fst kv <=? 12)
                         && (0 <? total (snd kv))) conv))
        by (rewrite F; now left).
      apply filter_In in Hin. destruct Hin as [Hin G'].
      cbn [fst snd] in G'.
      apply andb_prop in G'. destruct G' as [G' _].
      apply andb_prop in G'. destruct G' as [G' _].
      apply andb_prop in G'. destruct G' as [G' _].
      apply Z.eqb_eq in G'. subst k'.
      apply in_map_iff. now exists (m, c). }
    rewrite Hnone. cbn [map snd]. intros [<-|[]]. reflexivity.
  - intros Hin. now apply IH.
Qed.

(** Every entry of a conversation in progress is one that a flush moves. *)
Lemma flushed_all st k a :
  state_ok st -> In (k, a) (conv_month_aggs st) ->
  In a (flushed (conv_month_aggs st) k).
Proof.
  intros Hok Hin. destruct (ok_conv st Hok k a Hin) as (_ & _ & Hk & _ & Ht & _).
  unfold flushed. apply in_map_iff. exists (k, a). split; [reflexivity|].
  apply filter_In. split; [exact Hin|]. cbn [fst snd].
  rewrite Z.eqb_refl.
  replace (1 <=? k) with true by (symmetry; apply Z.leb_le; lia).
  replace (k <=? 12) with true by (symmetry; apply Z.leb_le; lia).
  cbn [andb]. apply Z.ltb_lt. exact Ht.
Qed.

(** Rows of one conversation never reach the pool before the last
    flush. *)
Lemma run_rows_alone_pool u l : forall st,
  (forall r, In r l -> row_valid r = true -> row_id r = u) ->
  cur_username st = "" \/ cur_username st = u ->
  conv_month_aggs st = [] \/ cur_username st = u ->
  per_month_aggs (run_rows st l) = per_month_aggs st.
Proof.
  induction l as [|r l IH]; intros st Hl Hc Hi; [reflexivity|].
  cbn [run_rows fold_left]. fold (run_rows (process_row st r) l).
  destruct (row_valid r) eqn:Hv.
  - assert (Hid : row_id r = u) by (apply Hl; [now left|exact Hv]).
    rewrite IH.
    + rewrite process_row_pool, Hv. cbn [andb].
      destruct (String.eqb_spec (row_id r) (cur_username st)) as [E|E];
        cbn [negb]; [reflexivity|].
      destruct Hc as [Hc|Hc]; [|congruence].
      unfold flush_conv. now rewrite Hc.
    + intros r' Hr'. apply Hl. now right.
    + right. rewrite process_row_cur; auto.
    + right. rewrite process_row_cur; auto.
  - rewrite process_row_skip by exact Hv. apply IH; auto.
    intros r' Hr'. apply Hl. now right.
Qed.

Lemma rows_of_conv_spec u l r :
  In r (rows_of_conv u l) -> row_valid r = true /\ row_id r = u.
Proof.
  unfold rows_of_conv. rewrite filter_In. intros [_ H].
  apply andb_prop in H. destruct H as [H1 H2].
  split; [exact H1|]. now apply String.eqb_eq.
Qed.

Lemma flush_conv_idle st : cur_username st = "" -> flush_conv st = st.
Proof. intros E. unfold flush_conv. now rewrite E. Qed.

Lemma flush_reset st :
  state_ok st ->
  conv_month_aggs (flush_conv st) = [] /\ prev_other_ts (flush_conv st) = None.
Proof.
  intros Hok. destruct (String.eqb_spec (cur_username st) "") as [E|E].
  - rewrite flush_conv_idle by exact E. now apply (ok_idle st Hok).
  - now apply flush_conv_named_reset.
Qed.

(** The pool after a flush, for rows in ascending order. *)
Lemma flush_whole rows st m :
  pass_inv rows st -> state_ok st ->
  NoDup (map username (pool_get (per_month_aggs (flush_conv st)) m))
  /\ forall a,
       In a (pool_get (per_month_aggs (flush_conv st)) m) ->
       (username a = cur_username st
        \/ str_lt (username a) (cur_username st))
       /\ pool_get
            (per_month_aggs (run_pass (rows_of_conv (username a) rows))) m
          = [a].
Proof.
  intros Hinv Hok.
  destruct (String.eqb_spec (cur_username st) "") as [E|E].
  - rewrite flush_conv_idle by exact E. split; [apply (inv_nodup _ _ Hinv)|].
    intros a Hin. split; [right; now apply (inv_lt _ _ Hinv) in Hin|].
    now apply (inv_whole _ _ Hinv).
  - destruct (flush_conv_named st E (ok_keys st Hok)) as (_ & Hget & _).
    rewrite Hget.
    assert (Hfl : forall a, In a (flushed (conv_month_aggs st) m) ->
                            username a = cur_username st).
    { intros a Hin. apply flushed_in in Hin.
      now apply (ok_conv st Hok) in Hin. }
    split.
    + rewrite map_app. apply NoDup_app.
      * apply (inv_nodup _ _ Hinv).
      * destruct (flushed (conv_month_aggs st) m) as [|a0 t] eqn:F;
          [constructor|].
        assert (Hs : flushed (conv_month_aggs st) m = [a0]).
        { apply flushed_single; [apply (ok_conv_keys st Hok)|].
          rewrite F. now left. }
        rewrite F in Hs. rewrite Hs. cbn. repeat constructor. auto.
      * intros x Hx Hx'. apply in_map_iff in Hx. destruct Hx as [a [<- Ha]].
        apply in_map_iff in Hx'. destruct Hx' as [b [Eb Hb]].
        apply (inv_lt _ _ Hinv) in Ha. apply Hfl in Hb.
        rewrite <- Eb, Hb in Ha. now apply str_lt_irrefl in Ha.
    + intros a Hin. apply in_app_or in Hin. destruct Hin as [Hin|Hin].
      * split; [right; now apply (inv_lt _ _ Hinv) in Hin|].
        now apply (inv_whole _ _ Hinv).
      * split; [left; now apply Hfl|].
        rewrite (Hfl a Hin). unfold run_pass.
        set (s' := run_rows init_state (rows_of_conv (cur_username st) rows)).
        destruct (inv_alone _ _ Hinv) as (Hc & Hcv & _). fold s' in Hc, Hcv.
        pose proof (inv_alone_pool _ _ Hinv) as Hp. fold s' in Hp.
        destruct (flush_conv_named s') as (_ & Hget' & _).
        { now rewrite Hc. }
        { now rewrite Hp. }
        rewrite Hget', Hp, init_pool_get, Hcv. cbn [app].
        apply flushed_single; [apply (ok_conv_keys st Hok)|exact Hin].
Qed.

Lemma pass_inv_init : pass_inv [] init_state.
Proof.
  constructor; cbn [cur_username init_state conv_ids filter map last
                    rows_of_conv run_rows fold_left].
  - reflexivity.
  - intros m a H. change (mkState _ _ _ _) with init_state in H.
    rewrite init_pool_get in H. destruct H.
  - intros m. change (mkState _ _ _ _) with init_state.
    rewrite init_pool_get. constructor.
  - intros m a H. change (mkState _ _ _ _) with init_state in H.
    rewrite init_pool_get in H. destruct H.
  - repeat split.
  - reflexivity.
Qed.

Lemma pass_inv_step rows st r :
  pass_inv rows st -> state_ok st ->
  StronglySorted str_le (conv_ids (rows ++ [r])) ->
  pass_inv (rows ++ [r]) (process_row st r).
Proof.
  intros Hinv Hok Hs.
  destruct (row_valid r) eqn:Hv.
  2:{ rewrite process_row_skip by exact Hv.
      assert (Hids : conv_ids (rows ++ [r]) = conv_ids rows).
      { rewrite conv_ids_app. unfold conv_ids at 2. cbn [filter].
        rewrite Hv. cbn [map]. apply app_nil_r. }
      assert (Hroc : forall x, rows_of_conv x (rows ++ [r]) = rows_of_conv x rows).
      { intros x. rewrite rows_of_conv_app. unfold rows_of_conv at 2.
        cbn [filter]. rewrite Hv. cbn [andb]. apply app_nil_r. }
      destruct Hinv. constructor; rewrite ?Hids, ?Hroc; auto.
      intros m a Hin. rewrite Hroc. auto. }
  set (u := row_id r).
  assert (Hids : conv_ids (rows ++ [r]) = conv_ids rows ++ [u]).
  { rewrite conv_ids_app. unfold conv_ids at 2. cbn [filter].
    now rewrite Hv. }
  assert (Hroc : forall x,
             rows_of_conv x (rows ++ [r]) =
             rows_of_conv x rows ++ (if (u =? x)%string then [r] else [])).
  { intros x. rewrite rows_of_conv_app. unfold rows_of_conv at 2.
    cbn [filter]. rewrite Hv. cbn [andb]. fold u.
    now destruct (u =? x)%string. }
  rewrite Hids in Hs. destruct (sorted_snoc _ _ Hs) as [Hs' Hall].
  pose proof (row_id_name_ok r Hv) as Hu. fold u in Hu.
  assert (Hval : forall x, In x (conv_ids rows) -> x <> "").
  { intros x Hx. unfold conv_ids in Hx. apply in_map_iff in Hx.
    destruct Hx as [r' [<- Hr']]. apply filter_In in Hr'.
    now apply row_id_name_ok. }
  assert (Hle : cur_username st = "" \/ str_le (cur_username st) u).
  { rewrite (inv_cur _ _ Hinv).
    destruct (conv_ids rows) as [|i ids] eqn:I; [now left|].
    right. rewrite Forall_forall in Hall. apply Hall.
    apply last_in. discriminate. }
  assert (Hcur' : cur_username (process_row st r) = u)
    by now apply process_row_cur.
  destruct (String.eqb_spec u (cur_username st)) as [E|E].
  - assert (Hpool : per_month_aggs (process_row st r) = per_month_aggs st).
    { rewrite process_row_pool, Hv. fold u.
      now rewrite (proj2 (String.eqb_eq _ _) E). }
    constructor; rewrite ?Hcur', ?Hpool.
    + rewrite Hids. now rewrite last_last.
    + intros m a Hin. rewrite E. now apply (inv_lt _ _ Hinv) in Hin.
    + apply (inv_nodup _ _ Hinv).
    + intros m a Hin. rewrite Hroc.
      assert (Hne : u <> username a).
      { apply (inv_lt _ _ Hinv) in Hin. rewrite <- E in Hin.
        intros G. rewrite G in Hin. now apply str_lt_irrefl in Hin. }
      rewrite (proj2 (String.eqb_neq _ _) Hne), app_nil_r.
      now apply (inv_whole _ _ Hinv).
    + rewrite Hroc, String.eqb_refl, run_rows_app.
      cbn [run_rows fold_left]. apply process_row_same_conv.
      rewrite E. apply (inv_alone _ _ Hinv).
    + rewrite Hroc, String.eqb_refl, run_rows_app.
      cbn [run_rows fold_left].
      fold (run_rows init_state (rows_of_conv u rows)).
      rewrite process_row_pool, Hv. fold u.
      destruct (inv_alone _ _ Hinv) as (Hc & _).
      rewrite E, Hc, String.eqb_refl.
      cbn [andb negb]. apply (inv_alone_pool _ _ Hinv).
  - assert (Hlt : cur_username st = "" \/ str_lt (cur_username st) u).
    { destruct Hle as [Hle|Hle]; [now left|].
      apply str_le_cases in Hle. destruct Hle as [Hle|Hle]; [congruence|].
      now right. }
    assert (Hfresh : ~ In u (conv_ids rows)).
    { intros Hin.
      pose proof (sorted_le_last _ "" u Hs' Hin) as G.
      rewrite <- (inv_cur _ _ Hinv) in G.
      apply str_le_cases in G. destruct G as [G|G]; [congruence|].
      destruct Hlt as [Hlt|Hlt].
      - rewrite Hlt in G. now apply str_not_lt_empty in G.
      - apply (str_lt_irrefl u). eapply str_lt_trans; eauto. }
    assert (Hpool : per_month_aggs (process_row st r)
                    = per_month_aggs (flush_conv st)).
    { rewrite process_row_pool, Hv. fold u.
      now rewrite (proj2 (String.eqb_neq _ _) E). }
    pose proof (flush_conv_ok st Hok) as Hokf.
    assert (Hin_lt : forall m a,
               In a (pool_get (per_month_aggs (flush_conv st)) m) ->
               str_lt (username a) u).
    { intros m a Hin.
      destruct (flush_whole rows st m Hinv Hok) as [_ Hw].
      destruct (Hw a Hin) as [[G|G] _].
      - destruct Hlt as [Hlt|Hlt]; [|now rewrite G].
        apply (ok_pool _ Hokf) in Hin.
        destruct Hin as (_ & _ & [_ Hn] & _). congruence.
      - destruct Hlt as [Hlt|Hlt].
        + rewrite Hlt in G. now apply str_not_lt_empty in G.
        + eapply str_lt_trans; eauto. }
    constructor; rewrite ?Hcur', ?Hpool.
    + rewrite Hids. now rewrite last_last.
    + exact Hin_lt.
    + intros m. apply (flush_whole rows st m Hinv Hok).
    + intros m a Hin. rewrite Hroc.
      assert (Hne : u <> username a).
      { intros G. apply Hin_lt in Hin. rewrite <- G in Hin.
        now apply str_lt_irrefl in Hin. }
      rewrite (proj2 (String.eqb_neq _ _) Hne), app_nil_r.
      now apply (flush_whole rows st m Hinv Hok).
    + rewrite Hroc, String.eqb_refl, (rows_of_conv_absent u rows Hfresh).
      cbn [app run_rows fold_left].
      destruct (process_row_valid init_state r Hv) as [-> _].
      destruct (process_row_valid st r Hv) as [-> _].
      apply process_row_same_conv. fold u. unfold entered.
      rewrite (proj2 (String.eqb_neq _ _) E).
      cbn [cur_username init_state].
      rewrite (proj2 (String.eqb_neq _ _) (proj2 Hu)).
      destruct (flush_reset st Hok) as [-> ->].
      repeat split.
    + rewrite Hroc, String.eqb_refl, (rows_of_conv_absent u rows Hfresh).
      cbn [app run_rows fold_left].
      rewrite process_row_pool.
      now destruct (row_valid r && negb (row_id r =? cur_username init_state)%string).
Qed.

Lemma sorted_app_l (l l' : list string) :
  StronglySorted str_le (l ++ l') -> StronglySorted str_le l.
Proof.
  induction l as [|x l IH]; cbn [app]; intros H; [constructor|].
  inversion H as [|? ? Hs Hf]; subst. constructor; [now apply IH|].
  rewrite Forall_forall in *. intros y Hy. apply Hf.
  apply in_or_app. now left.
Qed.

Lemma pass_inv_run rows :
  StronglySorted str_le (conv_ids rows) ->
  pass_inv rows (run_rows init_state rows).
Proof.
  induction rows as [|r rows IH] using rev_ind; intros Hs.
  - exact pass_inv_init.
  - rewrite run_rows_app. cbn [run_rows fold_left].
    apply pass_inv_step; [|apply run_rows_ok, init_state_ok|exact Hs].
    apply IH. rewrite conv_ids_app in Hs. now apply sorted_app_l in Hs.
Qed.

Lemma flush_conv_pool st m :
  state_ok st ->
  pool_get (per_month_aggs (flush_conv st)) m =
    pool_get (per_month_aggs st) m ++ flushed (conv_month_aggs st) m.
Proof.
  intros Hok. destruct (String.eqb_spec (cur_username st) "") as [E|E].
  - rewrite flush_conv_idle by exact E.
    destruct (ok_idle st Hok E) as [-> _]. cbn. now rewrite app_nil_r.
  - now destruct (flush_conv_named st E (ok_keys st Hok)) as (_ & Hget & _).
Qed.

(** C2.  In the pass over the rows, a row whose conversation differs from
    the one in progress first moves every entry of the month map with
    [1 <= month <= 12] and [total > 0] to the pool of its month and
    empties the month map and the pending timestamp; a row of the same
    conversation leaves the pool alone; the same flush happens once more
    after the last row; every entry in progress is one the flush moves.
    Hence, for rows in ascending order of conversation id, the pool of a
    month holds at most one aggregate per conversation, each filed under
    its own month and equal to what the rows of its conversation give on
    their own. *)
Theorem flush_on_conversation_change (rows : list Row) :
  let st := run_rows init_state rows in
  (forall row,
      row_valid row = true -> row_id row <> cur_username st ->
      exists pool',
        process_row st row =
          process_row (mkState pool' (row_id row) [] None) row
        /\ forall m,
             pool_get pool' m =
               pool_get (per_month_aggs st) m
               ++ flushed (conv_month_aggs st) m)
  /\ (forall row,
        row_id row = cur_username st ->
        per_month_aggs (process_row st row) = per_month_aggs st)
  /\ (forall k a,
        In (k, a) (conv_month_aggs st) ->
        In a (flushed (conv_month_aggs st) k))
  /\ ((forall m,
         pool_get (per_month_aggs (run_pass rows)) m =
           pool_get (per_month_aggs st) m
           ++ flushed (conv_month_aggs st) m)
      /\ conv_month_aggs (run_pass rows) = []
      /\ prev_other_ts (run_pass rows) = None)
  /\ (Sorted str_le (conv_ids rows) ->
      forall m,
        NoDup (map username (pool_get (per_month_aggs (run_pass rows)) m))
        /\ forall a,
             In a (pool_get (per_month_aggs (run_pass rows)) m) ->
             month a = m
             /\ pool_get
                  (per_month_aggs
                     (run_pass (rows_of_conv (username a) rows))) m
                = [a]).
Proof.
  intros st.
  assert (Hok : state_ok st) by (apply run_rows_ok, init_state_ok).
  split; [|split; [|split; [|split]]].
  - intros row Hv Hne. exists (per_month_aggs (flush_conv st)).
    split; [|intros m; now apply flush_conv_pool].
    rewrite (process_row_change st row Hv Hne).
    now destruct (flush_reset st Hok) as [-> ->].
  - intros row E. rewrite process_row_pool.
    rewrite (proj2 (String.eqb_eq _ _) E).
    now destruct (row_valid row).
  - intros k a. now apply flushed_all.
  - unfold run_pass. fold st. split; [|now apply flush_reset].
    intros m. now apply flush_conv_pool.
  - intros Hs m.
    assert (Hss : StronglySorted str_le (conv_ids rows)).
    { apply Sorted_StronglySorted; [|exact Hs].
      intros x y z. apply str_le_trans. }
    pose proof (pass_inv_run rows Hss) as Hinv. fold st in Hinv.
    unfold run_pass at 1 2. fold st.
    destruct (flush_whole rows st m Hinv Hok) as [Hnd Hw].
    split; [exact Hnd|]. intros a Hin. split; [|now apply Hw].
    apply (ok_pool _ (flush_conv_ok st Hok)) in Hin. apply Hin.
Qed.

(** ** The scorer *)

Lemma Rltb_true x y : (x < y)%R -> Py.Rltb x y = true.
Proof. intros H. unfold Py.Rltb. now destruct (Rlt_dec x y). Qed.

Lemma Rltb_false x y : (y <= x)%R -> Py.Rltb x y = false.
Proof. intros H. unfold Py.Rltb. destruct (Rlt_dec x y); [lra|reflexivity]. Qed.

Lemma Rltb_iff x y : Py.Rltb x y = true <-> (x < y)%R.
Proof.
  unfold Py.Rltb. destruct (Rlt_dec x y); split; auto; discriminate.
Qed.

Lemma Reqb_iff x y : Py.Reqb x y = true <-> x = y.
Proof.
  unfold Py.Reqb. destruct (Req_dec_T x y); split; auto; discriminate.
Qed.

Lemma Reqb_false x y : x <> y -> Py.Reqb x y = false.
Proof. intros H. unfold Py.Reqb. now destruct (Req_dec_T x y). Qed.

Lemma Reqb_refl x : Py.Reqb x x = true.
Proof. now apply Reqb_iff. Qed.

Lemma log1p_ok x : (-1 < x)%R -> Py.log1p x = Py.Ok (ln (1 + x)).
Proof.
  intros H. unfold Py.log1p, Py.Rleb.
  destruct (Rle_dec x (-1)); [lra|reflexivity].
Qed.

Lemma fdiv_ok x y : y <> 0%R -> Py.fdiv x y = Py.Ok (x / y)%R.
Proof. intros H. unfold Py.fdiv. now rewrite Reqb_false. Qed.

Lemma fmax_ge_1 t : (1 <= Py.fmax 1 t)%R.
Proof.
  unfold Py.fmax, Py.Rltb. destruct (Rlt_dec 1 t); lra.
Qed.

Lemma fmax_mono t1 t2 : (t1 <= t2)%R -> (Py.fmax 1 t1 <= Py.fmax 1 t2)%R.
Proof.
  unfold Py.fmax, Py.Rltb. intros H.
  destruct (Rlt_dec 1 t1), (Rlt_dec 1 t2); lra.
Qed.

Lemma ln1p_pos x : (0 < x)%R -> (0 < ln (1 + x))%R.
Proof.
  intros H. rewrite <- ln_1. apply ln_increasing; lra.
Qed.

Lemma ln1p_mono x y : (0 <= x)%R -> (x <= y)%R -> (ln (1 + x) <= ln (1 + y))%R.
Proof.
  intros H1 [H2|H2].
  - left. apply ln_increasing; lra.
  - right. now rewrite H2.
Qed.

Lemma ln1p_nonneg x : (0 <= x)%R -> (0 <= ln (1 + x))%R.
Proof.
  intros H. rewrite <- ln_1. replace 1%R with (1 + 0)%R at 1 by lra.
  apply ln1p_mono; lra.
Qed.

Lemma div_unit x y : (0 <= x)%R -> (x <= y)%R -> (0 < y)%R -> in_unit (x / y).
Proof.
  intros H1 H2 H3. unfold in_unit, Rdiv.
  pose proof (Rinv_0_lt_compat y H3) as Hi.
  assert (E : (y * / y = 1)%R) by (apply Rinv_r; lra).
  split.
  - apply Rmult_le_pos; lra.
  - rewrite <- E. apply Rmult_le_compat_r; lra.
Qed.

Lemma land_1_bounds x : 0 <= Z.land x 1 <= 1.
Proof.
  assert (E : Z.land x 1 = x mod 2 ^ 1)
    by (exact (Z.land_ones x 1 ltac:(lia))).
  rewrite E. pose proof (Z.mod_pos_bound x (2 ^ 1)). lia.
Qed.

Lemma time_bucket_count_bounds a : 0 <= time_bucket_count a <= 4.
Proof.
  unfold time_bucket_count.
  pose proof (land_1_bounds (Z.land (time_bucket_mask a) 15)).
  pose proof (land_1_bounds (Z.shiftr (Z.land (time_bucket_mask a) 15) 1)).
  pose proof (land_1_bounds (Z.shiftr (Z.land (time_bucket_mask a) 15) 2)).
  pose proof (land_1_bounds (Z.shiftr (Z.land (time_bucket_mask a) 15) 3)).
  lia.
Qed.

Lemma active_days_count_nonneg a : 0 <= active_days_count a.
Proof. unfold active_days_count. lia. Qed.

Lemma interaction_nonneg a : agg_wf a -> 0 <= interaction a.
Proof. unfold agg_wf, interaction. lia. Qed.

Lemma avg_capped_nonneg a :
  agg_wf a -> (0 <= avg_reply_seconds_capped a)%R.
Proof.
  intros (_ & _ & _ & _ & H). unfold avg_reply_seconds_capped.
  destruct (Z.leb_spec (replies a) 0); [lra|].
  apply Rmult_le_pos; [now apply IZR_le|].
  left. apply Rinv_0_lt_compat. now apply IZR_lt.
Qed.

Lemma weights_values :
  weight weights "interaction" = Py.Ok 0.40%R
  /\ weight weights "speed" = Py.Ok 0.30%R
  /\ weight weights "continuity" = Py.Ok 0.20%R
  /\ weight weights "coverage" = Py.Ok 0.10%R.
Proof. repeat split. Qed.

(** With counters that are counts the scorer raises nothing. *)
Lemma score_month_agg_total a mi ma tau :
  agg_wf a ->
  _score_month_agg a mi ma tau weights =
    Py.Ok (score_total a mi ma tau (0.40, 0.30, 0.20, 0.10)%R).
Proof.
  intros Hwf. unfold _score_month_agg.
  pose proof (interaction_nonneg a Hwf) as Hi.
  pose proof (avg_capped_nonneg a Hwf) as Ha.
  pose proof (fmax_ge_1 tau) as Ht.
  rewrite log1p_ok by (apply IZR_le in Hi; lra).
  cbn [Py.bind].
  assert (HM : (1 <= IZR (Z.max 1 mi))%R) by (apply IZR_le; lia).
  rewrite log1p_ok by lra. cbn [Py.bind].
  rewrite fdiv_ok by (pose proof (ln1p_pos (IZR (Z.max 1 mi))); lra).
  cbn [Py.bind].
  rewrite fdiv_ok by lra. cbn [Py.bind].
  assert (Hq : (0 <= avg_reply_seconds_capped a / Py.fmax 1 tau)%R).
  { apply Rmult_le_pos; [exact Ha|]. left. apply Rinv_0_lt_compat. lra. }
  rewrite fdiv_ok by lra. cbn [Py.bind].
  assert (HA : (1 <= IZR (Z.max 1 ma))%R) by (apply IZR_le; lia).
  rewrite fdiv_ok by lra. cbn [Py.bind].
  rewrite fdiv_ok by lra. cbn [Py.bind].
  destruct weights_values as (-> & -> & -> & ->). reflexivity.
Qed.

Lemma avg_capped_spec a :
  agg_wf a -> avgReplyGapCapped a = avg_reply_seconds_capped a.
Proof.
  intros (_ & _ & H & _). unfold avgReplyGapCapped, avg_reply_seconds_capped.
  destruct (Z.eqb_spec (replies a) 0) as [E|E];
    destruct (Z.leb_spec (replies a) 0); auto; lia.
Qed.

Lemma fmax_tau : Py.fmax 1 (IZR tau_seconds) = 1800%R.
Proof.
  unfold Py.fmax. rewrite Rltb_true; [reflexivity|].
  apply IZR_lt. reflexivity.
Qed.

Lemma score_total_spec a mi ma :
  agg_wf a ->
  score_total a mi ma (IZR tau_seconds) (0.40, 0.30, 0.20, 0.10)%R
  = spec_score a mi ma.
Proof.
  intros Hwf. unfold score_total, spec_score.
  now rewrite fmax_tau, avg_capped_spec.
Qed.

Lemma score_total_in_unit a mi ma tau :
  agg_wf a -> interaction a <= mi -> active_days_count a <= ma ->
  scores_in_unit (score_total a mi ma tau (0.40, 0.30, 0.20, 0.10)%R).
Proof.
  intros Hwf Hi Hd.
  pose proof (interaction_nonneg a Hwf) as Hi0.
  pose proof (avg_capped_nonneg a Hwf) as Ha.
  pose proof (fmax_ge_1 tau) as Ht.
  pose proof (active_days_count_nonneg a) as Hd0.
  pose proof (time_bucket_count_bounds a) as Hb.
  assert (H1 : in_unit (ln (1 + IZR (interaction a))
                        / ln (1 + IZR (Z.max 1 mi)))).
  { apply div_unit.
    - apply ln1p_nonneg. now apply IZR_le in Hi0.
    - apply ln1p_mono; [now apply IZR_le in Hi0|]. apply IZR_le. lia.
    - apply ln1p_pos. apply IZR_lt. lia. }
  assert (H2 : in_unit (1 / (1 + avg_reply_seconds_capped a / Py.fmax 1 tau))).
  { assert (Hq : (0 <= avg_reply_seconds_capped a / Py.fmax 1 tau)%R).
    { apply Rmult_le_pos; [exact Ha|]. left. apply Rinv_0_lt_compat. lra. }
    apply div_unit; lra. }
  assert (H3 : in_unit (IZR (active_days_count a) / IZR (Z.max 1 ma))).
  { apply div_unit; [now apply IZR_le in Hd0|apply IZR_le; lia|].
    apply IZR_lt. lia. }
  assert (H4 : in_unit (IZR (time_bucket_count a) / 4)).
  { apply div_unit; [apply (IZR_le 0); lia|apply (IZR_le _ 4); lia|lra]. }
  unfold scores_in_unit, score_total.
  cbn [s_interaction s_speed s_continuity s_coverage s_final].
  repeat split; try apply H1; try apply H2; try apply H3; try apply H4;
    unfold in_unit in *; lra.
Qed.

Lemma run_pass_pool_wf rows m a :
  In a (pool_get (per_month_aggs (run_pass rows)) m) -> pooled_ok m a.
Proof. apply (ok_pool _ (run_pass_ok rows)). Qed.

(** C4.  For an aggregate whose counters are counts (as are all those the
    pass builds), the scorer returns exactly
    interactionScore = ln(1+interaction)/ln(1+max(1,maxInteraction)),
    speedScore = 1/(1+avgReplyGapCapped/1800) where avgReplyGapCapped is
    sumReplyGapCappedSeconds/replyCount and 0 without replies,
    continuityScore = activeDaysCount/max(1,maxActiveDays),
    coverageScore = timeBucketCount/4 and
    finalScore = 0.40 i + 0.30 s + 0.20 c + 0.10 v.  Without replies the
    speed score is 1, and no speed score exceeds 1.  When
    interaction <= maxInteraction and activeDaysCount <= maxActiveDays the
    five values lie in [0,1]. *)
Theorem scorer_formulas_and_bounds (a : MonthConvAgg)
    (maxInteraction maxActiveDays : Z) :
  agg_wf a ->
  _score_month_agg a maxInteraction maxActiveDays (IZR tau_seconds) weights
    = Py.Ok (spec_score a maxInteraction maxActiveDays)
  /\ (replies a = 0 ->
      avgReplyGapCapped a = 0%R
      /\ s_speed (spec_score a maxInteraction maxActiveDays) = 1%R)
  /\ (s_speed (spec_score a maxInteraction maxActiveDays) <= 1)%R
  /\ (interaction a <= maxInteraction ->
      active_days_count a <= maxActiveDays ->
      scores_in_unit (spec_score a maxInteraction maxActiveDays))
  /\ (forall rows m b,
        In b (pool_get (per_month_aggs (run_pass rows)) m) -> agg_wf b).
Proof.
  intros Hwf. split; [|split; [|split; [|split]]].
  - rewrite score_month_agg_total by exact Hwf.
    now rewrite score_total_spec.
  - intros H0. unfold spec_score, avgReplyGapCapped. rewrite H0.
    cbn [Z.eqb s_speed]. split; [reflexivity|]. field.
  - cbn [spec_score s_speed]. rewrite avg_capped_spec by exact Hwf.
    pose proof (avg_capped_nonneg a Hwf) as Ha.
    assert (Hq : (0 <= avg_reply_seconds_capped a / 1800)%R).
    { apply Rmult_le_pos; [exact Ha|]. lra. }
    apply (div_unit 1 (1 + avg_reply_seconds_capped a / 1800)); lra.
  - intros Hi Hd. rewrite <- score_total_spec by exact Hwf.
    now apply score_total_in_unit.
  - intros rows m b Hin. apply run_pass_pool_wf in Hin. apply Hin.
Qed.

(** C7.  For an aggregate with at least one reply, everything else held
    fixed, the speed score does not decrease when the decay constant
    grows: with [0 < tau1 <= tau2] the scorer returns for both, and the
    speed score for [tau2] is at least the one for [tau1]. *)
Theorem speed_score_monotone_in_tau (a : MonthConvAgg)
    (month_max_interaction month_max_active_days : Z) (tau1 tau2 : R) :
  agg_wf a -> 0 < replies a ->
  (0 < tau1)%R -> (tau1 <= tau2)%R ->
  exists s1 s2,
    _score_month_agg a month_max_interaction month_max_active_days tau1
      weights = Py.Ok s1
    /\ _score_month_agg a month_max_interaction month_max_active_days tau2
         weights = Py.Ok s2
    /\ (s_speed s1 <= s_speed s2)%R.
Proof.
  intros Hwf Hr Ht1 Ht.
  eexists. eexists.
  split; [now apply score_month_agg_total|].
  split; [now apply score_month_agg_total|].
  cbn [score_total s_speed].
  pose proof (avg_capped_nonneg a Hwf) as Ha.
  pose proof (fmax_ge_1 tau1) as H1.
  pose proof (fmax_mono tau1 tau2 Ht) as H2.
  set (f1 := Py.fmax 1 tau1) in *. set (f2 := Py.fmax 1 tau2) in *.
  set (v := avg_reply_seconds_capped a) in *.
  assert (Hq : (v / f2 <= v / f1)%R).
  { unfold Rdiv. apply Rmult_le_compat_l; [exact Ha|].
    apply Rinv_le_contravar; lra. }
  assert (Hq2 : (0 <= v / f2)%R).
  { apply Rmult_le_pos; [exact Ha|]. left. apply Rinv_0_lt_compat. lra. }
  unfold Rdiv at 1 3. rewrite !Rmult_1_l.
  apply Rinv_le_contravar; lra.
Qed.

(** ** Stable sorting *)

Section SortFacts.
Context {A : Type} (ltb : A -> A -> bool).
Hypothesis ltb_asym : forall x y, ltb x y = true -> ltb y x = false.
Hypothesis ltb_le_trans :
  forall x y z, ltb y x = false -> ltb z y = false -> ltb z x = false.

Set Default Proof Using "Type ltb_asym ltb_le_trans".

Lemma insert_sorted_perm x l :
  Permutation (Py.insert_sorted ltb x l) (x :: l).
Proof using Type.
  induction l as [|y l IH]; cbn [Py.insert_sorted]; [reflexivity|].
  destruct (ltb x y); [reflexivity|].
  rewrite IH. apply perm_swap.
Qed.

Lemma sort_fold_perm l : forall acc,
  Permutation (fold_left (fun acc x => Py.insert_sorted ltb x acc) l acc)
    (l ++ acc).
Proof using Type.
  induction l as [|x l IH]; intros acc; cbn [fold_left app];
    [reflexivity|].
  rewrite IH, insert_sorted_perm. symmetry. apply Permutation_middle.
Qed.

Lemma sort_perm l : Permutation (Py.sort ltb l) l.
Proof using Type.
  unfold Py.sort. rewrite sort_fold_perm. now rewrite app_nil_r.
Qed.

Lemma insert_sorted_sorted x l :
  StronglySorted (not_greater ltb) l ->
  StronglySorted (not_greater ltb) (Py.insert_sorted ltb x l).
Proof.
  induction l as [|y l IH]; cbn [Py.insert_sorted]; intros Hs.
  - repeat constructor.
  - inversion Hs as [|? ? Hs' Hf]; subst.
    destruct (ltb x y) eqn:E.
    + constructor; [exact Hs|]. constructor.
      * unfold not_greater. now apply ltb_asym.
      * rewrite Forall_forall in *. intros z Hz. unfold not_greater.
        apply ltb_le_trans with (y := y); [now apply ltb_asym|].
        now apply Hf.
    + constructor; [now apply IH|].
      rewrite Forall_forall in *. intros z Hz.
      apply (Permutation_in _ (insert_sorted_perm x l)) in Hz.
      destruct Hz as [<-|Hz]; [exact E|now apply Hf].
Qed.

Lemma sort_fold_sorted l : forall acc,
  StronglySorted (not_greater ltb) acc ->
  StronglySorted (not_greater ltb)
    (fold_left (fun acc x => Py.insert_sorted ltb x acc) l acc).
Proof.
  induction l as [|x l IH]; intros acc Hs; cbn [fold_left]; [exact Hs|].
  apply IH. now apply insert_sorted_sorted.
Qed.

Lemma sort_sorted l : StronglySorted (not_greater ltb) (Py.sort ltb l).
Proof. apply sort_fold_sorted. constructor. Qed.

Lemma ltb_irrefl x : ltb x x = false.
Proof.
  destruct (ltb x x) eqn:E; [|reflexivity].
  now rewrite (ltb_asym x x E) in E.
Qed.

(** The first element of the sorted list is in the list and nothing in
    the list is smaller. *)
Lemma sort_head l h t :
  Py.sort ltb l = h :: t ->
  In h l /\ forall y, In y l -> ltb y h = false.
Proof.
  intros E. pose proof (sort_perm l) as Hp. pose proof (sort_sorted l) as Hs.
  rewrite E in Hp, Hs. split.
  - apply (Permutation_in _ Hp). now left.
  - intros y Hy. apply (Permutation_in _ (Permutation_sym Hp)) in Hy.
    inversion Hs as [|? ? _ Hf]; subst.
    destruct Hy as [<-|Hy]; [apply ltb_irrefl|].
    rewrite Forall_forall in Hf. now apply Hf.
Qed.

Lemma sort_nonempty l : l <> [] -> Py.sort ltb l <> [].
Proof using Type.
  intros Hl E. pose proof (sort_perm l) as Hp. rewrite E in Hp.
  apply Permutation_nil in Hp. contradiction.
Qed.

End SortFacts.

Set Default Proof Using "Type".

(** ** The order of tie keys *)

Lemma lex_strict_total {A B : Type} (ltA : A -> A -> Prop)
    (ltB : B -> B -> Prop) :
  strict_total ltA -> strict_total ltB -> strict_total (lex ltA ltB).
Proof.
  drop_collaborators.
  intros [IA TA OA] [IB TB OB]. constructor.
  - intros [a b] [H|[_ H]]; cbn in H; [now apply IA in H|now apply IB in H].
  - intros [a b] [a' b'] [a'' b'']. unfold lex. cbn [fst snd].
    intros [H|[-> H]] [H'|[<- H']].
    + left. eapply TA; eauto.
    + now left.
    + now left.
    + right. split; [reflexivity|]. eapply TB; eauto.
  - intros [a b] [a' b']. unfold lex. cbn [fst snd].
    destruct (OA a a') as [->|[H|H]]; [|tauto|tauto].
    destruct (OB b b') as [->|[H|H]]; [now left| |]; tauto.
Qed.

Lemma Rlt_strict_total : strict_total Rlt.
Proof.
  constructor.
  - intros x. apply Rlt_irrefl.
  - intros x y z. apply Rlt_trans.
  - intros x y. destruct (Rtotal_order x y) as [H|[H|H]]; auto.
Qed.

Lemma str_lt_strict_total : strict_total str_lt.
Proof.
  constructor.
  - exact str_lt_irrefl.
  - exact str_lt_trans.
  - intros x y. destruct (String.eqb_spec x y) as [E|E]; [now left|].
    right. now apply str_lt_total.
Qed.

Lemma key_lt_strict_total : strict_total key_lt.
Proof.
  unfold key_lt.
  repeat apply lex_strict_total;
    first [exact Rlt_strict_total | exact str_lt_strict_total].
Qed.

Lemma tie_key_ltb_spec k1 k2 : tie_key_ltb k1 k2 = true <-> key_lt k1 k2.
Proof.
  drop_collaborators.
  destruct k1 as [[[[a1 b1] c1] d1] u1], k2 as [[[[a2 b2] c2] d2] u2].
  unfold tie_key_ltb, key_lt, lex, Py.Reqb. cbn [fst snd].
  destruct (Req_dec_T a1 a2) as [Ea|Ea]; cbn [negb].
  2:{ rewrite Rltb_iff. split; [tauto|].
      intros [[[[H|[H _]]|[H _]]|[H _]]|[H _]]; try congruence; auto;
        try (injection H; intros; congruence). }
  destruct (Req_dec_T b1 b2) as [Eb|Eb]; cbn [negb].
  2:{ rewrite Rltb_iff. subst a2. split; [tauto|].
      intros [[[[H|[_ H]]|[H _]]|[H _]]|[H _]]; auto;
        try (now apply Rlt_irrefl in H);
        try (injection H; intros; congruence). }
  destruct (Req_dec_T c1 c2) as [Ec|Ec]; cbn [negb].
  2:{ rewrite Rltb_iff. subst a2 b2. split; [tauto|].
      intros [[[[H|[_ H]]|[_ H]]|[H _]]|[H _]]; auto;
        try (now apply Rlt_irrefl in H);
        try (injection H; intros; congruence). }
  destruct (Req_dec_T d1 d2) as [Ed|Ed]; cbn [negb].
  2:{ rewrite Rltb_iff. subst a2 b2 c2. split; [tauto|].
      intros [[[[H|[_ H]]|[_ H]]|[_ H]]|[H _]]; auto;
        try (now apply Rlt_irrefl in H);
        try (injection H; intros; congruence). }
  subst a2 b2 c2 d2. split.
  - intros H. right. split; [reflexivity|exact H].
  - intros [[[[H|[_ H]]|[_ H]]|[_ H]]|[_ H]];
      try (now apply Rlt_irrefl in H). exact H.
Qed.

(** A boolean comparison that decides a strict total order on keys can
    drive the sort. *)
Section KeyedOrder.
Context {A K : Type} (key : A -> K) (lt : K -> K -> Prop)
        (ltb : K -> K -> bool).
Hypothesis lt_total : strict_total lt.
Hypothesis ltb_spec : forall x y, ltb x y = true <-> lt x y.

Set Default Proof Using "Type lt_total ltb_spec".

Lemma keyed_asym x y :
  ltb (key x) (key y) = true -> ltb (key y) (key x) = false.
Proof.
  intros H. apply ltb_spec in H.
  destruct (ltb (key y) (key x)) eqn:E; [|reflexivity].
  apply ltb_spec in E. exfalso.
  apply (st_irrefl lt lt_total (key x)).
  eapply (st_trans lt lt_total); eauto.
Qed.

Lemma keyed_not_lt x y :
  ltb (key y) (key x) = false <-> key x = key y \/ lt (key x) (key y).
Proof.
  split.
  - intros H.
    destruct (st_total lt lt_total (key x) (key y)) as [E|[E|E]]; auto.
    apply ltb_spec in E. congruence.
  - intros [E|E].
    + rewrite E. destruct (ltb (key y) (key y)) eqn:G; [|reflexivity].
      apply ltb_spec in G. now apply (st_irrefl lt lt_total) in G.
    + apply ltb_spec in E. now apply keyed_asym in E.
Qed.

Lemma keyed_le_trans x y z :
  ltb (key y) (key x) = false -> ltb (key z) (key y) = false ->
  ltb (key z) (key x) = false.
Proof.
  rewrite !keyed_not_lt. intros [E|E] [F|F].
  - left. congruence.
  - right. now rewrite E.
  - right. now rewrite <- F.
  - right. eapply (st_trans lt lt_total); eauto.
Qed.
End KeyedOrder.

Set Default Proof Using "Type".

(** ** The winner of a month *)

Lemma scored_ltb_asym (x y : Scored) :
  scored_ltb x y = true -> scored_ltb y x = false.
Proof.
  apply (keyed_asym (fun s : Scored => fst (fst s)) key_lt tie_key_ltb
           key_lt_strict_total tie_key_ltb_spec).
Qed.

Lemma scored_ltb_le_trans (x y z : Scored) :
  scored_ltb y x = false -> scored_ltb z y = false -> scored_ltb z x = false.
Proof.
  apply (keyed_le_trans (fun s : Scored => fst (fst s)) key_lt tie_key_ltb
           key_lt_strict_total tie_key_ltb_spec).
Qed.

Lemma fold_max_spec t : forall x,
  (fold_left Z.max t x = x \/ In (fold_left Z.max t x) t)
  /\ x <= fold_left Z.max t x
  /\ forall y, In y t -> y <= fold_left Z.max t x.
Proof.
  induction t as [|z t IH]; intros x; cbn [fold_left].
  - split; [now left|]. split; [lia|]. intros y [].
  - destruct (IH (Z.max x z)) as (H1 & H2 & H3).
    split; [|split].
    + destruct H1 as [H1|H1]; [|right; now right].
      rewrite H1. destruct (Z.max_spec x z) as [[_ ->]|[_ ->]];
        [right; now left|now left].
    + lia.
    + intros y [<-|Hy]; [lia|now apply H3].
Qed.

Lemma max_of_spec l :
  l <> [] -> In (max_of l) l /\ forall y, In y l -> y <= max_of l.
Proof.
  destruct l as [|x t]; [congruence|]. intros _. cbn [max_of].
  destruct (fold_max_spec t x) as (H1 & H2 & H3). split.
  - destruct H1 as [->|H1]; [now left|now right].
  - intros y [<-|Hy]; [exact H2|now apply H3].
Qed.




Lemma eligible_wf aggs a :
  Forall agg_wf aggs -> In a (eligible_of aggs) -> agg_wf a.
Proof.
  intros Hf Hin. unfold eligible_of in Hin. apply filter_In in Hin.
  rewrite Forall_forall in Hf. now apply Hf.
Qed.

Lemma score_all_total el mi ma :
  Forall agg_wf el ->
  score_all el mi ma =
    Py.Ok (map (fun a => (tie_key a (spec_score a mi ma), a,
                          spec_score a mi ma)) el).
Proof.
  induction 1 as [|a el Ha _ IH]; [reflexivity|].
  unfold score_all in *. cbn [score_all_with map]. unfold score_call at 1.
  rewrite score_month_agg_total by exact Ha.
  rewrite score_total_spec by exact Ha.
  cbn [Py.bind]. now rewrite IH.
Qed.

Lemma month_winner_total aggs :
  Forall agg_wf aggs -> month_winner aggs = Py.Ok (best_of aggs).
Proof.
  intros Hwf. unfold month_winner, month_winner_with, best_of.
  fold score_all.
  assert (Hel : Forall agg_wf (eligible_of aggs)).
  { apply Forall_forall. intros a. now apply eligible_wf. }
  destruct (eligible_of aggs) as [|a el] eqn:E; [reflexivity|].
  rewrite score_all_total by exact Hel. cbn [Py.bind].
  unfold scored_of, month_score.
  match goal with
  | |- context [Py.sort ?f ?l] =>
      destruct (Py.sort f l) as [|[[k w] s] t]
  end; reflexivity.
Qed.


(** The first element of the sorted list of scored aggregates. *)
Lemma best_of_spec aggs :
  eligible_of aggs <> [] ->
  let el := eligible_of aggs in
  exists w rest,
    best_of aggs = Some (w, month_score el w)
    /\ In w el
    /\ Py.sort scored_ltb (scored_of el) =
         (tie_key w (month_score el w), w, month_score el w) :: rest
    /\ forall a, In a el ->
         tie_key_ltb (tie_key a (month_score el a))
           (tie_key w (month_score el w)) = false.
Proof.
  intros Hne el. unfold best_of. fold el.
  destruct (Py.sort scored_ltb (scored_of el)) as [|h t] eqn:E.
  - exfalso.
    apply (sort_nonempty scored_ltb (scored_of el)); [|exact E].
    unfold scored_of. intros G. apply map_eq_nil in G. contradiction.
  - destruct (sort_head scored_ltb scored_ltb_asym scored_ltb_le_trans
                (scored_of el) h t E) as [Hh Hmin].
    unfold scored_of in Hh. apply in_map_iff in Hh.
    destruct Hh as [w [<- Hw]].
    exists w, t. repeat split; auto.
    intros a Ha.
    apply (Hmin (tie_key a (month_score el a), a, month_score el a)).
    unfold scored_of. apply in_map_iff. now exists a.
Qed.

Lemma tie_key_username_neq a sa b sb :
  username a <> username b -> tie_key a sa <> tie_key b sb.
Proof.
  unfold tie_key, tie_key_with. intros H E. injection E. intros.
  contradiction.
Qed.




(** ** The year: winners of the twelve months *)

Lemma dict_set_absent {V : Type} (d : list (Z * V)) k v :
  ~ In k (map fst d) -> Py.dict_set Z.eqb d k v = d ++ [(k, v)].
Proof.
  induction d as [|[k' v'] d IH]; cbn [Py.dict_set map fst app In];
    [reflexivity|].
  intros H. destruct (Z.eqb_spec k' k) as [E|E]; [exfalso; auto|].
  rewrite IH; [reflexivity|]. intros G. apply H. now right.
Qed.

Lemma select_winners_total pool ms : forall raw names,
  (forall m a, In a (pool_get pool m) -> agg_wf a) ->
  NoDup ms ->
  (forall m, In m ms -> ~ In m (map fst raw)) ->
  let won :=
    flat_map
      (fun m =>
         match best_of (pool_get pool m) with
         | Some p => [(m, p)]
         | None => []
         end) ms in
  select_winners pool ms raw names =
    Py.Ok (raw ++ won,
           names ++ map (fun kv => username (fst (snd kv))) won).
Proof.
  induction ms as [|m ms IH]; intros raw names Hwf Hnd Hfresh;
    cbn [select_winners flat_map].
  - cbn [map]. now rewrite !app_nil_r.
  - inversion Hnd as [|? ? Hm Hnd']; subst.
    rewrite month_winner_total
      by (apply Forall_forall; intros a; apply Hwf).
    cbn [Py.bind].
    destruct (best_of (pool_get pool m)) as [[a s]|].
    + rewrite dict_set_absent by (apply Hfresh; now left).
      rewrite IH; auto.
      * cbn [app map fst snd]. now rewrite <- !app_assoc.
      * intros m' Hm'. rewrite map_app, in_app_iff. cbn [map fst In].
        intros [G|[G|[]]].
        -- revert G. apply Hfresh. now right.
        -- congruence.
    + rewrite IH; auto. intros m' Hm'. apply Hfresh. now right.
Qed.

Lemma range_nodup a b : NoDup (range a b).
Proof.
  unfold range. apply Finite.Injective_map_NoDup; [|apply seq_NoDup].
  intros x y. lia.
Qed.

Lemma winners_raw_in pool m p :
  In (m, p) (winners_raw pool) <->
  1 <= m <= 12 /\ best_of (pool_get pool m) = Some p.
Proof.
  unfold winners_raw. rewrite in_flat_map. split.
  - intros [k [Hk Hin]]. apply range_in in Hk.
    destruct (best_of (pool_get pool k)) as [q|] eqn:E; [|destruct Hin].
    destruct Hin as [G|[]]. inversion G; subst. split; [lia|exact E].
  - intros [Hm E]. exists m. split; [apply range_in; lia|].
    rewrite E. now left.
Qed.

Lemma flat_map_keys_nodup {V : Type} (f : Z -> option V) ms :
  NoDup ms ->
  NoDup (map fst (flat_map
                    (fun m => match f m with
                              | Some p => [(m, p)]
                              | None => []
                              end) ms)).
Proof.
  induction 1 as [|m ms Hm _ IH]; cbn [flat_map map]; [constructor|].
  destruct (f m) as [p|] eqn:E; cbn [app map fst]; [|exact IH].
  constructor; [|exact IH].
  intros Hin. apply Hm. apply in_map_iff in Hin.
  destruct Hin as [[k q] [Ek Hin]]. cbn [fst] in Ek. subst k.
  apply in_flat_map in Hin. destruct Hin as [k [Hk Hin]].
  destruct (f k); [|destruct Hin]. destruct Hin as [G|[]].
  now inversion G; subst.
Qed.

Lemma winners_raw_get pool m :
  Py.dict_get Z.eqb (winners_raw pool) m =
    if (1 <=? m) && (m <=? 12) then best_of (pool_get pool m) else None.
Proof.
  assert (Hnd : NoDup (map fst (winners_raw pool)))
    by (apply flat_map_keys_nodup, range_nodup).
  destruct (Py.dict_get Z.eqb (winners_raw pool) m) as [p|] eqn:E.
  - apply (dict_get_in Z.eqb Z.eqb_spec) in E.
    apply winners_raw_in in E. destruct E as [Hm ->].
    replace (1 <=? m) with true by (symmetry; apply Z.leb_le; lia).
    replace (m <=? 12) with true by (symmetry; apply Z.leb_le; lia).
    reflexivity.
  - destruct ((1 <=? m) && (m <=? 12)) eqn:G; [|reflexivity].
    destruct (best_of (pool_get pool m)) as [p|] eqn:B; [|reflexivity].
    exfalso. apply (dict_get_none Z.eqb Z.eqb_spec) in E. apply E.
    apply in_map_iff. exists (m, p). split; [reflexivity|].
    apply winners_raw_in. split; [|exact B].
    apply andb_prop in G. destruct G as [G1 G2].
    apply Z.leb_le in G1. apply Z.leb_le in G2. lia.
Qed.

Lemma year_pool_ok ie hf rows m a :
  In a (pool_get (year_pool ie hf rows) m) -> pooled_ok m a.
Proof.
  unfold year_pool.
  destruct (ie && hf && negb (my_username =? "")%string).
  - apply run_pass_pool_wf.
  - rewrite init_pool_get. intros [].
Qed.

(** ** The bounds of the year (line 120) *)

Lemma year_range_ok_iff year :
  year_range_ok year <->
  1 <= year <= 9998
  /\ (exists s, timestamp year = Py.Ok s)
  /\ (exists e, timestamp (year + 1) = Py.Ok e).
Proof.
  unfold year_range_ok, _year_range_epoch_seconds, datetime_jan1. split.
  - intros [b H].
    destruct ((1 <=? year) && (year <=? 9999)) eqn:E1; [|discriminate].
    cbn [Py.bind] in H.
    destruct (timestamp year) as [s|] eqn:T1; [|discriminate].
    cbn [Py.bind] in H.
    destruct ((1 <=? year + 1) && (year + 1 <=? 9999)) eqn:E2;
      [|discriminate].
    cbn [Py.bind] in H.
    destruct (timestamp (year + 1)) as [e|] eqn:T2; [|discriminate].
    apply andb_prop in E1, E2. destruct E1 as [E1 _], E2 as [_ E2].
    apply Z.leb_le in E1, E2.
    split; [lia|]. split; [now exists s|now exists e].
  - intros (Hy & [s Hs] & [e He]).
    replace ((1 <=? year) && (year <=? 9999)) with true
      by (symmetry; apply andb_true_intro; split; apply Z.leb_le; lia).
    cbn [Py.bind]. rewrite Hs. cbn [Py.bind].
    replace ((1 <=? year + 1) && (year + 1 <=? 9999)) with true
      by (symmetry; apply andb_true_intro; split; apply Z.leb_le; lia).
    cbn [Py.bind]. rewrite He. cbn [Py.bind]. now exists (s, e).
Qed.

(** Outside the years that [datetime] takes, and in the last of them, the
    function raises [ValueError] and returns nothing. *)
Lemma compute_raises_outside_years ie hf rows probe year :
  (year < 1 \/ 9999 < year ->
   compute_monthly_best_friends_wall_stats ie hf rows probe year
   = Py.Raise Py.ValueError)
  /\ (year = 9999 ->
      (exists s, timestamp 9999 = Py.Ok s) ->
      compute_monthly_best_friends_wall_stats ie hf rows probe year
      = Py.Raise Py.ValueError).
Proof.
  unfold compute_monthly_best_friends_wall_stats,
    _year_range_epoch_seconds, datetime_jan1.
  split.
  - intros H.
    replace ((1 <=? year) && (year <=? 9999)) with false; [reflexivity|].
    symmetry. apply andb_false_iff.
    destruct H as [H|H]; [left|right]; apply Z.leb_gt; lia.
  - intros -> [s Hs]. cbn [Z.leb Z.compare Pos.compare Pos.compare_cont andb
                           Py.bind].
    rewrite Hs. reflexivity.
Qed.

(** For every other year the function returns, and this is what it
    returns. *)
Lemma compute_total ie hf rows probe year :
  year_range_ok year ->
  let pool := year_pool ie hf rows in
  exists cr settings,
    let months := map (month_item cr (winners_raw pool)) (range 1 13) in
    compute_monthly_best_friends_wall_stats ie hf rows probe year =
      Py.Ok
        (VDict
           [("year", VInt year);
            ("months", VList months);
            ("summary",
             VDict [("monthsWithWinner",
                     VInt (Z.of_nat
                             (List.length (filled_months_of months))));
                    ("topChampion",
                     top_champion_of cr (winner_month_counts months));
                    ("filledMonths",
                     VList (map VInt (filled_months_of months)))]);
            ("settings", settings)]).
Proof.
  intros [bounds Hy] pool. unfold compute_monthly_best_friends_wall_stats.
  rewrite Hy. cbn [Py.bind].
  fold (year_pool ie hf rows). fold pool.
  rewrite (select_winners_total pool (range 1 13) [] []).
  - cbn [Py.bind app fst snd]. fold (winners_raw pool).
    eexists. eexists. reflexivity.
  - intros m a Hin. apply year_pool_ok in Hin. apply Hin.
  - apply range_nodup.
  - intros m _ [].
Qed.

(** The function returns exactly for the years whose bounds line 120
    computes; for any other year it raises what line 120 raises. *)
Lemma compute_returns_iff ie hf rows probe year :
  (exists v,
     compute_monthly_best_friends_wall_stats ie hf rows probe year = Py.Ok v)
  <-> year_range_ok year.
Proof.
  split.
  - intros [v H]. unfold compute_monthly_best_friends_wall_stats in H.
    unfold year_range_ok.
    destruct (_year_range_epoch_seconds year) as [b|e]; [now exists b|].
    discriminate.
  - intros Hy. destruct (compute_total ie hf rows probe year Hy)
      as (cr & settings & H).
    eexists. exact H.
Qed.

Lemma best_of_none aggs : best_of aggs = None <-> eligible_of aggs = [].
Proof.
  split.
  - intros H. destruct (eligible_of aggs) as [|a el] eqn:E; [reflexivity|].
    destruct (best_of_spec aggs) as (w & rest & Hb & _);
      [rewrite E; discriminate|congruence].
  - intros E. unfold best_of. now rewrite E.
Qed.

Lemma best_of_some aggs w s :
  best_of aggs = Some (w, s) ->
  In w (eligible_of aggs) /\ s = month_score (eligible_of aggs) w.
Proof.
  intros H.
  destruct (eligible_of aggs) as [|a el] eqn:E.
  - apply best_of_none in E. congruence.
  - destruct (best_of_spec aggs) as (w' & rest & Hb & Hw & _);
      [rewrite E; discriminate|].
    rewrite E in Hb, Hw. rewrite Hb in H. inversion H; subst. auto.
Qed.

Lemma range_nth {A : Type} (f : Z -> A) m :
  1 <= m <= 12 ->
  nth_error (map f (range 1 13)) (Z.to_nat (m - 1)) = Some (f m).
Proof.
  intros Hm. rewrite nth_error_map. unfold range. rewrite nth_error_map.
  change (Z.to_nat (13 - 1)) with 12%nat.
  assert (H : nth_error (seq 0 12) (Z.to_nat (m - 1))
              = Some (Z.to_nat (m - 1))).
  { rewrite nth_error_nth' with (d := O) by (rewrite length_seq; lia).
    rewrite seq_nth by lia. reflexivity. }
  rewrite H. cbn [option_map]. f_equal. f_equal. lia.
Qed.

Lemma eligible_thresholds a :
  is_eligible a = true <->
  8 <= total a /\ 3 <= interaction a /\ 1 <= replies a
  /\ 2 <= active_days_count a.
Proof.
  drop_collaborators.
  unfold is_eligible, minTotalMessages, minInteraction, minReplyCount,
    minActiveDays.
  rewrite !andb_true_iff, !negb_true_iff, !Z.ltb_ge. tauto.
Qed.

(** The entry of a month: either the one without winner, or the one of an
    eligible aggregate of that month. *)
Lemma month_item_cases cr pool m :
  1 <= m <= 12 ->
  (eligible_of (pool_get pool m) = []
   /\ month_item cr (winners_raw pool) m =
        VDict [("month", VInt m); ("winner", VNone); ("metrics", VNone);
               ("raw", VNone); ("isFallback", VBool false);
               ("reason", VStr "insufficient_data")])
  \/ (exists w d wd rd,
        In w (eligible_of (pool_get pool m))
        /\ best_of (pool_get pool m)
           = Some (w, month_score (eligible_of (pool_get pool m)) w)
        /\ month_item cr (winners_raw pool) m = VDict d
        /\ get d "month" = Some (VInt m)
        /\ get d "winner" = Some (VDict wd)
        /\ get wd "username" = Some (VStr (username w))
        /\ get d "raw" = Some (VDict rd)
        /\ get rd "totalMessages" = Some (VInt (total w))
        /\ get d "reason" = None).
Proof.
  intros Hm. unfold month_item. rewrite winners_raw_get.
  replace (1 <=? m) with true by (symmetry; apply Z.leb_le; lia).
  replace (m <=? 12) with true by (symmetry; apply Z.leb_le; lia).
  cbn [andb].
  destruct (best_of (pool_get pool m)) as [[w s]|] eqn:B.
  - right. destruct (best_of_some _ _ _ B) as [Hw ->].
    eexists w, _, _, _. split; [exact Hw|]. split; [reflexivity|].
    split; [reflexivity|]. repeat split.
  - left. split; [now apply best_of_none|reflexivity].
Qed.

(** C5.  Whatever the rows, and for every year whose bounds line 120
    computes, the function returns and the entry of each month either has
    no winner, when no aggregate of the month meets the four thresholds, and
    then carries the reason ["insufficient_data"], or has as winner an
    aggregate of that month with total >= 8, interaction >= 3,
    replyCount >= 1 and activeDaysCount >= 2.  An aggregate with
    total = 7 is never eligible, hence never a winner. *)
Theorem winner_meets_thresholds (index_exists has_fts : bool)
    (rows : list Row) (probe_status : value) (year : Z) :
  let pool := year_pool index_exists has_fts rows in
  (year_range_ok year ->
   exists v,
     compute_monthly_best_friends_wall_stats index_exists has_fts rows
       probe_status year = Py.Ok v
     /\ forall m,
          1 <= m <= 12 ->
          exists item,
            nth_error (months_of v) (Z.to_nat (m - 1)) = Some (VDict item)
            /\ ((Forall (fun a => is_eligible a = false) (pool_get pool m)
                 /\ get item "winner" = Some VNone
                 /\ get item "reason" = Some (VStr "insufficient_data"))
                \/ (exists w wd,
                      In w (pool_get pool m)
                      /\ get item "winner" = Some (VDict wd)
                      /\ get wd "username" = Some (VStr (username w))
                      /\ 8 <= total w /\ 3 <= interaction w
                      /\ 1 <= replies w /\ 2 <= active_days_count w)))
  /\ (forall a, total a = 7 -> is_eligible a = false)
  /\ (forall aggs w s,
        month_winner aggs = Py.Ok (Some (w, s)) -> total w <> 7).
Proof.
  intros pool. split; [|split].
  - intros Hy.
    destruct (compute_total index_exists has_fts rows probe_status year Hy)
      as (cr & settings & Hc).
    fold pool in Hc. cbv zeta in Hc. eexists. split; [exact Hc|].
    intros m Hm. cbn [months_of get Py.dict_get String.eqb Ascii.eqb
                      Bool.eqb].
    rewrite range_nth by exact Hm.
    destruct (month_item_cases cr pool m Hm)
      as [[He ->]|(w & d & wd & rd & Hw & _ & -> & _ & Hwin & Hu & _)].
    + eexists. split; [reflexivity|]. left. split; [|split; reflexivity].
      apply Forall_forall. intros a Ha.
      destruct (is_eligible a) eqn:E; [|reflexivity].
      assert (In a (eligible_of (pool_get pool m)))
        by (apply filter_In; auto).
      rewrite He in H. destruct H.
    + exists d. split; [reflexivity|]. right. exists w, wd.
      apply filter_In in Hw. destruct Hw as [Hw He].
      apply eligible_thresholds in He. tauto.
  - intros a Ha. destruct (is_eligible a) eqn:E; [|reflexivity].
    apply eligible_thresholds in E. lia.
  - intros aggs w s H Ht. unfold month_winner, month_winner_with in H.
    fold score_all in H.
    destruct (eligible_of aggs) as [|a el] eqn:E; [discriminate|].
    destruct (score_all (a :: el) _ _) as [sc|e] eqn:S; [|discriminate].
    cbn [Py.bind] in H.
    destruct (Py.sort scored_ltb sc) as [|[[k w'] s'] t] eqn:So;
      [discriminate|].
    inversion H; subst w' s'.
    assert (Hin : In (k, w, s) sc).
    { apply (Permutation_in _ (sort_perm scored_ltb sc)).
      rewrite So. now left. }
    assert (Hsc : forall l mi ma sc0,
               score_all l mi ma = Py.Ok sc0 ->
               forall x, In x sc0 -> In (snd (fst x)) l).
    { clear. induction l as [|b l IH]; intros mi ma sc0 H x Hx.
      - inversion H; subst. destruct Hx.
      - unfold score_all in H. cbn [score_all_with] in H.
        fold score_all in H.
        destruct (score_call b mi ma) as [sb|]; [|discriminate].
        cbn [Py.bind] in H.
        destruct (score_all l mi ma) as [tl|] eqn:T; [|discriminate].
        cbn [Py.bind] in H. inversion H; subst.
        destruct Hx as [<-|Hx]; [now left|]. right. eapply IH; eauto. }
    apply (Hsc _ _ _ _ S) in Hin. cbn [fst snd] in Hin.
    rewrite <- E in Hin. apply filter_In in Hin. destruct Hin as [_ He].
    apply eligible_thresholds in He. lia.
Qed.

Lemma year_pool_empty ie hf rows m :
  ie = false \/ hf = false \/ rows = [] ->
  pool_get (year_pool ie hf rows) m = [].
Proof.
  unfold year_pool. intros [H | [H | H]]; subst; cbn [andb];
    rewrite ?andb_false_r; cbn [andb]; try apply init_pool_get.
  destruct (ie && hf && negb (my_username =? "")%string);
    apply init_pool_get.
Qed.

(** C6.  What the code does.  For every year whose bounds line 120
    computes, the function returns a months array of twelve entries, the
    entry at position [m - 1] being the one of month [m].  An entry of a
    month without eligible aggregate has winner [None], raw [None] and the
    reason ["insufficient_data"]; this is the case of every month when
    the index is missing or holds no rows.  An entry of a month with an
    eligible aggregate has a winner and raw statistics; here the code
    departs from the claim: the dictionary of lines 342-372 has no
    ["reason"] key at all, where the claim asks for the key with the value
    null (the dictionary of lines 324-333 does carry ["winner"],
    ["metrics"] and ["raw"] with [None]). *)
Theorem months_shape_and_reason (index_exists has_fts : bool)
    (rows : list Row) (probe_status : value) (year : Z) :
  year_range_ok year ->
  let pool := year_pool index_exists has_fts rows in
  exists v,
    compute_monthly_best_friends_wall_stats index_exists has_fts rows
      probe_status year = Py.Ok v
    /\ List.length (months_of v) = 12%nat
    /\ (forall m,
          1 <= m <= 12 ->
          exists item,
            nth_error (months_of v) (Z.to_nat (m - 1)) = Some (VDict item)
            /\ get item "month" = Some (VInt m)
            /\ ((eligible_of (pool_get pool m) = []
                 /\ get item "winner" = Some VNone
                 /\ get item "raw" = Some VNone
                 /\ get item "reason" = Some (VStr "insufficient_data"))
                \/ (eligible_of (pool_get pool m) <> []
                    /\ (exists wd, get item "winner" = Some (VDict wd))
                    /\ (exists rd, get item "raw" = Some (VDict rd))
                    /\ get item "reason" = None)))
    /\ (index_exists = false \/ has_fts = false \/ rows = [] ->
        forall m, eligible_of (pool_get pool m) = []).
Proof.
  intros Hy.
  intros pool.
  destruct (compute_total index_exists has_fts rows probe_status year Hy)
    as (cr & settings & Hc).
  fold pool in Hc. cbv zeta in Hc. eexists. split; [exact Hc|].
  cbn [months_of get Py.dict_get String.eqb Ascii.eqb Bool.eqb].
  split; [|split].
  - now rewrite length_map.
  - intros m Hm. rewrite range_nth by exact Hm.
    destruct (month_item_cases cr pool m Hm)
      as [[He ->]|(w & d & wd & rd & Hw & _ & -> & Hmo & Hwin & _ & Hr & _ & Hre)].
    + eexists. split; [reflexivity|]. split; [reflexivity|].
      left. repeat split. exact He.
    + exists d. split; [reflexivity|]. split; [exact Hmo|].
      right. split; [|split; [now exists wd|split; [now exists rd|exact Hre]]].
      intros E. rewrite E in Hw. destruct Hw.
  - intros H m. unfold pool. now rewrite (year_pool_empty _ _ _ m H).
Qed.

(** ** The year summary *)

Lemma month_item_good cr raw m :
  (forall a s, Py.dict_get Z.eqb raw m = Some (a, s) -> name_ok (username a)) ->
  item_good (month_item cr raw m)
  /\ item_winner (month_item cr raw m) =
       match Py.dict_get Z.eqb raw m with
       | Some (a, _) => Some (username a)
       | None => None
       end
  /\ item_month (month_item cr raw m) = m.
Proof.
  intros Hn. unfold month_item.
  destruct (Py.dict_get Z.eqb raw m) as [[a s]|] eqn:E.
  - destruct (Hn a s eq_refl) as [Hs Hne].
    split; [|split; reflexivity]. split.
    + intros counts. unfold count_winner, item_winner.
      cbn [get Py.dict_get String.eqb Ascii.eqb Bool.eqb as_dict
           value_str_or_empty].
      rewrite Hs. rewrite (proj2 (String.eqb_neq _ _) Hne). reflexivity.
    + reflexivity.
  - split; [|split; reflexivity]. split; [|reflexivity].
    intros counts. reflexivity.
Qed.

Lemma months_won_cons item L u :
  months_won (item :: L) u =
    (if won_by u item then 1 else 0) + months_won L u.
Proof.
  unfold months_won. cbn [filter]. destruct (won_by u item);
    cbn [List.length]; lia.
Qed.

Lemma months_won_nonneg L u : 0 <= months_won L u.
Proof. unfold months_won. lia. Qed.

Lemma count_of_set_same counts u n :
  count_of (Py.dict_set String.eqb counts u n) u = n.
Proof.
  unfold count_of. now rewrite (dict_get_set_same String.eqb String.eqb_spec).
Qed.

Lemma count_of_set_other counts u u' n :
  u <> u' -> count_of (Py.dict_set String.eqb counts u n) u' = count_of counts u'.
Proof.
  intros H. unfold count_of.
  now rewrite (dict_get_set_other String.eqb String.eqb_spec).
Qed.

Lemma dict_set_keys counts (u : string) (n : Z) x :
  In x (map fst (Py.dict_set String.eqb counts u n)) <->
  In x (map fst counts) \/ x = u.
Proof.
  drop_collaborators.
  destruct (Py.dict_get String.eqb counts u) as [k|] eqn:E.
  - rewrite (dict_set_keys_present String.eqb String.eqb_spec) with (v0 := k)
      by exact E.
    split; [tauto|]. intros [H| ->]; [exact H|].
    apply (dict_get_in String.eqb String.eqb_spec) in E.
    apply in_map_iff. now exists (u, k).
  - rewrite (dict_set_keys_absent String.eqb String.eqb_spec) by exact E.
    rewrite in_app_iff. cbn [In]. split.
    + intros [H|[H|[]]]; [now left|right; now symmetry].
    + intros [H|H]; [now left|right; left; now symmetry].
Qed.

Lemma dict_set_keys_nodup counts (u : string) (n : Z) :
  NoDup (map fst counts) ->
  NoDup (map fst (Py.dict_set String.eqb counts u n)).
Proof.
  intros Hnd. destruct (Py.dict_get String.eqb counts u) as [k|] eqn:E.
  - now rewrite (dict_set_keys_present String.eqb String.eqb_spec)
      with (v0 := k).
  - rewrite (dict_set_keys_absent String.eqb String.eqb_spec) by exact E.
    apply NoDup_app; [exact Hnd|repeat constructor; auto|].
    intros x Hx [<-|[]].
    now apply (dict_get_none String.eqb String.eqb_spec) in E.
Qed.

(** The tally counts, for every conversation, the months it won. *)
Lemma tally_fold L : forall counts,
  Forall item_good L ->
  NoDup (map fst counts) ->
  (forall u, In u (map fst counts) -> 0 < count_of counts u) ->
  let c' := fold_left count_winner L counts in
  NoDup (map fst c')
  /\ (forall u, count_of c' u = count_of counts u + months_won L u)
  /\ (forall u, In u (map fst c') -> 0 < count_of c' u).
Proof.
  induction L as [|item L IH]; intros counts Hg Hnd Hpos; cbn [fold_left].
  - split; [exact Hnd|]. split; [|exact Hpos].
    intros u. unfold months_won. cbn. lia.
  - inversion Hg as [|? ? [Hstep _] Hg']; subst.
    rewrite Hstep.
    destruct (item_winner item) as [w|] eqn:W.
    + destruct (IH (Py.dict_set String.eqb counts w (count_of counts w + 1)))
        as (H1 & H2 & H3); auto.
      * now apply dict_set_keys_nodup.
      * intros u Hu. apply dict_set_keys in Hu.
        destruct (String.eqb_spec w u) as [<-|Hne].
        -- rewrite count_of_set_same.
           unfold count_of.
           destruct (Py.dict_get String.eqb counts w) as [k|] eqn:E; [|lia].
           assert (In w (map fst counts)).
           { apply (dict_get_in String.eqb String.eqb_spec) in E.
             apply in_map_iff. now exists (w, k). }
           specialize (Hpos w H). unfold count_of in Hpos.
           rewrite E in Hpos. lia.
        -- rewrite count_of_set_other by exact Hne.
           destruct Hu as [Hu|Hu]; [now apply Hpos|congruence].
      * split; [exact H1|]. split; [|exact H3].
        intros u. rewrite H2, months_won_cons. unfold won_by. rewrite W.
        destruct (String.eqb_spec w u) as [<-|Hne].
        -- rewrite count_of_set_same. lia.
        -- rewrite count_of_set_other by exact Hne. lia.
    + destruct (IH counts) as (H1 & H2 & H3); auto.
      split; [exact H1|]. split; [|exact H3].
      intros u. rewrite H2, months_won_cons. unfold won_by. rewrite W. lia.
Qed.

Lemma tally_spec L :
  Forall item_good L ->
  let c := winner_month_counts L in
  NoDup (map fst c)
  /\ (forall u, count_of c u = months_won L u)
  /\ (forall u n, In (u, n) c <-> n = months_won L u /\ 0 < n).
Proof.
  intros Hg c.
  destruct (tally_fold L [] Hg) as (H1 & H2 & H3); [constructor|intros u []|].
  fold (winner_month_counts L) in H1, H2, H3. fold c in H1, H2, H3.
  assert (H2' : forall u, count_of c u = months_won L u)
    by (intros u; rewrite H2; unfold count_of; cbn; lia).
  split; [exact H1|]. split; [exact H2'|].
  intros u n. split.
  - intros Hin.
    assert (Hk : In u (map fst c)) by (apply in_map_iff; now exists (u, n)).
    pose proof (H3 u Hk) as Hp. rewrite <- H2'.
    unfold count_of in *.
    rewrite (in_dict_get String.eqb String.eqb_spec c u n H1 Hin) in *.
    auto.
  - intros [-> Hp]. rewrite <- H2' in Hp |- *. unfold count_of in *.
    destruct (Py.dict_get String.eqb c u) as [k|] eqn:E; [|lia].
    now apply (dict_get_in String.eqb String.eqb_spec).
Qed.

Lemma filled_months_good L :
  Forall item_good L ->
  filled_months_of L = map item_month (filter has_winner L).
Proof.
  induction 1 as [|item L [_ Hf] _ IH]; [reflexivity|].
  unfold filled_months_of in *. cbn [flat_map] in *.
  rewrite app_nil_r in Hf. rewrite Hf, IH. cbn [filter].
  now destruct (has_winner item).
Qed.

Lemma Zlt_strict_total : strict_total Z.lt.
Proof. constructor; intros; lia. Qed.

Lemma pair_ltb_spec (k1 k2 : Z * string) :
  (if negb (fst k1 =? fst k2) then fst k1 <? fst k2
   else String.ltb (snd k1) (snd k2)) = true
  <-> lex Z.lt str_lt k1 k2.
Proof.
  drop_collaborators.
  unfold lex, str_lt. destruct (Z.eqb_spec (fst k1) (fst k2)) as [E|E];
    cbn [negb].
  - split; [intros H; right; now split|].
    intros [H|[_ H]]; [lia|exact H].
  - rewrite Z.ltb_lt. split; [tauto|]. intros [H|[H _]]; [exact H|lia].
Qed.

Lemma champion_ltb_asym x y :
  champion_ltb x y = true -> champion_ltb y x = false.
Proof.
  apply (keyed_asym (fun x : string * Z => (- snd x, fst x))
           (lex Z.lt str_lt) _
           (lex_strict_total _ _ Zlt_strict_total str_lt_strict_total)
           pair_ltb_spec).
Qed.

Lemma champion_ltb_le_trans x y z :
  champion_ltb y x = false -> champion_ltb z y = false ->
  champion_ltb z x = false.
Proof.
  apply (keyed_le_trans (fun x : string * Z => (- snd x, fst x))
           (lex Z.lt str_lt) _
           (lex_strict_total _ _ Zlt_strict_total str_lt_strict_total)
           pair_ltb_spec).
Qed.

Lemma champion_not_lt x y :
  champion_ltb y x = false <->
  (- snd x, fst x) = (- snd y, fst y) \/ champion_lt x y.
Proof.
  apply (keyed_not_lt (fun x : string * Z => (- snd x, fst x))
           (lex Z.lt str_lt) _
           (lex_strict_total _ _ Zlt_strict_total str_lt_strict_total)
           pair_ltb_spec).
Qed.

(** The head of the sorted tally has the largest count, and among equal
    counts the smallest conversation id. *)
Lemma champion_head counts c n t :
  Py.sort champion_ltb counts = (c, n) :: t ->
  In (c, n) counts
  /\ forall u k, In (u, k) counts ->
                 k < n \/ (k = n /\ (c = u \/ str_lt c u)).
Proof.
  intros E.
  destruct (sort_head champion_ltb champion_ltb_asym champion_ltb_le_trans
              counts (c, n) t E) as [Hin Hmin].
  split; [exact Hin|]. intros u k Hu.
  specialize (Hmin (u, k) Hu). apply champion_not_lt in Hmin.
  unfold champion_lt, lex in Hmin. cbn [fst snd] in Hmin.
  destruct Hmin as [Hk|[Hk|[Hk Hs]]].
  - inversion Hk. right. split; [lia|now left].
  - left. lia.
  - right. split; [lia|now right].
Qed.

Lemma months_won_pos L u :
  0 < months_won L u <-> exists item, In item L /\ item_winner item = Some u.
Proof.
  unfold months_won. split.
  - intros H. destruct (filter (won_by u) L) as [|item t] eqn:F;
      [cbn in H; lia|].
    assert (Hin : In item (filter (won_by u) L)) by (rewrite F; now left).
    apply filter_In in Hin. destruct Hin as [Hin Hw].
    exists item. split; [exact Hin|]. unfold won_by in Hw.
    destruct (item_winner item) as [x|]; [|discriminate].
    apply String.eqb_eq in Hw. now subst.
  - intros [item [Hin Hw]].
    assert (In item (filter (won_by u) L)).
    { apply filter_In. split; [exact Hin|]. unfold won_by.
      rewrite Hw. apply String.eqb_refl. }
    destruct (filter (won_by u) L); [destruct H|cbn [List.length]; lia].
Qed.

Lemma months_good cr ie hf rows :
  Forall item_good
    (map (month_item cr (winners_raw (year_pool ie hf rows))) (range 1 13)).
Proof.
  apply Forall_forall. intros item Hin. apply in_map_iff in Hin.
  destruct Hin as [m [<- Hm]]. apply month_item_good.
  intros a s H. rewrite winners_raw_get in H.
  destruct ((1 <=? m) && (m <=? 12)); [|discriminate].
  apply best_of_some in H. destruct H as [H _].
  apply filter_In in H. destruct H as [H _].
  apply year_pool_ok in H. apply H.
Qed.

(** C8.  For every year whose bounds line 120 computes, the function
    returns, and in the year summary [monthsWithWinner] is the number of entries
    of [months] with a winner and [filledMonths] lists their month numbers
    in the order of the array; [topChampion] is [None] exactly when no
    entry has a winner; otherwise it names a conversation [c] together
    with the number of months [c] won, and every other conversation won
    fewer months, or as many and has a larger id. *)
Theorem year_summary_champion (index_exists has_fts : bool)
    (rows : list Row) (probe_status : value) (year : Z) :
  year_range_ok year ->
  exists v,
    compute_monthly_best_friends_wall_stats index_exists has_fts rows
      probe_status year = Py.Ok v
    /\ get (summary_of v) "monthsWithWinner" =
         Some (VInt (Z.of_nat
                       (List.length (filter has_winner (months_of v)))))
    /\ get (summary_of v) "filledMonths" =
         Some (VList (map VInt
                        (map item_month (filter has_winner (months_of v)))))
    /\ (get (summary_of v) "topChampion" = Some VNone <->
        forall item, In item (months_of v) -> item_winner item = None)
    /\ ((exists item, In item (months_of v) /\ has_winner item = true) ->
        exists c cd,
          get (summary_of v) "topChampion" = Some (VDict cd)
          /\ get cd "username" = Some (VStr c)
          /\ get cd "monthsWon" = Some (VInt (months_won (months_of v) c))
          /\ 0 < months_won (months_of v) c
          /\ forall u,
               u <> c ->
               months_won (months_of v) u < months_won (months_of v) c
               \/ (months_won (months_of v) u = months_won (months_of v) c
                   /\ str_lt c u)).
Proof.
  intros Hy.
  destruct (compute_total index_exists has_fts rows probe_status year Hy)
    as (cr & settings & Hc).
  cbv zeta in Hc. eexists. split; [exact Hc|].
  cbn [months_of summary_of get Py.dict_get String.eqb Ascii.eqb Bool.eqb].
  set (months := map (month_item cr
                        (winners_raw (year_pool index_exists has_fts rows)))
                   (range 1 13)).
  pose proof (months_good cr index_exists has_fts rows) as Hg.
  fold months in Hg.
  destruct (tally_spec months Hg) as (Hnd & Hcount & Hin).
  set (counts := winner_month_counts months) in *.
  rewrite (filled_months_good months Hg).
  split; [now rewrite length_map|]. split; [reflexivity|].
  assert (Hempty : counts = [] <->
                   forall item, In item months -> item_winner item = None).
  { split.
    - intros E item Hi.
      destruct (item_winner item) as [u|] eqn:W; [|reflexivity].
      exfalso.
      assert (Hp : 0 < months_won months u)
        by (apply months_won_pos; now exists item).
      assert (In (u, months_won months u) counts) by (now apply Hin).
      rewrite E in H. destruct H.
    - intros Hall. destruct counts as [|[u n] t] eqn:E; [reflexivity|].
      exfalso.
      assert (Hu : In (u, n) ((u, n) :: t)) by now left.
      apply Hin in Hu. destruct Hu as [-> Hp].
      apply months_won_pos in Hp. destruct Hp as [item [Hi W]].
      rewrite (Hall item Hi) in W. discriminate. }
  assert (Hsome : counts <> [] ->
            exists c t,
              Py.sort champion_ltb counts = (c, months_won months c) :: t
              /\ top_champion_of cr counts =
                   VDict [("username", VStr c);
                          ("displayName",
                           VStr (_pick_display_name
                                   (Py.dict_get String.eqb cr c) c));
                          ("maskedName",
                           VStr (_mask_name
                                   (_pick_display_name
                                      (Py.dict_get String.eqb cr c) c)));
                          ("monthsWon", VInt (months_won months c))]).
  { intros Hne.
    destruct (Py.sort champion_ltb counts) as [|[c n] t] eqn:S.
    - exfalso. now apply (sort_nonempty champion_ltb counts Hne).
    - destruct (champion_head counts c n t S) as [Hc' _].
      apply Hin in Hc'. destruct Hc' as [-> Hp].
      exists c, t. split; [reflexivity|].
      unfold top_champion_of. rewrite S.
      destruct counts as [|x l] eqn:E; [congruence|]. rewrite <- E.
      fold (count_of counts c). rewrite <- E in Hcount.
      now rewrite Hcount. }
  split.
  - rewrite <- Hempty. split.
    + intros H. destruct counts as [|x l] eqn:E; [reflexivity|].
      exfalso. destruct Hsome as (c & t & _ & Ht); [discriminate|].
      rewrite Ht in H. discriminate.
    + intros ->. reflexivity.
  - intros [item [Hi Hw]].
    assert (Hne : counts <> []).
    { intros E. pose proof (proj1 Hempty E item Hi) as E'.
      unfold has_winner in Hw. rewrite E' in Hw. discriminate. }
    destruct (Hsome Hne) as (c & t & Hs & Ht).
    destruct (champion_head counts c _ t Hs) as [Hc' Hmin].
    apply Hin in Hc'. destruct Hc' as [_ Hp].
    exists c. eexists. split; [now rewrite Ht|].
    split; [reflexivity|]. split; [reflexivity|]. split; [exact Hp|].
    intros u Hu.
    destruct (Z.eq_dec (months_won months u) 0) as [E0|E0]; [left; lia|].
    assert (Hu' : In (u, months_won months u) counts).
    { apply Hin. split; [reflexivity|].
      pose proof (months_won_nonneg months u). lia. }
    destruct (Hmin u _ Hu') as [H|[H [H'|H']]]; [now left|congruence|].
    right. now split.
Qed.

Lemma eligible_in a l :
  In a (eligible_of l) -> In a l /\ is_eligible a = true.
Proof. unfold eligible_of. apply filter_In. Qed.

Lemma forall_ineligible a l :
  Forall (fun b => is_eligible b = false) l -> In a l ->
  is_eligible a = false.
Proof. intros H Hin. rewrite Forall_forall in H. now apply H. Qed.

(** ** Exceptions of the scorer *)

(** The selection has no handler of its own: an exception of the scorer
    would leave the loop of the month. *)
Lemma score_all_raise_month aggs e :
  score_all (eligible_of aggs)
    (max_of (map interaction (eligible_of aggs)))
    (max_of (map active_days_count (eligible_of aggs))) = Py.Raise e ->
  month_winner aggs = Py.Raise e.
Proof.
  intros H. unfold month_winner, month_winner_with. fold score_all.
  destruct (eligible_of aggs) as [|a el] eqn:E; [discriminate|].
  now rewrite H.
Qed.

Lemma score_raise_first a rest mi ma e :
  _score_month_agg a mi ma (IZR tau_seconds) weights = Py.Raise e ->
  score_all (a :: rest) mi ma = Py.Raise e.
Proof.
  intros H. unfold score_all. cbn [score_all_with]. unfold score_call at 1.
  now rewrite H.
Qed.


(** ** Properties kept by every aggregate of the pass *)

Section AggInvariant.
Variable P : MonthConvAgg -> Prop.
Hypothesis P_new :
  forall u m d h prev s ts,
    name_ok u -> _should_keep_session u = true -> 1 <= m <= 12 ->
    P (fst (count_message (observe (new_agg u m) d h) prev s ts)).
Hypothesis P_step :
  forall a d h prev s ts,
    P a -> P (fst (count_message (observe a d h) prev s ts)).

Set Default Proof Using "Type P_new P_step".

Lemma all_aggs_init : all_aggs P init_state.
Proof using Type.
  split.
  - intros k a [].
  - intros m a H. rewrite init_pool_get in H. destruct H.
Qed.

Lemma all_aggs_flush st :
  state_ok st -> all_aggs P st -> all_aggs P (flush_conv st).
Proof using Type.
  intros Hok [Hc Hp]. destruct (flush_reset st Hok) as [Hr _].
  split.
  - intros k a. rewrite Hr. intros [].
  - intros m a. rewrite flush_conv_pool by exact Hok.
    rewrite in_app_iff. intros [H|H]; [now apply (Hp m)|].
    apply flushed_in in H. now apply (Hc m).
Qed.

Lemma all_aggs_entered st row :
  state_ok st -> all_aggs P st -> all_aggs P (entered st (row_id row)).
Proof using Type.
  intros Hok Ha. unfold entered.
  destruct (row_id row =? cur_username st)%string; [exact Ha|].
  destruct (all_aggs_flush st Hok Ha) as [Hc Hp]. split; assumption.
Qed.

Lemma all_aggs_process_row st row :
  state_ok st -> all_aggs P st -> all_aggs P (process_row st row).
Proof.
  intros Hok Ha. destruct (row_valid row) eqn:Hv;
    [|now rewrite process_row_skip].
  destruct (process_row_valid st row Hv) as [-> Hcur].
  pose proof (entered_ok st row Hok Hv) as Hok1.
  pose proof (all_aggs_entered st row Hok Ha) as Ha1.
  set (st1 := entered st (row_id row)) in *.
  destruct (_should_keep_session (row_id row)) eqn:K;
    [|rewrite process_row_idle; auto].
  set (mo := dt_month (fromtimestamp (Py.int_or_zero (row_ts row)))).
  assert (Hdec : 1 <= mo <= 12 \/ ~ 1 <= mo <= 12) by lia.
  destruct Hdec as [Hm|Hm]; [|rewrite process_row_idle; auto].
  rewrite process_row_same by auto. cbv zeta. fold mo.
  destruct Ha1 as [Hc Hp]. split; cbn [conv_month_aggs per_month_aggs];
    [|exact Hp].
  intros k a Hin. apply (dict_set_in Z.eqb Z.eqb_spec) in Hin.
  destruct Hin as [E|Hin]; [|now apply (Hc k)].
  inversion E; subst k a.
  destruct (Py.dict_get Z.eqb (conv_month_aggs st1) mo) as [a0|] eqn:G.
  - apply P_step. apply (Hc mo).
    now apply (dict_get_in Z.eqb Z.eqb_spec).
  - apply P_new; auto. now apply row_id_name_ok.
Qed.

Lemma all_aggs_run_rows rows : forall st,
  state_ok st -> all_aggs P st -> all_aggs P (run_rows st rows).
Proof.
  induction rows as [|r rows IH]; intros st Hok Ha; [exact Ha|].
  cbn [run_rows fold_left]. apply IH.
  - now apply process_row_ok.
  - now apply all_aggs_process_row.
Qed.

(** What holds after the first message of an aggregate and is kept by every
    later message holds of every aggregate of the pool. *)
Lemma pooled_aggs_hold rows m a :
  In a (pool_get (per_month_aggs (run_pass rows)) m) -> P a.
Proof.
  unfold run_pass.
  apply (all_aggs_flush (run_rows init_state rows)).
  - apply run_rows_ok, init_state_ok.
  - apply all_aggs_run_rows; [apply init_state_ok|apply all_aggs_init].
Qed.
End AggInvariant.

Set Default Proof Using "Type".

Lemma observe_fields a d h :
  username (observe a d h) = username a
  /\ month (observe a d h) = month a
  /\ incoming (observe a d h) = incoming a
  /\ outgoing (observe a d h) = outgoing a
  /\ replies (observe a d h) = replies a
  /\ sum_gap (observe a d h) = sum_gap a
  /\ sum_gap_capped (observe a d h) = sum_gap_capped a.
Proof. repeat split. Qed.

Lemma count_message_days a prev s ts :
  active_days (fst (count_message a prev s ts)) = active_days a
  /\ time_bucket_mask (fst (count_message a prev s ts)) = time_bucket_mask a.
Proof.
  unfold count_message. destruct (s =? my_username)%string.
  - destruct prev as [p|]; [|now cbn]. destruct (ts >=? p); now cbn.
  - now cbn.
Qed.

(** X1.  Every aggregate of the pool is filed under its own month, a month
    of [1..12], belongs to a conversation whose id is stripped, not empty
    and kept by the session filter, and counts at least one message. *)
Theorem pooled_aggregate_is_kept (rows : list Row) (m : Z)
    (a : MonthConvAgg) :
  In a (pool_get (per_month_aggs (run_pass rows)) m) ->
  month a = m /\ 1 <= m <= 12
  /\ Py.strip (username a) = username a /\ username a <> ""
  /\ _should_keep_session (username a) = true
  /\ 0 < total a.
Proof.
  intros Hin.
  destruct (run_pass_pool_wf rows m a Hin) as (H1 & H2 & [H3 H4] & H5 & _).
  repeat split; try assumption; try lia.
  revert Hin.
  apply (pooled_aggs_hold
           (fun a => _should_keep_session (username a) = true)).
  - intros u mo d h prev s ts _ K _.
    destruct (count_message_id (observe (new_agg u mo) d h) prev s ts)
      as [-> _]. exact K.
  - intros b d h prev s ts K.
    destruct (count_message_id (observe b d h) prev s ts) as [-> _].
    exact K.
Qed.

Lemma count_message_counters a prev s ts :
  0 <= replies a -> replies a <= outgoing a ->
  0 <= sum_gap_capped a -> sum_gap_capped a <= sum_gap a ->
  sum_gap_capped a <= 21600 * replies a ->
  let b := fst (count_message a prev s ts) in
  0 <= replies b /\ replies b <= outgoing b
  /\ 0 <= sum_gap_capped b /\ sum_gap_capped b <= sum_gap b
  /\ sum_gap_capped b <= 21600 * replies b.
Proof.
  intros H1 H2 H3 H4 H5. cbv zeta. unfold count_message.
  destruct (s =? my_username)%string.
  - destruct prev as [p|];
      [|cbn [fst replies outgoing sum_gap sum_gap_capped]; repeat split; lia].
    destruct (ts >=? p) eqn:G;
      [|cbn [fst replies outgoing sum_gap sum_gap_capped]; repeat split; lia].
    rewrite Z.geb_leb in G. apply Z.leb_le in G.
    cbn [fst replies outgoing sum_gap sum_gap_capped].
    unfold gap_cap_seconds. repeat split; lia.
  - cbn [fst replies outgoing sum_gap sum_gap_capped]. repeat split; lia.
Qed.

(** The counters of replies of the aggregates of the pool. *)
Lemma pooled_counters rows m a :
  In a (pool_get (per_month_aggs (run_pass rows)) m) ->
  0 <= replies a /\ replies a <= outgoing a
  /\ 0 <= sum_gap_capped a /\ sum_gap_capped a <= sum_gap a
  /\ sum_gap_capped a <= 21600 * replies a.
Proof.
  apply (pooled_aggs_hold
           (fun a => 0 <= replies a /\ replies a <= outgoing a
                     /\ 0 <= sum_gap_capped a
                     /\ sum_gap_capped a <= sum_gap a
                     /\ sum_gap_capped a <= 21600 * replies a)).
  - intros u mo d h prev s ts _ _ _.
    apply count_message_counters;
      cbn [observe new_agg replies outgoing sum_gap sum_gap_capped]; lia.
  - intros b d h prev s ts (H1 & H2 & H3 & H4 & H5).
    apply count_message_counters;
      cbn [observe replies outgoing sum_gap sum_gap_capped]; assumption.
Qed.

Lemma avg_capped_le_cap a :
  0 <= sum_gap_capped a -> sum_gap_capped a <= 21600 * replies a ->
  (0 <= avg_reply_seconds_capped a <= 21600)%R.
Proof.
  intros H3 H5. unfold avg_reply_seconds_capped.
  destruct (Z.leb_spec (replies a) 0) as [G|G]; [lra|].
  assert (Hr : (0 < IZR (replies a))%R) by now apply IZR_lt.
  pose proof (Rinv_0_lt_compat _ Hr) as Hi.
  assert (E : (IZR (replies a) * / IZR (replies a) = 1)%R)
    by (apply Rinv_r; lra).
  apply IZR_le in H3, H5. rewrite mult_IZR in H5.
  unfold Rdiv. split.
  - apply Rmult_le_pos; lra.
  - replace 21600%R with (21600 * IZR (replies a) * / IZR (replies a))%R
      by (rewrite Rmult_assoc, E; lra).
    apply Rmult_le_compat_r; lra.
Qed.

(** X2.  In every aggregate of the pool the replies are at most the
    messages of the owner, the capped sum of gaps is at most the sum of
    gaps and at most 21600 per reply; so the capped average reply time is
    at most the plain average and at most six hours. *)
Theorem pooled_reply_counters (rows : list Row) (m : Z) (a : MonthConvAgg) :
  In a (pool_get (per_month_aggs (run_pass rows)) m) ->
  0 <= replies a <= outgoing a
  /\ 0 <= sum_gap_capped a <= sum_gap a
  /\ sum_gap_capped a <= 21600 * replies a
  /\ (0 <= avg_reply_seconds_capped a <= avg_reply_seconds a)%R
  /\ (avg_reply_seconds_capped a <= 21600)%R.
Proof.
  intros Hin.
  destruct (pooled_counters rows m a Hin) as (H1 & H2 & H3 & H4 & H5).
  destruct (avg_capped_le_cap a H3 H5) as [C0 C1].
  split; [lia|]. split; [lia|]. split; [exact H5|].
  split; [split; [exact C0|]|exact C1].
  unfold avg_reply_seconds_capped, avg_reply_seconds.
  destruct (Z.leb_spec (replies a) 0) as [G|G]; [lra|].
  assert (Hr : (0 < IZR (replies a))%R) by now apply IZR_lt.
  pose proof (Rinv_0_lt_compat _ Hr) as Hi.
  apply IZR_le in H4. unfold Rdiv. apply Rmult_le_compat_r; lra.
Qed.

Lemma set_add_length d (l : set Z) :
  (List.length (set_add Z.eq_dec d l) <= S (List.length l))%nat.
Proof.
  induction l as [|x l IH]; cbn [set_add List.length]; [lia|].
  destruct (Z.eq_dec d x); cbn [List.length]; lia.
Qed.

Lemma bucket_bit_cases mask b :
  0 <= mask <= 15 -> 0 <= b <= 3 ->
  let pc x :=
    Z.land (Z.land x 15) 1 + Z.land (Z.shiftr (Z.land x 15) 1) 1
    + Z.land (Z.shiftr (Z.land x 15) 2) 1
    + Z.land (Z.shiftr (Z.land x 15) 3) 1 in
  let mask' := Z.lor mask (Z.shiftl 1 b) in
  1 <= mask' <= 15 /\ 1 <= pc mask' /\ pc mask <= pc mask' <= pc mask + 1.
Proof.
  intros Hm Hb.
  assert (Hb' : b = 0 \/ b = 1 \/ b = 2 \/ b = 3) by lia.
  assert (Hm' : mask = 0 \/ mask = 1 \/ mask = 2 \/ mask = 3 \/ mask = 4
                \/ mask = 5 \/ mask = 6 \/ mask = 7 \/ mask = 8 \/ mask = 9
                \/ mask = 10 \/ mask = 11 \/ mask = 12 \/ mask = 13
                \/ mask = 14 \/ mask = 15) by lia.
  clear Hm Hb.
  repeat (destruct Hb' as [Hb'|Hb']; [subst b|]); try subst b;
    repeat (destruct Hm' as [Hm'|Hm']; [subst mask|]); try subst mask;
    vm_compute; repeat split; discriminate.
Qed.

(** What the calendar part of an aggregate satisfies before a message is
    counted, and after. *)
Lemma observe_calendar a d h prev s ts :
  NoDup (active_days a) ->
  (forall x, In x (active_days a) -> 1 <= x <= 31) ->
  0 <= time_bucket_mask a <= 15 ->
  active_days_count a <= total a ->
  time_bucket_count a <= total a ->
  0 <= total a ->
  let b := fst (count_message (observe a d h) prev s ts) in
  NoDup (active_days b)
  /\ (forall x, In x (active_days b) -> 1 <= x <= 31)
  /\ 1 <= time_bucket_mask b <= 15
  /\ 1 <= time_bucket_count b
  /\ active_days_count b <= total b
  /\ time_bucket_count b <= total b.
Proof.
  intros Hnd Hr Hm Hd Ht H0. cbv zeta.
  destruct (count_message_days (observe a d h) prev s ts) as [Ed Em].
  unfold active_days_count, time_bucket_count in *.
  rewrite count_message_total, Ed, Em.
  replace (total (observe a d h)) with (total a) by reflexivity.
  cbn [observe active_days time_bucket_mask].
  assert (Hb : 0 <= Z.max 0 (Z.min 3 (h / 6)) <= 3) by lia.
  destruct (bucket_bit_cases (time_bucket_mask a) _ Hm Hb) as (B1 & B2 & B3).
  cbv zeta in B2, B3.
  split; [|split; [|split; [exact B1|split; [exact B2|split; [|lia]]]]].
  - destruct ((1 <=? d) && (d <=? 31)); [|exact Hnd].
    now apply set_add_nodup.
  - intros x Hx. destruct ((1 <=? d) && (d <=? 31)) eqn:G; [|now apply Hr].
    apply set_add_iff in Hx. destruct Hx as [->|Hx]; [|now apply Hr].
    apply andb_prop in G. destruct G as [G1 G2].
    apply Z.leb_le in G1. apply Z.leb_le in G2. lia.
  - destruct ((1 <=? d) && (d <=? 31)); [|lia].
    pose proof (set_add_length d (active_days a)). lia.
Qed.

Lemma nodup_days_bound (l : list Z) :
  NoDup l -> (forall x, In x l -> 1 <= x <= 31) ->
  (List.length l <= 31)%nat.
Proof.
  intros Hnd Hr.
  change 31%nat with (List.length (range 1 32)).
  apply NoDup_incl_length; [exact Hnd|].
  intros x Hx. apply range_in. specialize (Hr x Hx). lia.
Qed.

(** The calendar part of the aggregates of the pool. *)
Lemma pooled_calendar rows m a :
  In a (pool_get (per_month_aggs (run_pass rows)) m) ->
  NoDup (active_days a)
  /\ (forall x, In x (active_days a) -> 1 <= x <= 31)
  /\ 1 <= time_bucket_mask a <= 15
  /\ 1 <= time_bucket_count a
  /\ active_days_count a <= total a
  /\ time_bucket_count a <= total a
  /\ 0 <= total a.
Proof.
  apply (pooled_aggs_hold
           (fun a => NoDup (active_days a)
                     /\ (forall x, In x (active_days a) -> 1 <= x <= 31)
                     /\ 1 <= time_bucket_mask a <= 15
                     /\ 1 <= time_bucket_count a
                     /\ active_days_count a <= total a
                     /\ time_bucket_count a <= total a
                     /\ 0 <= total a)).
  - intros u mo d h prev s ts _ _ _.
    destruct (observe_calendar (new_agg u mo) d h prev s ts)
      as (H1 & H2 & H3 & H4 & H5 & H6).
    + constructor.
    + intros x [].
    + cbn [new_agg time_bucket_mask]. lia.
    + reflexivity.
    + reflexivity.
    + reflexivity.
    + split; [exact H1|]. split; [exact H2|]. split; [exact H3|].
      split; [exact H4|]. split; [exact H5|]. split; [exact H6|].
      rewrite count_message_total. unfold total.
      cbn [observe new_agg incoming outgoing]. lia.
  - intros b d h prev s ts (H1 & H2 & H3 & H4 & H5 & H6 & H7).
    destruct (observe_calendar b d h prev s ts)
      as (G1 & G2 & G3 & G4 & G5 & G6); try assumption; try lia.
    split; [exact G1|]. split; [exact G2|]. split; [exact G3|].
    split; [exact G4|]. split; [exact G5|]. split; [exact G6|].
    rewrite count_message_total.
    replace (total (observe b d h)) with (total b) by reflexivity. lia.
Qed.

(** X3.  In every aggregate of the pool the active days are distinct days
    of [1..31], so there are at most 31 of them; the time bucket mask lies
    in [1..15] and between one and four buckets are set; neither the days
    nor the buckets outnumber the messages. *)
Theorem pooled_calendar_bounds (rows : list Row) (m : Z) (a : MonthConvAgg) :
  In a (pool_get (per_month_aggs (run_pass rows)) m) ->
  NoDup (active_days a)
  /\ (forall d, In d (active_days a) -> 1 <= d <= 31)
  /\ 0 <= active_days_count a <= 31
  /\ active_days_count a <= total a
  /\ 1 <= time_bucket_mask a <= 15
  /\ 1 <= time_bucket_count a <= 4
  /\ time_bucket_count a <= total a.
Proof.
  intros Hin.
  destruct (pooled_calendar rows m a Hin) as (H1 & H2 & H3 & H4 & H5 & H6 & _).
  pose proof (nodup_days_bound _ H1 H2) as Hl.
  pose proof (time_bucket_count_bounds a) as Hb.
  unfold active_days_count in *.
  split; [exact H1|]. split; [exact H2|]. split; [lia|]. split; [lia|].
  split; [exact H3|]. split; [lia|]. exact H6.
Qed.

(** ** Rows the pass does not read *)

Lemma run_rows_valid rows : forall st,
  run_rows st (filter row_valid rows) = run_rows st rows.
Proof.
  induction rows as [|r rows IH]; intros st; [reflexivity|].
  cbn [filter]. destruct (row_valid r) eqn:Hv; cbn [run_rows fold_left].
  - apply IH.
  - rewrite process_row_skip by exact Hv. apply IH.
Qed.

(** X4.  Rows with a timestamp that is missing, zero or negative, or with
    an empty conversation id, change nothing: the pass over all the rows
    ends in the state of the pass over the rows it reads, wherever the
    other rows stand. *)
Theorem unread_rows_change_nothing (rows : list Row) :
  run_pass rows = run_pass (filter row_valid rows)
  /\ forall before after row,
       row_valid row = false ->
       run_pass (before ++ row :: after) = run_pass (before ++ after).
Proof.
  split.
  - unfold run_pass. now rewrite run_rows_valid.
  - intros before after row Hv. unfold run_pass.
    rewrite !run_rows_app. cbn [run_rows fold_left].
    now rewrite process_row_skip.
Qed.

(** ** No message is lost or counted twice *)

Lemma sum_of_app f l l' : sum_of f (l ++ l') = sum_of f l + sum_of f l'.
Proof.
  induction l as [|a l IH]; cbn [app sum_of fold_right]; [reflexivity|].
  fold (sum_of f (l ++ l')). fold (sum_of f l). lia.
Qed.

Lemma months_sum_add F G ms :
  months_sum (fun m => F m + G m) ms = months_sum F ms + months_sum G ms.
Proof.
  induction ms as [|m ms IH]; cbn [months_sum fold_right]; [reflexivity|].
  fold (months_sum (fun m => F m + G m) ms) (months_sum F ms)
    (months_sum G ms). lia.
Qed.

Lemma months_sum_ext F G ms :
  (forall m, In m ms -> F m = G m) -> months_sum F ms = months_sum G ms.
Proof.
  induction ms as [|m ms IH]; intros H; cbn [months_sum fold_right];
    [reflexivity|].
  fold (months_sum F ms) (months_sum G ms).
  rewrite (H m) by now left. rewrite IH; [reflexivity|].
  intros k Hk. apply H. now right.
Qed.

Lemma months_sum_indicator k x ms :
  NoDup ms -> In k ms ->
  months_sum (fun m => if k =? m then x else 0) ms = x.
Proof.
  induction 1 as [|m ms Hm Hnd IH]; [intros []|].
  cbn [months_sum fold_right].
  fold (months_sum (fun m => if k =? m then x else 0) ms).
  intros [->|Hin].
  - rewrite Z.eqb_refl.
    rewrite (months_sum_ext _ (fun _ => 0)).
    + assert (Z0 : months_sum (fun _ => 0) ms = 0)
        by (clear; induction ms; cbn; auto).
      lia.
    + intros j Hj. destruct (Z.eqb_spec k j); [congruence|reflexivity].
  - destruct (Z.eqb_spec k m) as [->|_]; [contradiction|]. now rewrite IH.
Qed.

Lemma flushed_cons k a conv m :
  flushed ((k, a) :: conv) m =
    (if (k =? m) && (1 <=? k) && (k <=? 12) && (0 <? total a)
     then [a] else []) ++ flushed conv m.
Proof.
  unfold flushed. cbn [filter fst snd].
  now destruct ((k =? m) && (1 <=? k) && (k <=? 12) && (0 <? total a)).
Qed.

Lemma flushed_sum f conv :
  (forall k a, In (k, a) conv -> 1 <= k <= 12 /\ 0 < total a) ->
  months_sum (fun m => sum_of f (flushed conv m)) (range 1 13)
  = conv_sum f conv.
Proof.
  induction conv as [|[k a] conv IH]; intros H.
  - unfold flushed, conv_sum. cbn [filter map sum_of fold_right].
    generalize (range 1 13). induction l; cbn; auto.
  - destruct (H k a) as [Hk Ht]; [now left|].
    rewrite (months_sum_ext _
               (fun m => (if k =? m then f a else 0)
                         + sum_of f (flushed conv m))).
    + rewrite months_sum_add, months_sum_indicator;
        [|apply range_nodup|apply range_in; lia].
      rewrite IH by (intros j b Hj; apply H; now right).
      unfold conv_sum. cbn [map snd sum_of fold_right]. reflexivity.
    + intros m _. rewrite flushed_cons, sum_of_app.
      replace (1 <=? k) with true by (symmetry; apply Z.leb_le; lia).
      replace (k <=? 12) with true by (symmetry; apply Z.leb_le; lia).
      replace (0 <? total a) with true by (symmetry; apply Z.ltb_lt; lia).
      rewrite !andb_true_r.
      destruct (k =? m); cbn [sum_of fold_right]; lia.
Qed.

Lemma conv_sum_set f conv k v :
  conv_sum f (Py.dict_set Z.eqb conv k v) =
    conv_sum f conv
    - match Py.dict_get Z.eqb conv k with Some a => f a | None => 0 end
    + f v.
Proof.
  unfold conv_sum.
  induction conv as [|[k' a] conv IH];
    cbn [Py.dict_set Py.dict_get map snd sum_of fold_right]; [lia|].
  destruct (k' =? k); cbn [map snd sum_of fold_right].
  - fold (sum_of f (map snd conv)). lia.
  - fold (sum_of f (map snd (Py.dict_set Z.eqb conv k v)))
      (sum_of f (map snd conv)) in *. lia.
Qed.

Lemma flush_conv_sum f st :
  state_ok st ->
  pool_sum f (per_month_aggs (flush_conv st))
  = pool_sum f (per_month_aggs st) + conv_sum f (conv_month_aggs st).
Proof.
  intros Hok. unfold pool_sum.
  rewrite (months_sum_ext _
             (fun m => sum_of f (pool_get (per_month_aggs st) m)
                       + sum_of f (flushed (conv_month_aggs st) m))).
  - rewrite months_sum_add, flushed_sum; [reflexivity|].
    intros k a Hin. destruct (ok_conv st Hok k a Hin) as (_ & _ & H & _ & Ht & _).
    split; assumption.
  - intros m _. now rewrite flush_conv_pool, sum_of_app.
Qed.

Section Conservation.
Variable f : MonthConvAgg -> Z.
Variable g : Z -> string -> Z.
Hypothesis f_new : forall u m, f (new_agg u m) = 0.
Hypothesis f_step :
  forall a d h prev s ts,
    f (fst (count_message (observe a d h) prev s ts)) = f a + g (month a) s.

Set Default Proof Using "Type f_new f_step".

Lemma entered_sum st row :
  state_ok st ->
  pool_sum f (per_month_aggs (entered st (row_id row)))
  + conv_sum f (conv_month_aggs (entered st (row_id row)))
  = pool_sum f (per_month_aggs st) + conv_sum f (conv_month_aggs st).
Proof using Type.
  intros Hok. unfold entered.
  destruct (row_id row =? cur_username st)%string; [reflexivity|].
  cbn [per_month_aggs conv_month_aggs].
  rewrite flush_conv_sum by exact Hok.
  destruct (flush_reset st Hok) as [-> _]. unfold conv_sum.
  cbn [map sum_of fold_right]. lia.
Qed.

Lemma process_row_sum st row :
  state_ok st ->
  pool_sum f (per_month_aggs (process_row st row))
  + conv_sum f (conv_month_aggs (process_row st row))
  = pool_sum f (per_month_aggs st) + conv_sum f (conv_month_aggs st)
    + rows_weight g [row].
Proof.
  intros Hok. unfold rows_weight, row_counted, row_month. cbn [fold_right].
  destruct (row_valid row) eqn:Hv;
    [|rewrite process_row_skip by exact Hv; cbn [andb]; lia].
  destruct (process_row_valid st row Hv) as [-> Hcur].
  rewrite <- (entered_sum st row Hok).
  pose proof (entered_ok st row Hok Hv) as Hok1.
  set (st1 := entered st (row_id row)) in *.
  cbn [andb].
  destruct (_should_keep_session (row_id row)) eqn:K;
    [|rewrite process_row_idle by auto; cbn [andb]; lia].
  set (mo := dt_month (fromtimestamp (Py.int_or_zero (row_ts row)))).
  assert (Hdec : 1 <= mo <= 12 \/ ~ 1 <= mo <= 12) by lia.
  destruct Hdec as [Hm|Hm].
  - rewrite process_row_same by auto. cbv zeta. fold mo.
    cbn [per_month_aggs conv_month_aggs].
    rewrite conv_sum_set, f_step.
    replace (1 <=? mo) with true by (symmetry; apply Z.leb_le; lia).
    replace (mo <=? 12) with true by (symmetry; apply Z.leb_le; lia).
    cbn [andb].
    destruct (Py.dict_get Z.eqb (conv_month_aggs st1) mo) as [a0|] eqn:E.
    + apply (dict_get_in Z.eqb Z.eqb_spec) in E.
      destruct (ok_conv st1 Hok1 mo a0 E) as (_ & -> & _). lia.
    + rewrite f_new. cbn [new_agg month]. lia.
  - rewrite process_row_idle by auto.
    cbn [andb].
    replace ((1 <=? mo) && (mo <=? 12)) with false; [lia|].
    symmetry. apply andb_false_iff.
    destruct (Z.leb_spec 1 mo); [right; apply Z.leb_gt; lia|now left].
Qed.

Lemma rows_weight_cons r rows :
  rows_weight g (r :: rows) = rows_weight g [r] + rows_weight g rows.
Proof using Type.
  unfold rows_weight. cbn [fold_right]. lia.
Qed.

Lemma run_rows_sum rows : forall st,
  state_ok st ->
  pool_sum f (per_month_aggs (run_rows st rows))
  + conv_sum f (conv_month_aggs (run_rows st rows))
  = pool_sum f (per_month_aggs st) + conv_sum f (conv_month_aggs st)
    + rows_weight g rows.
Proof.
  induction rows as [|r rows IH]; intros st Hok.
  - unfold rows_weight. cbn. lia.
  - cbn [run_rows fold_left]. fold (run_rows (process_row st r) rows).
    rewrite IH by now apply process_row_ok.
    rewrite process_row_sum by exact Hok.
    rewrite (rows_weight_cons r rows). lia.
Qed.

(** The sum of the counter over the pool is what the counted rows add. *)
Lemma run_pass_sum rows :
  pool_sum f (per_month_aggs (run_pass rows)) = rows_weight g rows.
Proof.
  unfold run_pass.
  rewrite flush_conv_sum by (apply run_rows_ok, init_state_ok).
  rewrite run_rows_sum by apply init_state_ok.
  cbn [conv_month_aggs init_state]. unfold conv_sum at 1.
  assert (pool_sum f (per_month_aggs init_state) = 0) by reflexivity.
  cbn [map sum_of fold_right]. lia.
Qed.
End Conservation.

Set Default Proof Using "Type".

Lemma rows_weight_count (p : Z -> string -> bool) rows :
  rows_weight (fun m s => if p m s then 1 else 0) rows
  = count_rows
      (fun r => row_counted r
                && p (row_month r)
                     (Py.strip (Py.str_or_empty (row_sender r)))) rows.
Proof.
  unfold rows_weight, count_rows.
  induction rows as [|r rows IH]; [reflexivity|].
  cbn [fold_right filter]. rewrite IH.
  destruct (row_counted r); cbn [andb]; [|lia].
  destruct (p _); cbn [List.length]; lia.
Qed.

Lemma count_message_sides a prev s ts :
  incoming (fst (count_message a prev s ts)) =
    incoming a + (if (s =? my_username)%string then 0 else 1)
  /\ outgoing (fst (count_message a prev s ts)) =
       outgoing a + (if (s =? my_username)%string then 1 else 0).
Proof.
  unfold count_message. destruct (s =? my_username)%string.
  - destruct prev as [p|]; [|cbn; lia]. destruct (ts >=? p); cbn; lia.
  - cbn. lia.
Qed.

(** ** The scores of the aggregates of the pool *)

(** X6.  Whatever the maxima of the month, the scorer returns for an
    aggregate of the pool: the speed score is at least 1/13, as the capped
    average is at most six hours; the coverage score is at least 1/4, as
    one bucket is set; the other two scores are not negative; so the final
    score is positive. *)
Theorem pooled_score_positive (rows : list Row) (m : Z) (a : MonthConvAgg)
    (maxInteraction maxActiveDays : Z) :
  In a (pool_get (per_month_aggs (run_pass rows)) m) ->
  exists s,
    _score_month_agg a maxInteraction maxActiveDays (IZR tau_seconds) weights
      = Py.Ok s
    /\ (0 <= s_interaction s)%R
    /\ (1 / 13 <= s_speed s <= 1)%R
    /\ (0 <= s_continuity s)%R
    /\ (1 / 4 <= s_coverage s <= 1)%R
    /\ (0.30 / 13 + 0.10 / 4 <= s_final s)%R.
Proof.
  intros Hin.
  destruct (run_pass_pool_wf rows m a Hin) as (_ & _ & _ & _ & Hwf).
  destruct (pooled_counters rows m a Hin) as (_ & _ & H3 & _ & H5).
  destruct (pooled_calendar rows m a Hin) as (_ & _ & _ & H4 & _).
  destruct (avg_capped_le_cap a H3 H5) as [C0 C1].
  pose proof (time_bucket_count_bounds a) as Hb.
  pose proof (interaction_nonneg a Hwf) as Hi0.
  pose proof (active_days_count_nonneg a) as Hd0.
  eexists. split; [apply score_month_agg_total; exact Hwf|].
  rewrite score_total_spec by exact Hwf.
  unfold spec_score. cbn [s_interaction s_speed s_continuity s_coverage s_final].
  rewrite avg_capped_spec by exact Hwf.
  set (g := avg_reply_seconds_capped a) in *.
  assert (Hden : (0 < ln (1 + IZR (Z.max 1 maxInteraction)))%R).
  { apply ln1p_pos. apply IZR_lt. lia. }
  assert (Hi : (0 <= ln (1 + IZR (interaction a))
                     / ln (1 + IZR (Z.max 1 maxInteraction)))%R).
  { apply Rmult_le_pos; [apply ln1p_nonneg; now apply IZR_le|].
    left. now apply Rinv_0_lt_compat. }
  assert (Hc : (0 <= IZR (active_days_count a)
                     / IZR (Z.max 1 maxActiveDays))%R).
  { apply Rmult_le_pos; [now apply IZR_le|].
    left. apply Rinv_0_lt_compat. apply IZR_lt. lia. }
  assert (Hs : (1 / 13 <= 1 / (1 + g / 1800) <= 1)%R).
  { assert (G : (1 <= 1 + g / 1800 <= 13)%R) by lra.
    split.
    - apply Rmult_le_reg_r with (r := (13 * (1 + g / 1800))%R); [lra|].
      field_simplify; lra.
    - apply Rmult_le_reg_r with (r := (1 + g / 1800)%R); [lra|].
      field_simplify; lra. }
  assert (Hv : (1 / 4 <= IZR (time_bucket_count a) / 4 <= 1)%R).
  { destruct Hb as [_ Hb]. apply IZR_le in H4, Hb. lra. }
  split; [exact Hi|]. split; [exact Hs|]. split; [exact Hc|].
  split; [exact Hv|]. lra.
Qed.

(** X7.  The scorer is monotone: with the same maxima, an aggregate with
    at least the interaction, the active days and the time buckets of
    another, and at most its capped average reply time, has at least its
    four scores and its final score. *)
Theorem score_dominance (a b : MonthConvAgg)
    (maxInteraction maxActiveDays : Z) :
  agg_wf a -> agg_wf b ->
  interaction a <= interaction b ->
  (avg_reply_seconds_capped b <= avg_reply_seconds_capped a)%R ->
  active_days_count a <= active_days_count b ->
  time_bucket_count a <= time_bucket_count b ->
  exists sa sb,
    _score_month_agg a maxInteraction maxActiveDays (IZR tau_seconds) weights
      = Py.Ok sa
    /\ _score_month_agg b maxInteraction maxActiveDays (IZR tau_seconds)
         weights = Py.Ok sb
    /\ (s_interaction sa <= s_interaction sb)%R
    /\ (s_speed sa <= s_speed sb)%R
    /\ (s_continuity sa <= s_continuity sb)%R
    /\ (s_coverage sa <= s_coverage sb)%R
    /\ (s_final sa <= s_final sb)%R.
Proof.
  intros Ha Hb Hi Hg Hd Hc.
  pose proof (interaction_nonneg a Ha) as Hi0.
  pose proof (avg_capped_nonneg a Ha) as Ga.
  pose proof (avg_capped_nonneg b Hb) as Gb.
  eexists. eexists.
  split; [apply score_month_agg_total; exact Ha|].
  split; [apply score_month_agg_total; exact Hb|].
  rewrite !score_total_spec by assumption.
  unfold spec_score. cbn [s_interaction s_speed s_continuity s_coverage s_final].
  rewrite !avg_capped_spec by assumption.
  set (ga := avg_reply_seconds_capped a) in *.
  set (gb := avg_reply_seconds_capped b) in *.
  assert (Hden : (0 < ln (1 + IZR (Z.max 1 maxInteraction)))%R).
  { apply ln1p_pos. apply IZR_lt. lia. }
  assert (Hmax : (0 < IZR (Z.max 1 maxActiveDays))%R)
    by (apply IZR_lt; lia).
  assert (H1 : (ln (1 + IZR (interaction a))
                / ln (1 + IZR (Z.max 1 maxInteraction))
                <= ln (1 + IZR (interaction b))
                   / ln (1 + IZR (Z.max 1 maxInteraction)))%R).
  { apply Rmult_le_compat_r; [left; now apply Rinv_0_lt_compat|].
    apply ln1p_mono; apply IZR_le; assumption. }
  assert (H2 : (1 / (1 + ga / 1800) <= 1 / (1 + gb / 1800))%R).
  { unfold Rdiv at 1 3. rewrite !Rmult_1_l.
    apply Rinv_le_contravar; lra. }
  assert (H3 : (IZR (active_days_count a) / IZR (Z.max 1 maxActiveDays)
                <= IZR (active_days_count b) / IZR (Z.max 1 maxActiveDays))%R).
  { apply Rmult_le_compat_r; [left; now apply Rinv_0_lt_compat|].
    now apply IZR_le. }
  assert (H4 : (IZR (time_bucket_count a) / 4
                <= IZR (time_bucket_count b) / 4)%R).
  { apply IZR_le in Hc. lra. }
  split; [exact H1|]. split; [exact H2|]. split; [exact H3|].
  split; [exact H4|]. lra.
Qed.

(** X8.  In a month with an eligible aggregate, the scores of every
    eligible aggregate lie in [0,1]; some eligible aggregate has the
    interaction score 1 and some has the continuity score 1; an aggregate
    that has both the largest interaction and the most active days scores
    at least 0.60. *)
Theorem month_scores_normalised (aggs : list MonthConvAgg) :
  Forall agg_wf aggs ->
  eligible_of aggs <> [] ->
  let el := eligible_of aggs in
  (forall a, In a el -> scores_in_unit (month_score el a))
  /\ (exists a, In a el /\ s_interaction (month_score el a) = 1%R)
  /\ (exists a, In a el /\ s_continuity (month_score el a) = 1%R)
  /\ (forall a, In a el ->
        s_interaction (month_score el a) = 1%R ->
        s_continuity (month_score el a) = 1%R ->
        (0.60 <= s_final (month_score el a))%R).
Proof.
  intros Hwf Hne el.
  assert (Hel : forall a, In a el -> agg_wf a /\ is_eligible a = true).
  { intros a Ha. unfold el, eligible_of in Ha. apply filter_In in Ha.
    destruct Ha as [Ha He]. rewrite Forall_forall in Hwf. auto. }
  assert (Hi : map interaction el <> []).
  { intros E. apply map_eq_nil in E. now apply Hne. }
  assert (Hd : map active_days_count el <> []).
  { intros E. apply map_eq_nil in E. now apply Hne. }
  destruct (max_of_spec _ Hi) as [Mi1 Mi2].
  destruct (max_of_spec _ Hd) as [Md1 Md2].
  assert (Unit : forall a, In a el -> scores_in_unit (month_score el a)).
  { intros a Ha. destruct (Hel a Ha) as [Wa _]. unfold month_score.
    rewrite <- (score_total_spec a) by exact Wa.
    apply score_total_in_unit; [exact Wa| |].
    - apply Mi2. now apply in_map.
    - apply Md2. now apply in_map. }
  split; [exact Unit|]. split; [|split].
  - apply in_map_iff in Mi1. destruct Mi1 as (a & Ea & Ha).
    exists a. split; [exact Ha|].
    destruct (Hel a Ha) as [_ He]. apply eligible_thresholds in He.
    unfold month_score, spec_score. cbn [s_interaction]. rewrite <- Ea.
    rewrite Z.max_r by lia.
    apply Rinv_r. apply Rgt_not_eq. apply ln1p_pos. apply IZR_lt. lia.
  - apply in_map_iff in Md1. destruct Md1 as (a & Ea & Ha).
    exists a. split; [exact Ha|].
    destruct (Hel a Ha) as [_ He]. apply eligible_thresholds in He.
    unfold month_score, spec_score. cbn [s_continuity]. rewrite <- Ea.
    rewrite Z.max_r by lia.
    apply Rinv_r. apply Rgt_not_eq. apply IZR_lt. lia.
  - intros a Ha E1 E2. destruct (Unit a Ha) as (_ & U2 & _ & U4 & _).
    unfold in_unit in *.
    assert (F : s_final (month_score el a)
                = (0.40 * s_interaction (month_score el a)
                   + 0.30 * s_speed (month_score el a)
                   + 0.20 * s_continuity (month_score el a)
                   + 0.10 * s_coverage (month_score el a))%R)
      by reflexivity.
    rewrite F, E1, E2. lra.
Qed.

(** ** The pass over two blocks of rows *)

Lemma last_cons {A : Type} (x d : A) (l : list A) :
  last (x :: l) d = last l x.
Proof.
  revert x d. induction l as [|y l IH]; intros x d; [reflexivity|].
  change (last (x :: y :: l) d) with (last (y :: l) d).
  rewrite (IH y d). symmetry. apply IH.
Qed.

Lemma row_valid_id row : row_valid row = true -> row_id row <> "".
Proof.
  unfold row_valid. intros Hv. apply negb_true_iff in Hv.
  apply orb_false_iff in Hv. destruct Hv as [_ Hv].
  now apply String.eqb_neq.
Qed.

(** The conversation in progress is the one of the last row read. *)
Lemma run_rows_cur rows : forall st,
  cur_username (run_rows st rows) = last (conv_ids rows) (cur_username st).
Proof.
  induction rows as [|r rows IH]; intros st; [reflexivity|].
  cbn [run_rows fold_left]. fold (run_rows (process_row st r) rows).
  rewrite IH. unfold conv_ids. cbn [filter].
  destruct (row_valid r) eqn:Hv.
  - cbn [map]. rewrite last_cons. now rewrite process_row_cur.
  - now rewrite process_row_skip.
Qed.

Lemma flush_conv_framed P s s' :
  state_ok s -> state_ok s' -> framed P s s' ->
  framed P (flush_conv s) (flush_conv s').
Proof.
  intros Hs Hs' [(Hc & Hv & Hp) Hpool]. split.
  - destruct (flush_reset s Hs) as [E1 E2].
    destruct (flush_reset s' Hs') as [E1' E2'].
    unfold same_conv. rewrite E1, E2, E1', E2'.
    split; [|now split].
    unfold flush_conv. rewrite <- Hc.
    now destruct (cur_username s =? "")%string.
  - intros m. rewrite !flush_conv_pool by assumption.
    rewrite Hpool, Hv. now rewrite app_assoc.
Qed.

Lemma process_row_framed P s s' row :
  state_ok s -> state_ok s' -> framed P s s' ->
  framed P (process_row s row) (process_row s' row).
Proof.
  intros Hs Hs' F. split.
  - apply process_row_same_conv. apply F.
  - intros m. rewrite !process_row_pool.
    destruct F as [(Hc & Hv & Hp) Hpool]. rewrite <- Hc.
    destruct (row_valid row && negb (row_id row =? cur_username s)%string);
      [|apply Hpool].
    rewrite !flush_conv_pool by assumption.
    rewrite Hpool, Hv. now rewrite app_assoc.
Qed.

Lemma run_rows_framed P rows : forall s s',
  state_ok s -> state_ok s' -> framed P s s' ->
  framed P (run_rows s rows) (run_rows s' rows).
Proof.
  induction rows as [|r rows IH]; intros s s' Hs Hs' F; [exact F|].
  cbn [run_rows fold_left].
  apply IH; try (now apply process_row_ok).
  now apply process_row_framed.
Qed.

(** A block of rows read after another conversation: the pass goes on as
    from the initial state, behind what the pool holds after a flush. *)
Lemma run_rows_block st rows :
  state_ok st ->
  hd_error (conv_ids rows) <> Some (cur_username st) ->
  forall m,
    pool_get (per_month_aggs (flush_conv (run_rows st rows))) m =
      pool_get (per_month_aggs (flush_conv st)) m
      ++ pool_get (per_month_aggs (run_pass rows)) m.
Proof.
  intros Hok. induction rows as [|r rows IH]; intros Hhd m.
  - unfold run_pass. cbn [run_rows fold_left].
    rewrite (flush_conv_idle init_state) by reflexivity.
    rewrite init_pool_get. now rewrite app_nil_r.
  - unfold run_pass. cbn [run_rows fold_left].
    fold (run_rows (process_row st r) rows)
      (run_rows (process_row init_state r) rows).
    destruct (row_valid r) eqn:Hv.
    + assert (Hid : row_id r <> cur_username st).
      { intros E. apply Hhd. unfold conv_ids. cbn [filter]. rewrite Hv.
        cbn [map hd_error]. now rewrite E. }
      assert (Hid0 : row_id r <> cur_username init_state).
      { cbn [init_state cur_username]. now apply row_valid_id. }
      assert (F : framed
                    (fun m => pool_get (per_month_aggs (flush_conv st)) m)
                    (process_row init_state r) (process_row st r)).
      { rewrite (process_row_change st r Hv Hid).
        rewrite (process_row_change init_state r Hv Hid0).
        apply process_row_framed.
        - pose proof (entered_ok init_state r init_state_ok Hv) as H.
          unfold entered in H. apply String.eqb_neq in Hid0.
          now rewrite Hid0 in H.
        - pose proof (entered_ok st r Hok Hv) as H.
          unfold entered in H. apply String.eqb_neq in Hid.
          now rewrite Hid in H.
        - destruct (flush_reset st Hok) as [E1 E2].
          rewrite (flush_conv_idle init_state) by reflexivity.
          split.
          + unfold same_conv.
            cbn [cur_username conv_month_aggs prev_other_ts init_state].
            now rewrite E1, E2.
          + intros k. cbn [per_month_aggs].
            change (map (fun m0 => (m0, [])) (range 1 13))
              with (per_month_aggs init_state).
            rewrite init_pool_get. now rewrite app_nil_r. }
      apply (run_rows_framed _ rows) in F;
        [|apply process_row_ok, init_state_ok|now apply process_row_ok].
      apply flush_conv_framed in F;
        [|apply run_rows_ok, process_row_ok, init_state_ok
         |apply run_rows_ok; now apply process_row_ok].
      destruct F as [_ F]. apply F.
    + rewrite !process_row_skip by exact Hv.
      apply IH. unfold conv_ids in *. cbn [filter] in Hhd.
      now rewrite Hv in Hhd.
Qed.

(** X9.  When the first row read of a block belongs to another
    conversation than the last row read before it, the pass over the two
    blocks gives, month by month, the aggregates of the first block
    followed by those of the second: no aggregate depends on rows across
    a change of conversation. *)
Theorem pass_splits_at_conversation_change (before after : list Row) :
  hd_error (conv_ids after) <> Some (last (conv_ids before) "") ->
  forall m,
    pool_get (per_month_aggs (run_pass (before ++ after))) m =
      pool_get (per_month_aggs (run_pass before)) m
      ++ pool_get (per_month_aggs (run_pass after)) m.
Proof.
  intros Hhd m. unfold run_pass at 1. rewrite run_rows_app.
  rewrite run_rows_block; [reflexivity|apply run_rows_ok, init_state_ok|].
  now rewrite run_rows_cur.
Qed.

(** ** The entries of the result *)

Lemma month_item_entry cr pool m :
  1 <= m <= 12 ->
  month_item cr (winners_raw pool) m =
    match best_of (pool_get pool m) with
    | Some (w, sc) => winner_entry cr m w sc
    | None => empty_entry m
    end.
Proof.
  intros Hm. unfold month_item. rewrite winners_raw_get.
  replace (1 <=? m) with true by (symmetry; apply Z.leb_le; lia).
  replace (m <=? 12) with true by (symmetry; apply Z.leb_le; lia).
  cbn [andb]. now destruct (best_of (pool_get pool m)) as [[w sc]|].
Qed.

Lemma months_entries cr pool item :
  In item (map (month_item cr (winners_raw pool)) (range 1 13)) ->
  exists m,
    1 <= m <= 12
    /\ ((best_of (pool_get pool m) = None /\ item = empty_entry m)
        \/ exists w sc,
             best_of (pool_get pool m) = Some (w, sc)
             /\ item = winner_entry cr m w sc).
Proof.
  intros Hin. apply in_map_iff in Hin. destruct Hin as [m [E Hm]].
  apply range_in in Hm. exists m. split; [lia|].
  rewrite month_item_entry in E by lia.
  destruct (best_of (pool_get pool m)) as [[w sc]|].
  - right. now exists w, sc.
  - left. now split.
Qed.

Lemma year_pool_in ie hf rows m a :
  In a (pool_get (year_pool ie hf rows) m) ->
  In a (pool_get (per_month_aggs (run_pass rows)) m).
Proof.
  unfold year_pool.
  destruct (ie && hf && negb (my_username =? "")%string); [auto|].
  rewrite init_pool_get. intros [].
Qed.

Lemma year_pool_wf ie hf rows m :
  Forall agg_wf (pool_get (year_pool ie hf rows) m).
Proof.
  apply Forall_forall. intros a Ha. apply year_pool_ok in Ha. apply Ha.
Qed.

Lemma month_score_unit aggs a :
  Forall agg_wf aggs -> In a (eligible_of aggs) ->
  scores_in_unit (month_score (eligible_of aggs) a).
Proof.
  intros Hwf Ha.
  assert (Wa : agg_wf a).
  { unfold eligible_of in Ha. apply filter_In in Ha.
    rewrite Forall_forall in Hwf. now apply Hwf. }
  assert (Hi : map interaction (eligible_of aggs) <> []).
  { intros E. apply map_eq_nil in E. rewrite E in Ha. destruct Ha. }
  assert (Hd : map active_days_count (eligible_of aggs) <> []).
  { intros E. apply map_eq_nil in E. rewrite E in Ha. destruct Ha. }
  destruct (max_of_spec _ Hi) as [_ Mi].
  destruct (max_of_spec _ Hd) as [_ Md].
  unfold month_score. rewrite <- (score_total_spec a) by exact Wa.
  apply score_total_in_unit; [exact Wa| |].
  - apply Mi. now apply in_map.
  - apply Md. now apply in_map.
Qed.

Lemma spec_score_floor a mi ma :
  agg_wf a -> sum_gap_capped a <= 21600 * replies a ->
  1 <= time_bucket_count a ->
  (1 / 13 <= s_speed (spec_score a mi ma))%R
  /\ (1 / 4 <= s_coverage (spec_score a mi ma))%R.
Proof.
  intros Hwf H5 H4.
  assert (H3 : 0 <= sum_gap_capped a) by apply Hwf.
  destruct (avg_capped_le_cap a H3 H5) as [C0 C1].
  unfold spec_score. cbn [s_speed s_coverage].
  rewrite avg_capped_spec by exact Hwf.
  set (g := avg_reply_seconds_capped a) in *. split.
  - apply Rmult_le_reg_r with (r := (13 * (1 + g / 1800))%R); [lra|].
    field_simplify; lra.
  - apply IZR_le in H4. lra.
Qed.

Lemma pooled_kept rows m a :
  In a (pool_get (per_month_aggs (run_pass rows)) m) ->
  _should_keep_session (username a) = true.
Proof.
  apply (pooled_aggs_hold
           (fun a => _should_keep_session (username a) = true)).
  - intros u mo d h prev s ts _ K _.
    destruct (count_message_id (observe (new_agg u mo) d h) prev s ts)
      as [-> _]. exact K.
  - intros b d h prev s ts K.
    destruct (count_message_id (observe b d h) prev s ts) as [-> _].
    exact K.
Qed.

(** What is known of an entry of [months] with a winner. *)
Lemma winner_of_entry ie hf rows cr item wd :
  In (VDict item)
    (map (month_item cr (winners_raw (year_pool ie hf rows))) (range 1 13)) ->
  get item "winner" = Some (VDict wd) ->
  exists m w,
    1 <= m <= 12
    /\ In w (eligible_of (pool_get (year_pool ie hf rows) m))
    /\ In w (pool_get (per_month_aggs (run_pass rows)) m)
    /\ VDict item =
         winner_entry cr m w
           (month_score (eligible_of (pool_get (year_pool ie hf rows) m)) w).
Proof.
  intros Hin Hw. apply months_entries in Hin.
  destruct Hin as (m & Hm & [[_ E]|(w & sc & B & E)]).
  - exfalso. unfold empty_entry in E. injection E as ->.
    cbn [get Py.dict_get String.eqb Ascii.eqb Bool.eqb] in Hw. discriminate.
  - exists m, w. destruct (best_of_some _ _ _ B) as [Hel ->].
    split; [exact Hm|]. split; [exact Hel|]. split; [|exact E].
    apply year_pool_in with (ie := ie) (hf := hf).
    unfold eligible_of in Hel. apply filter_In in Hel. apply Hel.
Qed.

(** X10.  In the result (there is one for every year whose bounds line
    120 computes), the winner of a month carries a final score that
    is the weighted sum 0.40/0.30/0.20/0.10 of the four scores shown under
    [metrics] and its rounded percentage; the four scores lie in [0,1],
    the speed score is at least 1/13 and the coverage score at least 1/4,
    so the final score lies in (0,1]. *)
Theorem winner_entry_scores (index_exists has_fts : bool)
    (rows : list Row) (probe_status : value) (year : Z) :
  year_range_ok year ->
  exists v,
    compute_monthly_best_friends_wall_stats index_exists has_fts rows
      probe_status year = Py.Ok v
    /\ forall item wd,
         In (VDict item) (months_of v) ->
         get item "winner" = Some (VDict wd) ->
         exists md x i s c k,
           get wd "score" = Some (VFloat x)
           /\ get wd "score100" = Some (VFloat (round1 (x * 100)%R))
           /\ get item "metrics" = Some (VDict md)
           /\ get md "interactionScore" = Some (VFloat i)
           /\ get md "speedScore" = Some (VFloat s)
           /\ get md "continuityScore" = Some (VFloat c)
           /\ get md "coverageScore" = Some (VFloat k)
           /\ x = (0.40 * i + 0.30 * s + 0.20 * c + 0.10 * k)%R
           /\ in_unit i /\ (1 / 13 <= s <= 1)%R
           /\ in_unit c /\ (1 / 4 <= k <= 1)%R
           /\ (0 < x <= 1)%R.
Proof.
  intros Hy.
  destruct (compute_total index_exists has_fts rows probe_status year Hy)
    as (cr & settings & Hc).
  cbv zeta in Hc. eexists. split; [exact Hc|].
  cbn [months_of get Py.dict_get String.eqb Ascii.eqb Bool.eqb].
  intros item wd Hin Hw.
  destruct (winner_of_entry _ _ _ _ _ _ Hin Hw) as (m & w & Hm & Hel & Hp & E).
  set (el := eligible_of (pool_get (year_pool index_exists has_fts rows) m))
    in *.
  unfold winner_entry in E. cbv zeta in E. injection E as ->.
  cbn [get Py.dict_get String.eqb Ascii.eqb Bool.eqb] in Hw.
  injection Hw as <-.
  destruct (month_score_unit _ w (year_pool_wf index_exists has_fts rows m) Hel)
    as (U1 & U2 & U3 & U4 & U5).
  fold el in U1, U2, U3, U4, U5.
  destruct (run_pass_pool_wf rows m w Hp) as (_ & _ & _ & _ & Hwf).
  destruct (pooled_counters rows m w Hp) as (_ & _ & _ & _ & H5).
  destruct (pooled_calendar rows m w Hp) as (_ & _ & _ & H4 & _).
  destruct (spec_score_floor w (max_of (map interaction el))
              (max_of (map active_days_count el)) Hwf H5 H4) as [F1 F2].
  fold (month_score el w) in F1, F2.
  unfold in_unit in *.
  eexists _, (s_final (month_score el w)), (s_interaction (month_score el w)),
    (s_speed (month_score el w)), (s_continuity (month_score el w)),
    (s_coverage (month_score el w)).
  split; [reflexivity|]. split; [reflexivity|]. split; [reflexivity|].
  split; [reflexivity|]. split; [reflexivity|]. split; [reflexivity|].
  split; [reflexivity|]. split; [reflexivity|].
  split; [exact U1|]. split; [lra|]. split; [exact U3|]. split; [lra|].
  assert (F : s_final (month_score el w)
              = (0.40 * s_interaction (month_score el w)
                 + 0.30 * s_speed (month_score el w)
                 + 0.20 * s_continuity (month_score el w)
                 + 0.10 * s_coverage (month_score el w))%R)
    by reflexivity.
  split; [rewrite F|]; lra.
Qed.

(** X11.  In the result (there is one for every year whose bounds line
    120 computes), the raw statistics of a winner are consistent:
    the total is the sum of the incoming and outgoing messages and the
    interaction their minimum; both directions count at least 3 messages
    and together at least 8; there is at least one reply and no more
    replies than outgoing messages; between 2 and 31 active days, no more
    than messages; between one and four time buckets; and the capped
    average reply time is at most the plain one and at most 21600. *)
Theorem winner_entry_raw (index_exists has_fts : bool)
    (rows : list Row) (probe_status : value) (year : Z) :
  year_range_ok year ->
  exists v,
    compute_monthly_best_friends_wall_stats index_exists has_fts rows
      probe_status year = Py.Ok v
    /\ forall item wd,
         In (VDict item) (months_of v) ->
         get item "winner" = Some (VDict wd) ->
         exists rd inc out rep days buckets avg avgc,
           get item "raw" = Some (VDict rd)
           /\ get rd "incomingMessages" = Some (VInt inc)
           /\ get rd "outgoingMessages" = Some (VInt out)
           /\ get rd "totalMessages" = Some (VInt (inc + out))
           /\ get rd "interaction" = Some (VInt (Z.min inc out))
           /\ get rd "replyCount" = Some (VInt rep)
           /\ get rd "activeDays" = Some (VInt days)
           /\ get rd "timeBucketsCount" = Some (VInt buckets)
           /\ get rd "avgReplySeconds" = Some (VFloat avg)
           /\ get rd "avgReplySecondsCapped" = Some (VFloat avgc)
           /\ 3 <= inc /\ 3 <= out /\ 8 <= inc + out
           /\ 1 <= rep <= out
           /\ 2 <= days <= 31 /\ days <= inc + out
           /\ 1 <= buckets <= 4
           /\ (0 <= avgc <= avg)%R /\ (avgc <= 21600)%R.
Proof.
  intros Hy.
  destruct (compute_total index_exists has_fts rows probe_status year Hy)
    as (cr & settings & Hc).
  cbv zeta in Hc. eexists. split; [exact Hc|].
  cbn [months_of get Py.dict_get String.eqb Ascii.eqb Bool.eqb].
  intros item wd Hin Hw.
  destruct (winner_of_entry _ _ _ _ _ _ Hin Hw) as (m & w & Hm & Hel & Hp & E).
  unfold winner_entry in E. cbv zeta in E. injection E as ->.
  unfold eligible_of in Hel. apply filter_In in Hel. destruct Hel as [_ Hel].
  apply eligible_thresholds in Hel. destruct Hel as (T1 & T2 & T3 & T4).
  destruct (pooled_counters rows m w Hp) as (H1 & H2 & H3 & H4 & H5).
  destruct (pooled_calendar rows m w Hp) as (D1 & D2 & _ & D4 & D5 & _).
  pose proof (nodup_days_bound _ D1 D2) as Hl.
  pose proof (time_bucket_count_bounds w) as Hb.
  destruct (avg_capped_le_cap w H3 H5) as [C0 C1].
  assert (C2 : (avg_reply_seconds_capped w <= avg_reply_seconds w)%R).
  { unfold avg_reply_seconds_capped, avg_reply_seconds.
    destruct (Z.leb_spec (replies w) 0) as [G|G]; [lra|].
    assert (Hr : (0 < IZR (replies w))%R) by now apply IZR_lt.
    pose proof (Rinv_0_lt_compat _ Hr) as Hi.
    apply IZR_le in H4. unfold Rdiv. apply Rmult_le_compat_r; lra. }
  unfold total, interaction, active_days_count in *.
  exists
    [("incomingMessages", VInt (incoming w));
     ("outgoingMessages", VInt (outgoing w));
     ("totalMessages", VInt (incoming w + outgoing w));
     ("interaction", VInt (Z.min (incoming w) (outgoing w)));
     ("replyCount", VInt (replies w));
     ("avgReplySeconds", VFloat (avg_reply_seconds w));
     ("avgReplySecondsCapped", VFloat (avg_reply_seconds_capped w));
     ("activeDays", VInt (Z.of_nat (List.length (active_days w))));
     ("timeBucketsCount", VInt (time_bucket_count w))],
    (incoming w), (outgoing w), (replies w),
    (Z.of_nat (List.length (active_days w))), (time_bucket_count w),
    (avg_reply_seconds w), (avg_reply_seconds_capped w).
  split; [reflexivity|]. split; [reflexivity|]. split; [reflexivity|].
  split; [reflexivity|]. split; [reflexivity|]. split; [reflexivity|].
  split; [reflexivity|]. split; [reflexivity|]. split; [reflexivity|].
  split; [reflexivity|].
  split; [lia|]. split; [lia|]. split; [lia|]. split; [lia|].
  split; [lia|]. split; [lia|]. split; [lia|].
  split; [split; assumption|exact C1].
Qed.

(** X12.  In the result (there is one for every year whose bounds line
    120 computes), the winner of a month is a conversation whose id
    is stripped, not empty and kept by the session filter; its display
    name is what the contact helper picks for that id, the masked name is
    the mask of the display name, and the avatar is always built from the
    account and the id, never left empty; the entry is not a fallback. *)
Theorem winner_entry_identity (index_exists has_fts : bool)
    (rows : list Row) (probe_status : value) (year : Z) :
  year_range_ok year ->
  exists v,
    compute_monthly_best_friends_wall_stats index_exists has_fts rows
      probe_status year = Py.Ok v
    /\ forall item wd,
         In (VDict item) (months_of v) ->
         get item "winner" = Some (VDict wd) ->
         exists u row,
           get wd "username" = Some (VStr u)
           /\ u <> "" /\ Py.strip u = u
           /\ _should_keep_session u = true
           /\ get wd "displayName" = Some (VStr (_pick_display_name row u))
           /\ get wd "maskedName"
              = Some (VStr (_mask_name (_pick_display_name row u)))
           /\ get wd "avatarUrl"
              = Some (VStr (_build_avatar_url account_name u))
           /\ get item "isFallback" = Some (VBool false).
Proof.
  intros Hy.
  destruct (compute_total index_exists has_fts rows probe_status year Hy)
    as (cr & settings & Hc).
  cbv zeta in Hc. eexists. split; [exact Hc|].
  cbn [months_of get Py.dict_get String.eqb Ascii.eqb Bool.eqb].
  intros item wd Hin Hw.
  destruct (winner_of_entry _ _ _ _ _ _ Hin Hw) as (m & w & Hm & Hel & Hp & E).
  unfold winner_entry in E. cbv zeta in E. injection E as ->.
  cbn [get Py.dict_get String.eqb Ascii.eqb Bool.eqb] in Hw.
  injection Hw as <-.
  destruct (run_pass_pool_wf rows m w Hp) as (_ & _ & [N1 N2] & _).
  pose proof (pooled_kept rows m w Hp) as K.
  exists (username w), (Py.dict_get String.eqb cr (username w)).
  split; [reflexivity|]. split; [exact N2|]. split; [exact N1|].
  split; [exact K|]. split; [reflexivity|]. split; [reflexivity|].
  split; [|reflexivity].
  cbn [get Py.dict_get String.eqb Ascii.eqb Bool.eqb].
  apply String.eqb_neq in N2. now rewrite N2.
Qed.

(** ** The summary of the year *)

Lemma range_sorted a b : StronglySorted Z.lt (range a b).
Proof.
  unfold range. generalize (Z.to_nat (b - a)) as n. generalize 0%nat as s.
  intros s n. revert s. induction n as [|n IH]; intros s; cbn [seq map].
  - constructor.
  - constructor; [apply IH|].
    apply Forall_forall. intros x Hx. apply in_map_iff in Hx.
    destruct Hx as [i [<- Hi]]. apply in_seq in Hi. lia.
Qed.

Lemma filter_sorted {A : Type} (R : A -> A -> Prop) (p : A -> bool) l :
  StronglySorted R l -> StronglySorted R (filter p l).
Proof.
  induction 1 as [|x l Hs IH Hx]; cbn [filter]; [constructor|].
  destruct (p x); [|exact IH]. constructor; [exact IH|].
  rewrite Forall_forall in *. intros y Hy. apply filter_In in Hy.
  now apply Hx.
Qed.

Lemma filter_map_comm {A B : Type} (f : A -> B) (p : B -> bool) l :
  filter p (map f l) = map f (filter (fun x => p (f x)) l).
Proof.
  induction l as [|x l IH]; cbn [map filter]; [reflexivity|].
  destruct (p (f x)); cbn [map]; now rewrite IH.
Qed.

Lemma filter_length_impl {A : Type} (p q : A -> bool) l :
  (forall x, p x = true -> q x = true) ->
  (List.length (filter p l) <= List.length (filter q l))%nat.
Proof.
  intros H. induction l as [|x l IH]; cbn [filter]; [lia|].
  destruct (p x) eqn:P.
  - rewrite (H x P). cbn [List.length]. lia.
  - destruct (q x); cbn [List.length]; lia.
Qed.

Lemma entry_month cr pool m :
  1 <= m <= 12 -> item_month (month_item cr (winners_raw pool) m) = m.
Proof.
  intros Hm. rewrite month_item_entry by exact Hm.
  now destruct (best_of (pool_get pool m)) as [[w sc]|].
Qed.

Lemma entry_has_winner cr pool m :
  1 <= m <= 12 ->
  (has_winner (month_item cr (winners_raw pool) m) = true
   <-> eligible_of (pool_get pool m) <> []).
Proof.
  intros Hm. rewrite month_item_entry by exact Hm.
  rewrite <- best_of_none.
  destruct (best_of (pool_get pool m)) as [[w sc]|].
  - split; [discriminate|reflexivity].
  - split; [discriminate|congruence].
Qed.

(** The months listed in the summary. *)
Lemma filled_months_spec cr ie hf rows :
  filled_months_of
    (map (month_item cr (winners_raw (year_pool ie hf rows))) (range 1 13))
  = filter
      (fun m =>
         has_winner (month_item cr (winners_raw (year_pool ie hf rows)) m))
      (range 1 13).
Proof.
  rewrite (filled_months_good _ (months_good cr ie hf rows)).
  rewrite filter_map_comm, map_map.
  rewrite <- (map_id (filter _ (range 1 13))) at 2.
  apply map_ext_in. intros m Hm. apply filter_In in Hm.
  destruct Hm as [Hm _]. apply range_in in Hm. apply entry_month. lia.
Qed.

(** X13.  For every year whose bounds line 120 computes, the function
    returns, and in the summary [filledMonths] lists in ascending order exactly
    the months of [1..12] that have an eligible aggregate, and
    [monthsWithWinner] is their number, at most 12; a champion won at
    least one month and no more months than there are months with a
    winner. *)
Theorem summary_months_bounds (index_exists has_fts : bool)
    (rows : list Row) (probe_status : value) (year : Z) :
  year_range_ok year ->
  exists v ms,
    compute_monthly_best_friends_wall_stats index_exists has_fts rows
      probe_status year = Py.Ok v
    /\ get (summary_of v) "filledMonths" = Some (VList (map VInt ms))
    /\ get (summary_of v) "monthsWithWinner"
       = Some (VInt (Z.of_nat (List.length ms)))
    /\ StronglySorted Z.lt ms
    /\ (forall m,
          In m ms <->
          1 <= m <= 12
          /\ eligible_of (pool_get (year_pool index_exists has_fts rows) m)
             <> [])
    /\ (List.length ms <= 12)%nat
    /\ (forall cd n,
          get (summary_of v) "topChampion" = Some (VDict cd) ->
          get cd "monthsWon" = Some (VInt n) ->
          1 <= n <= Z.of_nat (List.length ms)).
Proof.
  intros Hy.
  destruct (compute_total index_exists has_fts rows probe_status year Hy)
    as (cr & settings & Hc).
  cbv zeta in Hc.
  pose proof (filled_months_spec cr index_exists has_fts rows) as Hfm.
  pose proof (months_good cr index_exists has_fts rows) as Hg.
  pose proof (filled_months_good _ Hg) as Hfg.
  destruct (tally_spec _ Hg) as (_ & Hcount & Htally).
  set (pool := year_pool index_exists has_fts rows) in *.
  set (months := map (month_item cr (winners_raw pool)) (range 1 13)) in *.
  set (ms := filter
               (fun m => has_winner (month_item cr (winners_raw pool) m))
               (range 1 13)) in *.
  eexists. exists ms. split; [exact Hc|].
  cbn [summary_of get Py.dict_get String.eqb Ascii.eqb Bool.eqb].
  rewrite Hfm.
  split; [reflexivity|]. split; [reflexivity|].
  split; [apply filter_sorted, range_sorted|].
  split; [|split].
  - intros m. unfold ms. rewrite filter_In, range_in. split.
    + intros [Hm Hw]. split; [lia|]. apply (entry_has_winner cr); [lia|].
      exact Hw.
    + intros [Hm Hw]. split; [lia|]. apply entry_has_winner; assumption.
  - unfold ms.
    pose proof (filter_length_le
                  (fun m => has_winner (month_item cr (winners_raw pool) m))
                  (range 1 13)) as L.
    change (List.length (range 1 13)) with 12%nat in L. exact L.
  - intros cd n Hch Hn.
    assert (Hlen : Z.of_nat (List.length (filter has_winner months))
                   = Z.of_nat (List.length ms)).
    { rewrite <- Hfm, Hfg. now rewrite length_map. }
    remember (winner_month_counts months) as counts eqn:Ec.
    unfold top_champion_of in Hch.
    destruct (Py.sort champion_ltb counts) as [|[c n0] t] eqn:S;
      [destruct counts; discriminate|].
    destruct (champion_head counts c n0 t S) as [Hin _].
    apply Htally in Hin. destruct Hin as [-> Hpos].
    assert (Hcd : cd = [("username", VStr c);
                        ("displayName",
                         VStr (_pick_display_name
                                 (Py.dict_get String.eqb cr c) c));
                        ("maskedName",
                         VStr (_mask_name
                                 (_pick_display_name
                                    (Py.dict_get String.eqb cr c) c)));
                        ("monthsWon", VInt (count_of counts c))]).
    { destruct counts; [discriminate|]. now injection Hch as <-. }
    subst cd.
    cbn [get Py.dict_get String.eqb Ascii.eqb Bool.eqb] in Hn.
    injection Hn as <-. rewrite Hcount. split; [lia|].
    rewrite <- Hlen. unfold months_won. apply inj_le.
    apply filter_length_impl. intros item. unfold won_by, has_winner.
    now destruct (item_winner item).
Qed.

(** ** The result without rows *)

Lemma compute_full ie hf rows probe year :
  year_range_ok year ->
  let pool := year_pool ie hf rows in
  let cr := contacts_of pool in
  let months := map (month_item cr (winners_raw pool)) (range 1 13) in
  compute_monthly_best_friends_wall_stats ie hf rows probe year =
    Py.Ok
      (VDict
         [("year", VInt year);
          ("months", VList months);
          ("summary",
           VDict [("monthsWithWinner",
                   VInt (Z.of_nat (List.length (filled_months_of months))));
                  ("topChampion",
                   top_champion_of cr (winner_month_counts months));
                  ("filledMonths",
                   VList (map VInt (filled_months_of months)))]);
          ("settings",
           VDict [("weights",
                   VDict (map (fun kv => (fst kv, VFloat (snd kv))) weights));
                  ("tauSeconds", VInt tau_seconds);
                  ("gapCapSeconds", VInt gap_cap_seconds);
                  ("eligibility",
                   VDict [("minTotalMessages", VInt minTotalMessages);
                          ("minInteraction", VInt minInteraction);
                          ("minReplyCount", VInt minReplyCount);
                          ("minActiveDays", VInt minActiveDays)]);
                  ("usedIndex", VBool (index_used ie hf));
                  ("indexStatus",
                   if index_used ie hf then VNone else probe)])]).
Proof.
  intros [bounds Hy] pool cr months.
  unfold compute_monthly_best_friends_wall_stats.
  rewrite Hy. cbn [Py.bind].
  fold (year_pool ie hf rows). fold pool.
  rewrite (select_winners_total pool (range 1 13) [] []).
  - cbn [Py.bind app fst snd]. fold (winners_raw pool).
    reflexivity.
  - intros m a Hin. apply year_pool_ok in Hin. apply Hin.
  - apply range_nodup.
  - intros m _ [].
Qed.

Lemma year_pool_unused ie hf rows m :
  index_used ie hf = false \/ rows = [] ->
  pool_get (year_pool ie hf rows) m = [].
Proof.
  unfold year_pool, index_used. intros [->| ->]; [apply init_pool_get|].
  destruct (ie && hf && negb (my_username =? "")%string);
    apply init_pool_get.
Qed.

(** X14.  For every year whose bounds line 120 computes, the function
    returns, and the settings of the result say whether the index was
    read:
    [usedIndex] holds exactly when the index file exists, has the
    full-text table and the account name is not blank, and [indexStatus]
    is [None] then and the probed status otherwise; they repeat the
    constants 1800 and 21600 of the scorer.  When the index is not read,
    or holds no row of the year, the twelve entries are the ones without
    winner and the summary counts no month, names no champion and lists
    no month. *)
Theorem result_without_rows (index_exists has_fts : bool)
    (rows : list Row) (probe_status : value) (year : Z) :
  year_range_ok year ->
  exists v,
    compute_monthly_best_friends_wall_stats index_exists has_fts rows
      probe_status year = Py.Ok v
    /\ get (settings_of v) "usedIndex"
       = Some (VBool (index_exists && has_fts
                      && negb (Py.strip account_name =? "")%string))
    /\ get (settings_of v) "indexStatus"
       = Some (if index_exists && has_fts
                  && negb (Py.strip account_name =? "")%string
               then VNone else probe_status)
    /\ get (settings_of v) "tauSeconds" = Some (VInt 1800)
    /\ get (settings_of v) "gapCapSeconds" = Some (VInt 21600)
    /\ (index_exists && has_fts
        && negb (Py.strip account_name =? "")%string = false
        \/ rows = [] ->
        months_of v = map empty_entry (range 1 13)
        /\ summary_of v =
             [("monthsWithWinner", VInt 0); ("topChampion", VNone);
              ("filledMonths", VList [])]).
Proof.
  intros Hy.
  pose proof (compute_full index_exists has_fts rows probe_status year Hy)
    as Hc.
  cbv zeta in Hc. eexists. split; [exact Hc|].
  cbn [settings_of months_of summary_of get Py.dict_get String.eqb
         Ascii.eqb Bool.eqb].
  split; [reflexivity|]. split; [reflexivity|]. split; [reflexivity|].
  split; [reflexivity|]. intros Hno.
  assert (Hm : map (month_item
                      (contacts_of (year_pool index_exists has_fts rows))
                      (winners_raw (year_pool index_exists has_fts rows)))
                 (range 1 13)
               = map empty_entry (range 1 13)).
  { apply map_ext_in. intros m Hin. apply range_in in Hin.
    rewrite month_item_entry by lia.
    assert (E : best_of (pool_get (year_pool index_exists has_fts rows) m)
                = None).
    { apply best_of_none.
      rewrite (year_pool_unused index_exists has_fts rows m Hno).
      reflexivity. }
    now rewrite E. }
  rewrite Hm. split; reflexivity.
Qed.

(** ** The contacts that are loaded *)

Lemma uniq_usernames_spec names : forall seen,
  NoDup (uniq_usernames names seen)
  /\ forall u,
       In u (uniq_usernames names seen) <->
       In u names /\ u <> "" /\ ~ In u seen.
Proof.
  drop_collaborators.
  induction names as [|x names IH]; intros seen; cbn [uniq_usernames].
  - split; [constructor|]. intros u. cbn [In]. tauto.
  - assert (Hex : existsb (String.eqb x) seen = true <-> In x seen).
    { rewrite existsb_exists. split.
      - intros [y [Hy E]]. apply String.eqb_eq in E. now subst.
      - intros H. exists x. split; [exact H|apply String.eqb_refl]. }
    destruct (String.eqb_spec x "") as [E|E]; cbn [negb andb].
    + destruct (IH seen) as [H1 H2]. split; [exact H1|].
      intros u. rewrite H2. cbn [In]. split.
      * intros (A & B & C). auto.
      * intros ([A|A] & B & C); [congruence|auto].
    + destruct (existsb (String.eqb x) seen) eqn:X; cbn [negb].
      * destruct (IH seen) as [H1 H2]. split; [exact H1|].
        intros u. rewrite H2. cbn [In]. split.
        -- intros (A & B & C). auto.
        -- intros ([A|A] & B & C); [|auto].
           subst u. exfalso. apply C. now apply Hex.
      * assert (Hx : ~ In x seen).
        { intros H. apply Hex in H. congruence. }
        destruct (IH (x :: seen)) as [H1 H2]. split.
        -- constructor; [|exact H1]. rewrite H2. cbn [In]. tauto.
        -- intros u. cbn [In]. rewrite H2. cbn [In].
           destruct (String.eqb_spec x u) as [->|N]; [tauto|]. tauto.
Qed.

Lemma uniq_usernames_length names : forall seen,
  (List.length (uniq_usernames names seen) <= List.length names)%nat.
Proof.
  induction names as [|x names IH]; intros seen; cbn [uniq_usernames];
    [cbn; lia|].
  destruct (negb (x =? "")%string && negb (existsb (String.eqb x) seen)).
  - cbn [List.length]. specialize (IH (x :: seen)). lia.
  - cbn [List.length]. specialize (IH seen). lia.
Qed.

Lemma winners_raw_length pool : (List.length (winners_raw pool) <= 12)%nat.
Proof.
  unfold winners_raw. change 12%nat with (List.length (range 1 13)).
  induction (range 1 13) as [|m ms IH]; cbn [flat_map List.length]; [lia|].
  rewrite length_app.
  destruct (best_of (pool_get pool m)); cbn [List.length]; lia.
Qed.

(** X15.  The contacts are loaded for the ids of the winners of the year,
    each id once and none empty, so for at most twelve ids, and not at all
    when no month has a winner; in the result (there is one for every
    year whose bounds line 120 computes) the display name of every winner
    is picked from the row loaded for its id. *)
Theorem contacts_loaded_for_winners (index_exists has_fts : bool)
    (rows : list Row) (probe_status : value) (year : Z) :
  let pool := year_pool index_exists has_fts rows in
  NoDup (contact_query pool)
  /\ ~ In "" (contact_query pool)
  /\ (List.length (contact_query pool) <= 12)%nat
  /\ (forall u,
        In u (contact_query pool) <->
        exists m w s,
          1 <= m <= 12 /\ best_of (pool_get pool m) = Some (w, s)
          /\ username w = u)
  /\ ((forall m, eligible_of (pool_get pool m) = []) -> contacts_of pool = [])
  /\ (year_range_ok year ->
      exists v,
       compute_monthly_best_friends_wall_stats index_exists has_fts rows
         probe_status year = Py.Ok v
       /\ forall item wd u,
            In (VDict item) (months_of v) ->
            get item "winner" = Some (VDict wd) ->
            get wd "username" = Some (VStr u) ->
            In u (contact_query pool)
            /\ get wd "displayName"
               = Some (VStr (_pick_display_name
                               (Py.dict_get String.eqb (contacts_of pool) u)
                               u))).
Proof.
  intros pool.
  destruct (uniq_usernames_spec (winner_names pool) []) as [Hnd Hin].
  fold (contact_query pool) in Hnd, Hin.
  assert (Hq : forall u,
             In u (contact_query pool) <->
             exists m w s,
               1 <= m <= 12 /\ best_of (pool_get pool m) = Some (w, s)
               /\ username w = u).
  { intros u. rewrite Hin. unfold winner_names. rewrite in_map_iff. split.
    - intros ([[m [w s]] [E H]] & _ & _). cbn [fst snd] in E.
      apply winners_raw_in in H. exists m, w, s. tauto.
    - intros (m & w & s & Hm & B & E). split; [|split; [|intros []]].
      + exists (m, (w, s)). split; [exact E|]. now apply winners_raw_in.
      + apply best_of_some in B. destruct B as [B _].
        unfold eligible_of in B. apply filter_In in B. destruct B as [B _].
        apply year_pool_ok in B. destruct B as (_ & _ & [_ N] & _).
        now rewrite <- E. }
  split; [exact Hnd|]. split.
  { intros H0. apply Hin in H0. destruct H0 as (_ & N & _). now apply N. }
  split; [|split; [exact Hq|split]].
  - unfold contact_query.
    pose proof (uniq_usernames_length (winner_names pool) []) as L1.
    pose proof (winners_raw_length pool) as L2.
    unfold winner_names in *. rewrite length_map in L1. lia.
  - intros Hall. unfold contacts_of.
    destruct (contact_query pool) as [|u q] eqn:Q; [reflexivity|].
    exfalso. assert (Hu : In u (u :: q)) by now left.
    apply Hq in Hu. destruct Hu as (m & w & s & _ & B & _).
    apply best_of_some in B. destruct B as [B _].
    rewrite (Hall m) in B. destruct B.
  - intros Hy.
    pose proof (compute_full index_exists has_fts rows probe_status year Hy)
      as Hc.
    cbv zeta in Hc. fold pool in Hc. eexists. split; [exact Hc|].
    cbn [months_of get Py.dict_get String.eqb Ascii.eqb Bool.eqb].
    intros item wd u Hitem Hw Hu.
    apply months_entries in Hitem.
    destruct Hitem as (m & Hm & [[_ E]|(w & sc & B & E)]).
    + exfalso. unfold empty_entry in E. injection E as ->.
      cbn [get Py.dict_get String.eqb Ascii.eqb Bool.eqb] in Hw.
      discriminate.
    + unfold winner_entry in E. cbv zeta in E. injection E as ->.
      cbn [get Py.dict_get String.eqb Ascii.eqb Bool.eqb] in Hw.
      injection Hw as <-.
      cbn [get Py.dict_get String.eqb Ascii.eqb Bool.eqb] in Hu.
      injection Hu as <-.
      split; [|reflexivity].
      apply Hq. now exists m, w, sc.
Qed.

(** ** The mask of a display name *)

Lemma strip_first name c r :
  Py.strip name = String c r -> Py.is_space c = false.
Proof.
  unfold Py.strip.
  destruct (lstrip_head name) as [E|[c0 [r0 [E Sp]]]]; rewrite E.
  - discriminate.
  - destruct (rstrip_head c0 r0 Sp) as [r' E']. rewrite E'.
    intros H. now injection H as <- _.
Qed.

Lemma strip_rstrip name : Py.rstrip (Py.strip name) = Py.strip name.
Proof. unfold Py.strip. apply rstrip_idem. Qed.

Lemma str_length_app (s t : string) :
  String.length (s ++ t)%string = (String.length s + String.length t)%nat.
Proof.
  induction s as [|c s IH]; [reflexivity|].
  cbn [append String.length]. now rewrite IH.
Qed.

Lemma repeat_char_length c n : String.length (Py.repeat_char c n) = n.
Proof.
  induction n as [|n IH]; [reflexivity|].
  cbn [Py.repeat_char String.length]. now rewrite IH.
Qed.

Lemma repeat_char_get c n i :
  (i < n)%nat -> String.get i (Py.repeat_char c n) = Some c.
Proof.
  revert i. induction n as [|n IH]; intros i Hi; [lia|].
  destruct i as [|i]; [reflexivity|].
  cbn [Py.repeat_char String.get]. apply IH. lia.
Qed.

(** A non-empty string ends with its last character. *)
Lemma last_char_split c s :
  exists init l,
    String c s = (init ++ String l "")%string
    /\ Py.last_char (String c s) = String l "".
Proof.
  revert c. induction s as [|d s IH]; intros c.
  - exists ""%string, c. split; reflexivity.
  - destruct (IH d) as (init & l & E & L).
    exists (String c init), l. split.
    + cbn [append]. now rewrite E.
    + change (Py.last_char (String c (String d s)))
        with (Py.last_char (String d s)). exact L.
Qed.

Lemma last_char_app s l :
  Py.last_char (s ++ String l "")%string = String l "".
Proof.
  induction s as [|c s IH]; [reflexivity|].
  cbn [append]. destruct (s ++ String l "")%string as [|d r] eqn:E.
  - destruct s; discriminate.
  - change (Py.last_char (String c (String d r)))
      with (Py.last_char (String d r)). exact IH.
Qed.

Lemma rstrip_keeps s l :
  Py.is_space l = false ->
  Py.rstrip (s ++ String l "")%string = (s ++ String l "")%string.
Proof.
  intros Sp. induction s as [|c s IH].
  - cbn [append Py.rstrip]. now rewrite Sp.
  - cbn [append]. rewrite rstrip_cons, IH.
    destruct (s ++ String l "")%string as [|d r] eqn:E; [|reflexivity].
    destruct s; discriminate.
Qed.

Lemma rstrip_last s l :
  Py.rstrip (s ++ String l "")%string = (s ++ String l "")%string ->
  Py.is_space l = false.
Proof.
  induction s as [|c s IH].
  - cbn [append Py.rstrip]. destruct (Py.is_space l); [discriminate|auto].
  - cbn [append]. rewrite rstrip_cons.
    destruct (Py.rstrip (s ++ String l "")%string) as [|d r] eqn:E.
    + destruct (Py.is_space c); [discriminate|].
      intros H. injection H as H. destruct s; discriminate.
    + intros H. injection H as H. apply IH. exact H.
Qed.

Lemma strip_keeps c s l :
  Py.is_space c = false -> Py.is_space l = false ->
  Py.strip (String c (s ++ String l ""))%string
  = (String c (s ++ String l ""))%string.
Proof.
  intros Sc Sl. unfold Py.strip. cbn [Py.lstrip]. rewrite Sc.
  apply (rstrip_keeps (String c s) l Sl).
Qed.

(** The mask of a stripped name of three characters or more. *)
Lemma mask_long c d e r :
  let s := String c (String d (String e r)) in
  Py.strip s = s ->
  exists init l,
    s = String c (String d init ++ String l "")%string
    /\ String.length init = String.length r
    /\ Py.is_space c = false /\ Py.is_space l = false
    /\ _mask_name s =
         String c (Py.repeat_char "*" (S (String.length r)) ++ String l "")%string.
Proof.
  intros s Hs.
  destruct (last_char_split e r) as (init & l & E & L).
  assert (Hlen : String.length init = String.length r).
  { apply (f_equal String.length) in E. rewrite str_length_app in E.
    cbn [String.length] in E. lia. }
  assert (Es : s = (String c (String d init) ++ String l "")%string).
  { unfold s. cbn [append]. now rewrite E. }
  assert (Sl : Py.is_space l = false).
  { apply (rstrip_last (String c (String d init))). rewrite <- Es.
    rewrite <- Hs. apply strip_rstrip. }
  exists init, l. split; [exact Es|]. split; [exact Hlen|].
  split; [now apply (strip_first s c (String d (String e r)))|].
  split; [exact Sl|].
  unfold _mask_name. rewrite Hs. unfold s at 1.
  cbn [String.length Nat.sub Py.first_char].
  change (Py.last_char s) with (Py.last_char (String e r)). rewrite L.
  reflexivity.
Qed.

(** X16.  The mask of a name has the length of the stripped name; it keeps
    the first character when there are two or more and the last one when
    there are three or more, and shows a star at every other position;
    masking a mask changes nothing. *)
Theorem mask_name_shape (name : string) :
  let s := Py.strip name in
  let m := _mask_name name in
  String.length m = String.length s
  /\ (forall i,
        (i < String.length s)%nat ->
        ((i = 0%nat /\ (2 <= String.length s)%nat)
         \/ (S i = String.length s /\ (3 <= String.length s)%nat) ->
         String.get i m = String.get i s)
        /\ (~ ((i = 0%nat /\ (2 <= String.length s)%nat)
               \/ (S i = String.length s /\ (3 <= String.length s)%nat)) ->
            String.get i m = Some "*"%char))
  /\ _mask_name m = m.
Proof.
  intros s m.
  assert (Hm : m = _mask_name s).
  { unfold m, _mask_name. cbv zeta. unfold s. now rewrite strip_idem. }
  assert (Hs : Py.strip s = s) by apply strip_idem.
  rewrite Hm. clear Hm m. revert Hs. generalize s as t. clear s name.
  intros [|c [|d [|e r]]] Hs.
  - split; [reflexivity|]. split; [cbn; intros i Hi; lia|reflexivity].
  - assert (M : _mask_name (String c "") = "*"%string)
      by (unfold _mask_name; rewrite Hs; reflexivity).
    rewrite M. split; [reflexivity|]. split; [|reflexivity].
    intros i Hi. cbn [String.length] in *.
    assert (i = 0%nat) by lia. subst i.
    split; [intros [[_ H]|[_ H]]; lia|reflexivity].
  - pose proof (strip_first _ _ _ Hs) as Sc.
    assert (M : _mask_name (String c (String d "")) = String c "*")
      by (unfold _mask_name; rewrite Hs; reflexivity).
    rewrite M. split; [reflexivity|]. split.
    + intros i Hi. cbn [String.length] in *.
      destruct i as [|[|i]]; [| |lia].
      * split; [reflexivity|]. intros H. exfalso. apply H. left. lia.
      * split; [intros [[H _]|[_ H]]; lia|reflexivity].
    + assert (E : Py.strip (String c "*") = String c "*").
      { apply (strip_keeps c "" "*" Sc). reflexivity. }
      unfold _mask_name. rewrite E. reflexivity.
  - destruct (mask_long c d e r Hs) as (init & l & Es & Hlen & Sc & Sl & M).
    cbv zeta in M. rewrite M.
    set (n := String.length r) in *.
    assert (L : String.length (String c (String d (String e r)))
                = S (S (S n))) by reflexivity.
    rewrite L.
    split; [|split].
    + cbn [String.length]. rewrite str_length_app, repeat_char_length.
      cbn [String.length]. lia.
    + intros i Hi. destruct i as [|j].
      * split; [reflexivity|]. intros H. exfalso. apply H. left. lia.
      * rewrite Es. cbn [String.get].
        destruct (Nat.eq_dec j (S n)) as [->|Hj].
        -- split; [intros _|intros H; exfalso; apply H; right; lia].
           rewrite <- (Nat.add_0_l (S n)) at 1.
           rewrite <- (repeat_char_length "*" (S n)) at 1.
           rewrite <- append_correct2.
           assert (Hl : S n = String.length (String d init))
             by (cbn [String.length]; lia).
           rewrite <- (Nat.add_0_l (S n)). rewrite Hl.
           rewrite <- append_correct2. reflexivity.
        -- split; [intros [[H _]|[H _]]; lia|intros _].
           rewrite <- append_correct1
             by (rewrite repeat_char_length; lia).
           apply repeat_char_get. lia.
    + assert (E : Py.strip
                    (String c (Py.repeat_char "*" (S n) ++ String l "")%string)
                  = String c (Py.repeat_char "*" (S n) ++ String l "")%string)
        by now apply strip_keeps.
      assert (L2 : String.length
                     (String c (Py.repeat_char "*" (S n) ++ String l "")%string)
                   = S (S (S n))).
      { cbn [String.length]. rewrite str_length_app, repeat_char_length.
        cbn [String.length]. lia. }
      assert (L3 : Py.last_char
                     (String c (Py.repeat_char "*" (S n) ++ String l "")%string)
                   = String l "").
      { change (String c (Py.repeat_char "*" (S n) ++ String l "")%string)
          with (String c (Py.repeat_char "*" (S n)) ++ String l "")%string.
        apply last_char_app. }
      unfold _mask_name. rewrite E. cbv zeta. rewrite L2, L3.
      reflexivity.
Qed.

(** ** Observing a message in the calendar *)

Lemma set_add_in d (l : set Z) : In d l -> set_add Z.eq_dec d l = l.
Proof.
  induction l as [|x l IH]; [intros []|]. intros H. cbn [set_add].
  destruct (Z.eq_dec d x) as [_|N]; [reflexivity|].
  destruct H as [H|H]; [congruence|]. now rewrite IH.
Qed.

Lemma set_add_count d (l : set Z) :
  List.length (set_add Z.eq_dec d l) =
    if in_dec Z.eq_dec d l then List.length l else S (List.length l).
Proof.
  induction l as [|x l IH]; [reflexivity|]. cbn [set_add].
  destruct (Z.eq_dec d x) as [E|N].
  - destruct (in_dec Z.eq_dec d (x :: l)) as [_|H]; [reflexivity|].
    exfalso. apply H. left. congruence.
  - cbn [List.length]. rewrite IH.
    destruct (in_dec Z.eq_dec d l) as [H|H];
      destruct (in_dec Z.eq_dec d (x :: l)) as [G|G]; try reflexivity.
    + exfalso. apply G. now right.
    + exfalso. destruct G as [G|G]; [congruence|contradiction].
Qed.

Lemma add_day_in d l k :
  In k (add_day d l) <-> In k l \/ (k = d /\ 1 <= d <= 31).
Proof.
  unfold add_day. destruct ((1 <=? d) && (d <=? 31)) eqn:G.
  - apply andb_prop in G. destruct G as [G1 G2].
    apply Z.leb_le in G1. apply Z.leb_le in G2.
    rewrite set_add_iff. split.
    + intros [->|H]; [right; split; [reflexivity|lia]|now left].
    + intros [H|[-> _]]; [now right|now left].
  - split; [now left|]. intros [H|[_ H]]; [exact H|].
    exfalso. apply andb_false_iff in G.
    destruct G as [G|G]; apply Z.leb_gt in G; lia.
Qed.

Lemma add_day_nodup d l : NoDup l -> NoDup (add_day d l).
Proof.
  intros H. unfold add_day.
  destruct ((1 <=? d) && (d <=? 31)); [now apply set_add_nodup|exact H].
Qed.

(** X17.  Observing the same day and hour twice is observing it once;
    observing two messages in either order gives the same days, the same
    number of days and the same buckets; and an observation adds at most
    one active day and removes none. *)
Theorem observe_idempotent_and_order_free (a : MonthConvAgg)
    (d1 h1 d2 h2 : Z) :
  observe (observe a d1 h1) d1 h1 = observe a d1 h1
  /\ (forall k,
        In k (active_days (observe (observe a d1 h1) d2 h2)) <->
        In k (active_days (observe (observe a d2 h2) d1 h1)))
  /\ (NoDup (active_days a) ->
      active_days_count (observe (observe a d1 h1) d2 h2)
      = active_days_count (observe (observe a d2 h2) d1 h1))
  /\ time_bucket_mask (observe (observe a d1 h1) d2 h2)
     = time_bucket_mask (observe (observe a d2 h2) d1 h1)
  /\ active_days_count a <= active_days_count (observe a d1 h1)
     <= active_days_count a + 1.
Proof.
  drop_collaborators.
  assert (Hd : forall b d h, active_days (observe b d h)
                             = add_day d (active_days b)) by reflexivity.
  split; [|split; [|split; [|split]]].
  - destruct a as [u mo i o r g gc days mask].
    unfold observe. cbn [active_days time_bucket_mask username month incoming
      outgoing replies sum_gap sum_gap_capped].
    f_equal.
    + destruct ((1 <=? d1) && (d1 <=? 31)); [|reflexivity].
      apply set_add_in. apply set_add_iff. now left.
    + rewrite <- Z.lor_assoc. now rewrite Z.lor_diag.
  - intros k. rewrite !Hd, !add_day_in. tauto.
  - intros Hnd. unfold active_days_count. f_equal.
    apply Nat.le_antisymm; apply NoDup_incl_length;
      rewrite ?Hd; repeat apply add_day_nodup; try exact Hnd;
      intros k; rewrite !add_day_in; tauto.
  - unfold observe. cbn [time_bucket_mask].
    rewrite <- !Z.lor_assoc. f_equal. apply Z.lor_comm.
  - unfold active_days_count. rewrite Hd. unfold add_day.
    destruct ((1 <=? d1) && (d1 <=? 31)); [|lia].
    rewrite set_add_count.
    destruct (in_dec Z.eq_dec d1 (active_days a)); lia.
Qed.

(** ** The messages of one month *)

Lemma sum_of_ext_in (f f' : MonthConvAgg -> Z) l :
  (forall a, In a l -> f a = f' a) -> sum_of f l = sum_of f' l.
Proof.
  induction l as [|a l IH]; intros H; [reflexivity|].
  cbn [sum_of fold_right]. fold (sum_of f l) (sum_of f' l).
  rewrite (H a) by now left. rewrite IH; [reflexivity|].
  intros b Hb. apply H. now right.
Qed.

Lemma sum_of_zero l : sum_of (fun _ => 0) l = 0.
Proof. induction l as [|a l IH]; [reflexivity|]. cbn in *. exact IH. Qed.

Lemma months_sum_zero ms : months_sum (fun _ => 0) ms = 0.
Proof. induction ms as [|m ms IH]; [reflexivity|]. cbn in *. exact IH. Qed.

Lemma rows_weight_ext g g' rows :
  (forall m s, g m s = g' m s) -> rows_weight g rows = rows_weight g' rows.
Proof.
  intros H. unfold rows_weight.
  induction rows as [|r rows IH]; [reflexivity|].
  cbn [fold_right]. now rewrite IH, H.
Qed.

(** The part of a sum over the pool that the aggregates of month [m]
    contribute is the sum over the pool of [m]. *)
Lemma pool_sum_month (c : MonthConvAgg -> Z) pool m :
  (forall k a, In a (pool_get pool k) -> month a = k /\ 1 <= k <= 12) ->
  pool_sum (fun a => if month a =? m then c a else 0) pool
  = sum_of c (pool_get pool m).
Proof.
  intros Hp. unfold pool_sum.
  rewrite (months_sum_ext _
             (fun k => if m =? k then sum_of c (pool_get pool m) else 0)).
  - assert (Hm : 1 <= m <= 12 \/ ~ 1 <= m <= 12) by lia.
    destruct Hm as [Hm|Hm].
    + apply months_sum_indicator; [apply range_nodup|apply range_in; lia].
    + rewrite (months_sum_ext _ (fun _ => 0)).
      * rewrite months_sum_zero.
        destruct (pool_get pool m) as [|a l] eqn:E; [reflexivity|].
        exfalso. apply Hm. apply (Hp m a). rewrite E. now left.
      * intros k Hk. apply range_in in Hk.
        destruct (Z.eqb_spec m k); [lia|reflexivity].
  - intros k _. destruct (Z.eqb_spec m k) as [->|N].
    + apply sum_of_ext_in. intros a Ha.
      destruct (Hp k a Ha) as [-> _]. now rewrite Z.eqb_refl.
    + rewrite (sum_of_ext_in _ (fun _ => 0)); [apply sum_of_zero|].
      intros a Ha. destruct (Hp k a Ha) as [E _]. rewrite E.
      destruct (Z.eqb_spec k m); [congruence|reflexivity].
Qed.

Lemma run_pass_months rows k a :
  In a (pool_get (per_month_aggs (run_pass rows)) k) ->
  month a = k /\ 1 <= k <= 12.
Proof.
  intros H. destruct (run_pass_pool_wf rows k a H) as (H1 & H2 & _).
  now split.
Qed.

Section MonthConservation.
Variable c : MonthConvAgg -> Z.
Variable p : string -> bool.
Hypothesis c_new : forall u m, c (new_agg u m) = 0.
Hypothesis c_step :
  forall a d h prev s ts,
    c (fst (count_message (observe a d h) prev s ts))
    = c a + (if p s then 1 else 0).

Set Default Proof Using "Type c_new c_step".

(** The counter summed over the aggregates of month [m] is the number of
    counted rows of that month that [p] selects. *)
Lemma month_sum rows m :
  sum_of c (pool_get (per_month_aggs (run_pass rows)) m)
  = count_rows
      (fun r => row_counted r
                && ((row_month r =? m)
                    && p (Py.strip (Py.str_or_empty (row_sender r))))) rows.
Proof.
  rewrite <- (rows_weight_count (fun mo s => (mo =? m) && p s)).
  rewrite <- (pool_sum_month c _ m (run_pass_months rows)).
  rewrite (run_pass_sum (fun a => if month a =? m then c a else 0)
             (fun mo s => if mo =? m then if p s then 1 else 0 else 0)).
  - apply rows_weight_ext. intros mo s. now destruct (mo =? m), (p s).
  - intros u k. rewrite c_new. now destruct (month (new_agg u k) =? m).
  - intros a d h prev s ts.
    destruct (count_message_id (observe a d h) prev s ts) as [_ ->].
    replace (month (observe a d h)) with (month a) by reflexivity.
    rewrite c_step. destruct (month a =? m); lia.
Qed.
End MonthConservation.

Set Default Proof Using "Type".

(** X5.  Whatever the order of the rows, the pool holds every counted
    message exactly once, in the month the clock gives it.  Over the year,
    the totals of all pooled aggregates add up to the number of rows that
    are read, kept by the session filter and dated in a month of [1..12],
    their outgoing counts to those of them sent by the owner and their
    incoming counts to the others; and the same holds month by month for
    the aggregates of a month and the counted rows dated in it. *)
Theorem pool_counts_every_message_once (rows : list Row) :
  (pool_sum total (per_month_aggs (run_pass rows))
   = count_rows row_counted rows
   /\ pool_sum outgoing (per_month_aggs (run_pass rows))
      = count_rows (fun r => row_counted r && row_from_me r) rows
   /\ pool_sum incoming (per_month_aggs (run_pass rows))
      = count_rows (fun r => row_counted r && negb (row_from_me r)) rows)
  /\ forall m,
       let pool := pool_get (per_month_aggs (run_pass rows)) m in
       sum_of total pool
       = count_rows (fun r => row_counted r && (row_month r =? m)) rows
       /\ sum_of outgoing pool
          = count_rows
              (fun r => row_counted r
                        && ((row_month r =? m) && row_from_me r))
              rows
       /\ sum_of incoming pool
          = count_rows
              (fun r => row_counted r
                        && ((row_month r =? m) && negb (row_from_me r)))
              rows.
Proof.
  split.
  {
    split; [|split].
    - rewrite (run_pass_sum total (fun _ _ => 1)).
      + rewrite (rows_weight_count (fun _ _ => true)). unfold count_rows.
        f_equal. f_equal. apply filter_ext. intros r. apply andb_true_r.
      + reflexivity.
      + intros a d h prev s ts. rewrite count_message_total. reflexivity.
    - rewrite (run_pass_sum outgoing
                 (fun _ s => if (s =? my_username)%string then 1 else 0)).
      + apply (rows_weight_count (fun _ s => (s =? my_username)%string)).
      + reflexivity.
      + intros a d h prev s ts.
        now destruct (count_message_sides (observe a d h) prev s ts) as [_ ->].
    - rewrite (run_pass_sum incoming
                 (fun _ s => if (s =? my_username)%string then 0 else 1)).
      + etransitivity;
          [|apply (rows_weight_count
                     (fun _ s => negb (s =? my_username)%string))].
        unfold rows_weight.
        induction rows as [|r rows IH]; [reflexivity|].
        cbn [fold_right]. rewrite IH.
        destruct (row_counted r); [|reflexivity].
        now destruct (_ =? _)%string.
      + reflexivity.
      + intros a d h prev s ts.
        now destruct (count_message_sides (observe a d h) prev s ts) as [-> _].
  }
  intros m.
  intros pool. unfold pool. split; [|split].
  - rewrite (month_sum total (fun _ => true)).
    + unfold count_rows. f_equal. f_equal. apply filter_ext. intros r.
      now rewrite andb_true_r.
    + reflexivity.
    + intros a d h prev s ts. now rewrite count_message_total.
  - apply (month_sum outgoing (fun s => (s =? my_username)%string)).
    + reflexivity.
    + intros a d h prev s ts.
      now destruct (count_message_sides (observe a d h) prev s ts) as [_ ->].
  - apply (month_sum incoming (fun s => negb (s =? my_username)%string)).
    + reflexivity.
    + intros a d h prev s ts.
      destruct (count_message_sides (observe a d h) prev s ts) as [-> _].
      now destruct (s =? my_username)%string.
Qed.

(** ** Replies and the messages they answer *)

Lemma count_message_pending a prev s ts :
  replies (fst (count_message a prev s ts)) - replies a
  + match snd (count_message a prev s ts) with Some _ => 1 | None => 0 end
  <= incoming (fst (count_message a prev s ts)) - incoming a
     + match prev with Some _ => 1 | None => 0 end.
Proof.
  unfold count_message. destruct (s =? my_username)%string.
  - destruct prev as [q|]; [|cbn; lia].
    destruct (ts >=? q); cbn; lia.
  - cbn. destruct prev; lia.
Qed.

Lemma entered_answer st row :
  state_ok st -> replies_answer st ->
  replies_answer (entered st (row_id row)).
Proof.
  intros Hok J. unfold replies_answer.
  rewrite !entered_sum by exact Hok.
  unfold replies_answer in J.
  assert (Hp : pending (entered st (row_id row)) <= pending st).
  { unfold entered, pending.
    destruct (row_id row =? cur_username st)%string; [lia|].
    cbn [prev_other_ts]. destruct (flush_reset st Hok) as [_ ->].
    destruct (prev_other_ts st); lia. }
  lia.
Qed.

Lemma process_row_answer st row :
  state_ok st -> replies_answer st -> replies_answer (process_row st row).
Proof.
  intros Hok J.
  destruct (row_valid row) eqn:Hv;
    [|now rewrite process_row_skip by exact Hv].
  destruct (process_row_valid st row Hv) as [-> Hcur].
  pose proof (entered_answer st row Hok J) as J1.
  set (st1 := entered st (row_id row)) in *.
  destruct (_should_keep_session (row_id row)) eqn:K;
    [|now rewrite process_row_idle by auto].
  set (mo := dt_month (fromtimestamp (Py.int_or_zero (row_ts row)))).
  assert (Hdec : 1 <= mo <= 12 \/ ~ 1 <= mo <= 12) by lia.
  destruct Hdec as [Hm|Hm]; [|now rewrite process_row_idle by auto].
  rewrite process_row_same by auto. cbv zeta. fold mo.
  unfold replies_answer, pending in *.
  cbn [per_month_aggs conv_month_aggs prev_other_ts].
  rewrite !conv_sum_set.
  match goal with
  | |- context [count_message ?a ?prev ?s ?ts] =>
      pose proof (count_message_pending a prev s ts) as Hc
  end.
  destruct (Py.dict_get Z.eqb (conv_month_aggs st1) mo) as [a0|];
    cbn [observe new_agg replies incoming] in Hc; lia.
Qed.

Lemma run_rows_answer rows : forall st,
  state_ok st -> replies_answer st -> replies_answer (run_rows st rows).
Proof.
  induction rows as [|r rows IH]; intros st Hok J; [exact J|].
  cbn [run_rows fold_left]. apply IH.
  - now apply process_row_ok.
  - now apply process_row_answer.
Qed.

(** X18.  Over the whole pool the replies credited to the owner never
    outnumber the messages received: a reply is credited only against a
    message that waits for one, and crediting it ends the wait. *)
Theorem replies_never_outnumber_incoming (rows : list Row) :
  0 <= pool_sum replies (per_month_aggs (run_pass rows))
  /\ pool_sum replies (per_month_aggs (run_pass rows))
     <= pool_sum incoming (per_month_aggs (run_pass rows)).
Proof.
  split.
  - unfold pool_sum. generalize (range 1 13) as ms.
    induction ms as [|k ms IH]; cbn [months_sum fold_right]; [lia|].
    fold (months_sum
            (fun m => sum_of replies
                        (pool_get (per_month_aggs (run_pass rows)) m)) ms).
    assert (H : 0 <= sum_of replies
                       (pool_get (per_month_aggs (run_pass rows)) k)).
    { assert (G : forall a,
                In a (pool_get (per_month_aggs (run_pass rows)) k) ->
                0 <= replies a).
      { intros a Ha. now destruct (pooled_counters rows k a Ha). }
      revert G. generalize (pool_get (per_month_aggs (run_pass rows)) k).
      induction l as [|a l IHl]; intros G; cbn [sum_of fold_right]; [lia|].
      fold (sum_of replies l).
      pose proof (G a (or_introl eq_refl)).
      assert (0 <= sum_of replies l) by (apply IHl; intros b Hb; apply G; now right).
      lia. }
    lia.
  - assert (J : replies_answer (run_rows init_state rows)).
    { apply run_rows_answer; [apply init_state_ok|].
      assert (E : forall f, pool_sum f (per_month_aggs init_state) = 0)
        by reflexivity.
      unfold replies_answer, pending, conv_sum. rewrite !E.
      cbn [init_state conv_month_aggs prev_other_ts map sum_of fold_right].
      lia. }
    unfold run_pass.
    rewrite !flush_conv_sum by (apply run_rows_ok, init_state_ok).
    unfold replies_answer, pending in J.
    destruct (prev_other_ts (run_rows init_state rows)); lia.
Qed.

(** ** The narrative of the card *)

Lemma filter_none {A : Type} (p : A -> bool) l :
  (forall x, In x l -> p x = false) -> filter p l = [].
Proof.
  induction l as [|x l IH]; intros H; [reflexivity|].
  cbn [filter]. rewrite (H x) by now left.
  apply IH. intros y Hy. apply H. now right.
Qed.

(** A year with a winner has a champion. *)
Lemma top_champion_some cr months :
  Forall item_good months ->
  (exists item, In item months /\ has_winner item = true) ->
  exists c,
    top_champion_of cr (winner_month_counts months) =
      VDict [("username", VStr c);
             ("displayName",
              VStr (_pick_display_name (Py.dict_get String.eqb cr c) c));
             ("maskedName",
              VStr (_mask_name
                      (_pick_display_name (Py.dict_get String.eqb cr c) c)));
             ("monthsWon", VInt (months_won months c))]
    /\ 0 < months_won months c.
Proof.
  intros Hg [item [Hi Hw]].
  destruct (tally_spec months Hg) as (_ & Hcount & Hin).
  remember (winner_month_counts months) as counts eqn:Ec.
  assert (Hne : counts <> []).
  { unfold has_winner in Hw.
    destruct (item_winner item) as [u|] eqn:W; [|discriminate].
    assert (Hp : 0 < months_won months u)
      by (apply months_won_pos; now exists item).
    assert (Hu : In (u, months_won months u) counts) by now apply Hin.
    intros E. rewrite E in Hu. destruct Hu. }
  destruct (Py.sort champion_ltb counts) as [|[c n] t] eqn:S.
  - exfalso. now apply (sort_nonempty champion_ltb counts Hne).
  - destruct (champion_head counts c n t S) as [Hc _].
    apply Hin in Hc. destruct Hc as [-> Hp].
    exists c. split; [|exact Hp].
    unfold top_champion_of. rewrite S.
    destruct counts as [|x l] eqn:E; [congruence|]. rewrite <- E.
    fold (count_of counts c). rewrite <- E in Hcount.
    now rewrite Hcount.
Qed.

(** X19.  For every year whose bounds line 120 computes, the card is
    built and carries the result of the computation as its data.
    Its narrative is the text about missing data exactly when no month has
    an eligible aggregate.  Otherwise the summary has a champion, who won
    between 1 and [monthsWithWinner] months, and the narrative names the
    champion and the months won; the text that only counts the months with
    a winner is used when, and only when, the display name picked for the
    champion is empty. *)
Theorem card_narrative (index_exists has_fts : bool)
    (rows : list Row) (probe_status : value) (year : Z) :
  year_range_ok year ->
  let pool := year_pool index_exists has_fts rows in
  exists data card,
    compute_monthly_best_friends_wall_stats index_exists has_fts rows
      probe_status year = Py.Ok data
    /\ build_card_04_monthly_best_friends_wall index_exists has_fts rows
         probe_status year = Py.Ok (VDict card)
    /\ get card "data" = Some data
    /\ get card "status" = Some (VStr "ok")
    /\ ((forall m, 1 <= m <= 12 -> eligible_of (pool_get pool m) = []) ->
        get card "narrative" = Some (VStr narrative_none))
    /\ ((exists m, 1 <= m <= 12 /\ eligible_of (pool_get pool m) <> []) ->
        exists cd name k n,
          get (summary_of data) "topChampion" = Some (VDict cd)
          /\ get cd "displayName" = Some (VStr name)
          /\ get cd "monthsWon" = Some (VInt k)
          /\ get (summary_of data) "monthsWithWinner" = Some (VInt n)
          /\ 1 <= k <= n /\ n <= 12
          /\ get card "narrative"
             = Some (VStr (if (name =? "")%string
                           then narrative_months n
                           else narrative_champion name k))).
Proof.
  intros Hy.
  intros pool.
  pose proof (compute_full index_exists has_fts rows probe_status year Hy)
    as Hc.
  cbv zeta in Hc. fold pool in Hc.
  pose proof (filled_months_spec (contacts_of pool) index_exists has_fts rows)
    as Hfm.
  pose proof (months_good (contacts_of pool) index_exists has_fts rows)
    as Hg.
  pose proof (filled_months_good _ Hg) as Hfg.
  fold pool in Hfm, Hg, Hfg.
  set (cr := contacts_of pool) in *.
  set (months := map (month_item cr (winners_raw pool)) (range 1 13)) in *.
  set (ms := filter
               (fun m => has_winner (month_item cr (winners_raw pool) m))
               (range 1 13)) in *.
  rewrite Hfm in Hc.
  eexists. eexists. split; [exact Hc|].
  unfold build_card_04_monthly_best_friends_wall. rewrite Hc.
  cbn [Py.bind]. split; [reflexivity|].
  cbn [summary_of get Py.dict_get String.eqb Ascii.eqb Bool.eqb
         value_int_or_zero].
  split; [reflexivity|]. split; [reflexivity|]. split.
  - intros Hall.
    assert (E : ms = []).
    { apply filter_none. intros m Hm. apply range_in in Hm.
      destruct (has_winner (month_item cr (winners_raw pool) m)) eqn:W;
        [|reflexivity].
      exfalso. apply (entry_has_winner cr pool m) in W; [|lia].
      apply W. apply Hall. lia. }
    rewrite E. reflexivity.
  - intros (m & Hm & Hel).
    assert (Hw : has_winner (month_item cr (winners_raw pool) m) = true)
      by (apply entry_has_winner; assumption).
    assert (Hin : In m ms).
    { apply filter_In. split; [apply range_in; lia|exact Hw]. }
    destruct (top_champion_some cr months Hg) as (c & Ht & Hp).
    { exists (month_item cr (winners_raw pool) m). split; [|exact Hw].
      apply in_map. apply range_in. lia. }
    rewrite Ht.
    set (name := _pick_display_name (Py.dict_get String.eqb cr c) c).
    assert (Hlen : Z.of_nat (List.length (filter has_winner months))
                   = Z.of_nat (List.length ms)).
    { rewrite <- Hfm, Hfg. now rewrite length_map. }
    assert (Hk : months_won months c <= Z.of_nat (List.length ms)).
    { rewrite <- Hlen. unfold months_won. apply inj_le.
      apply filter_length_impl. intros item. unfold won_by, has_winner.
      now destruct (item_winner item). }
    assert (Hn : (List.length ms <= 12)%nat).
    { pose proof (filter_length_le
                    (fun m => has_winner (month_item cr (winners_raw pool) m))
                    (range 1 13)) as L.
      change (List.length (range 1 13)) with 12%nat in L. exact L. }
    exists
      [("username", VStr c); ("displayName", VStr name);
       ("maskedName", VStr (_mask_name name));
       ("monthsWon", VInt (months_won months c))],
      name, (months_won months c), (Z.of_nat (List.length ms)).
    split; [reflexivity|]. split; [reflexivity|]. split; [reflexivity|].
    split; [reflexivity|]. split; [lia|]. split; [lia|].
    replace (Z.of_nat (List.length ms) <=? 0) with false
      by (symmetry; apply Z.leb_gt; lia).
    cbn [as_dict truthy get Py.dict_get String.eqb Ascii.eqb Bool.eqb
           value_str_or_empty value_int_or_zero].
    now destruct (name =? "")%string.
Qed.

(** ** Aggregates below the thresholds *)

Lemma eligible_of_idem aggs : eligible_of (eligible_of aggs) = eligible_of aggs.
Proof.
  unfold eligible_of. induction aggs as [|a aggs IH]; [reflexivity|].
  cbn [filter]. destruct (is_eligible a) eqn:E; [|exact IH].
  cbn [filter]. now rewrite E, IH.
Qed.

(** X20.  An aggregate below a threshold never influences a month: the
    winner and its scores are those of the eligible aggregates alone (the
    maxima that normalise the scores are taken over them), so removing an
    ineligible aggregate anywhere in the pool of the month changes
    nothing. *)
Theorem ineligible_never_influence (aggs : list MonthConvAgg) :
  month_winner aggs = month_winner (eligible_of aggs)
  /\ forall before x after,
       aggs = before ++ x :: after ->
       is_eligible x = false ->
       month_winner aggs = month_winner (before ++ after).
Proof.
  split.
  - unfold month_winner, month_winner_with. now rewrite eligible_of_idem.
  - intros before x after -> Hx.
    unfold month_winner, month_winner_with, eligible_of.
    rewrite !filter_app. cbn [filter]. now rewrite Hx.
Qed.

End Engine.

(** ** Instances in the concrete setting *)

Lemma good_wf : agg_wf Sample.good.
Proof. unfold agg_wf. cbn. lia. Qed.

Lemma broken_score_raises :
  _score_month_agg Sample.broken 4 2 (IZR tau_seconds) weights
  = Py.Raise Py.ZeroDivisionError.
Proof.
  unfold _score_month_agg.
  change (interaction Sample.broken) with 4.
  change (Z.max 1 4) with 4.
  rewrite log1p_ok by lra. cbn [Py.bind].
  rewrite fdiv_ok by (pose proof (ln1p_pos 4); lra). cbn [Py.bind].
  rewrite fmax_tau.
  change (avg_reply_seconds_capped Sample.broken)
    with (IZR (-1800) / IZR 1)%R.
  rewrite fdiv_ok by lra. cbn [Py.bind].
  unfold Py.fdiv at 1.
  replace (1 + IZR (-1800) / IZR 1 / 1800)%R with 0%R by (field_simplify; lra).
  rewrite Reqb_refl. reflexivity.
Qed.

(** The selection has no handler of its own.  On a record that no pass
    builds (its sum of capped gaps is negative) the scorer raises
    [ZeroDivisionError], and the selection of a month that held such a
    record would raise with it.  That the scorer never fails is owed to
    the pass, which files no such record. *)
Lemma scorer_exception_is_not_caught :
  _score_month_agg Sample.broken 4 2 (IZR tau_seconds) weights
  = Py.Raise Py.ZeroDivisionError
  /\ month_winner [Sample.broken; Sample.good]
     = Py.Raise Py.ZeroDivisionError.
Proof.
  split; [exact broken_score_raises|].
  apply score_all_raise_month.
  change (eligible_of [Sample.broken; Sample.good])
    with [Sample.broken; Sample.good].
  change (max_of (map interaction [Sample.broken; Sample.good])) with 4.
  change (max_of (map active_days_count [Sample.broken; Sample.good]))
    with 2.
  apply score_raise_first. exact broken_score_raises.
Qed.

(** The year 2025 in the concrete setting: line 120 returns the bounds
    2025-01-01 and 2026-01-01 at 00:00:00 UTC. *)
Lemma year_2025_ok : year_range_ok utc_timestamp 2025.
Proof. exists (1735689600, 1767225600). reflexivity. Qed.

(** The year 9999 has no bounds: [datetime(10000, 1, 1)] raises
    [ValueError], with or without index. *)
Lemma year_9999_raises :
  compute_monthly_best_friends_wall_stats Sample.keep_all utc_fromtimestamp
    Sample.account unit Sample.no_contacts Sample.display Sample.avatar
    Sample.round_keep utc_timestamp false false [] VNone 9999
  = Py.Raise Py.ValueError.
Proof.
  apply compute_raises_outside_years; [reflexivity|].
  eexists. reflexivity.
Qed.

(** C3, instance: "wxid_a" writes on 2025-01-03 at 12:00:00 UTC and the
    owner answers one and two minutes later. *)
Lemma reply_gap_single_credit_witness :
  exists a,
    pool_get
      (per_month_aggs
         (run_pass Sample.keep_all utc_fromtimestamp Sample.account
            [Sample.msg "wxid_a" "wxid_a" Sample.jan3;
             Sample.msg "wxid_a" "wxid_me" (Sample.jan3 + 60);
             Sample.msg "wxid_a" "wxid_me" (Sample.jan3 + 120)])) 1 = [a]
    /\ incoming a = 1 /\ outgoing a = 2 /\ replies a = 1
    /\ sum_gap a = 60 /\ sum_gap_capped a = 60.
Proof.
  refine (proj1 (reply_gap_single_credit Sample.keep_all utc_fromtimestamp
                   Sample.account "wxid_a" "wxid_a" "wxid_me" Sample.jan3 1
                   _ _ _ _ _ _ _ _ _)).
  - reflexivity.
  - vm_compute. discriminate.
  - reflexivity.
  - reflexivity.
  - vm_compute. discriminate.
  - lia.
  - reflexivity.
  - reflexivity.
  - reflexivity.
Defined.

(** C10, instance: "wxid_a" writes on 2025-01-31 at 23:59:30 UTC and the
    owner answers on 2025-02-01 at 00:00:30. *)
Lemma reply_credit_crosses_month_witness :
  exists a a',
    Py.dict_get Z.eqb
      (conv_month_aggs
         (process_row Sample.keep_all utc_fromtimestamp Sample.account
            (process_row Sample.keep_all utc_fromtimestamp Sample.account
               (mkState (per_month_aggs init_state) "wxid_a" [] None)
               (Sample.msg "wxid_a" "wxid_a" 1738367970))
            (Sample.msg "wxid_a" "wxid_me" 1738368030))) 1 = Some a
    /\ Py.dict_get Z.eqb
         (conv_month_aggs
            (process_row Sample.keep_all utc_fromtimestamp Sample.account
               (process_row Sample.keep_all utc_fromtimestamp Sample.account
                  (mkState (per_month_aggs init_state) "wxid_a" [] None)
                  (Sample.msg "wxid_a" "wxid_a" 1738367970))
               (Sample.msg "wxid_a" "wxid_me" 1738368030))) 2 = Some a'
    /\ replies a = 0 /\ replies a' = 1 /\ sum_gap a' = 60.
Proof.
  destruct (reply_credit_crosses_month Sample.keep_all utc_fromtimestamp
              Sample.account
              (mkState (per_month_aggs init_state) "wxid_a" [] None)
              "wxid_a" "wxid_a" "wxid_me" 1738367970 1738368030)
    as [(a & a' & H1 & H2 & _ & H3 & _ & _ & _ & H4 & H5 & _) _].
  - reflexivity.
  - vm_compute. discriminate.
  - vm_compute. discriminate.
  - reflexivity.
  - reflexivity.
  - reflexivity.
  - vm_compute. discriminate.
  - vm_compute. split; discriminate.
  - vm_compute. split; discriminate.
  - vm_compute. discriminate.
  - exists a, a'. repeat split; assumption.
Defined.

(** C2, instance: the rows of "wxid_a" followed by those of "wxid_b". *)
Lemma flush_on_conversation_change_witness :
  NoDup
    (map username
       (pool_get
          (per_month_aggs
             (run_pass Sample.keep_all utc_fromtimestamp Sample.account
                Sample.rows_ab)) 1)).
Proof.
  destruct (flush_on_conversation_change Sample.keep_all utc_fromtimestamp
              Sample.account Sample.rows_ab) as (_ & _ & _ & _ & H).
  apply H. vm_compute. repeat (constructor; try reflexivity).
Defined.

(** C4, instance. *)
Lemma scorer_formulas_and_bounds_witness :
  _score_month_agg Sample.good 4 2 (IZR tau_seconds) weights
  = Py.Ok (spec_score Sample.good 4 2)
  /\ scores_in_unit (spec_score Sample.good 4 2).
Proof.
  destruct (scorer_formulas_and_bounds Sample.keep_all utc_fromtimestamp
              Sample.account Sample.good 4 2)
    as (H1 & _ & _ & H2 & _).
  - unfold agg_wf. vm_compute. repeat split; discriminate.
  - split; [exact H1|]. apply H2; vm_compute; discriminate.
Defined.

(** C7, instance: half an hour against one hour. *)
Lemma speed_score_monotone_in_tau_witness :
  exists s1 s2,
    _score_month_agg Sample.good 4 2 1800 weights = Py.Ok s1
    /\ _score_month_agg Sample.good 4 2 3600 weights = Py.Ok s2
    /\ (s_speed s1 <= s_speed s2)%R.
Proof.
  apply (speed_score_monotone_in_tau Sample.good 4 2 1800 3600).
  - unfold agg_wf. vm_compute. repeat split; discriminate.
  - reflexivity.
  - lra.
  - lra.
Defined.




(** In the concrete setting, "wxid_a" is eligible in January. *)
Lemma rows_a_january_eligible :
  eligible_of
    (pool_get
       (year_pool Sample.keep_all utc_fromtimestamp Sample.account true true
          Sample.rows_a) 1)
  = [Sample.good].
Proof. vm_compute. reflexivity. Qed.

(** The entry of January in the concrete setting. *)
Lemma rows_a_january_entry :
  exists v item wd w,
    compute_monthly_best_friends_wall_stats Sample.keep_all utc_fromtimestamp
      Sample.account unit Sample.no_contacts Sample.display Sample.avatar
      Sample.round_keep utc_timestamp true true Sample.rows_a VNone 2025 = Py.Ok v
    /\ nth_error (months_of v) 0 = Some (VDict item)
    /\ get item "winner" = Some (VDict wd)
    /\ get wd "username" = Some (VStr (username w))
    /\ get item "reason" = None.
Proof.
  destruct (compute_total Sample.keep_all utc_fromtimestamp Sample.account
              unit Sample.no_contacts Sample.display Sample.avatar
              Sample.round_keep utc_timestamp true true Sample.rows_a VNone 2025 year_2025_ok)
    as (cr & settings & Hc).
  cbv zeta in Hc.
  destruct (month_item_cases Sample.account unit Sample.display Sample.avatar
              Sample.round_keep cr
              (year_pool Sample.keep_all utc_fromtimestamp Sample.account
                 true true Sample.rows_a) 1 ltac:(lia))
    as [[He _]|(w & d & wd & rd & _ & _ & Hi & _ & Hw & Hu & _ & _ & Hr)].
  - rewrite rows_a_january_eligible in He. discriminate.
  - eexists. exists d, wd, w. split; [exact Hc|].
    cbn [months_of get Py.dict_get String.eqb Ascii.eqb Bool.eqb].
    split.
    + change 0%nat with (Z.to_nat (1 - 1)).
      rewrite range_nth by lia. now rewrite Hi.
    + auto.
Qed.

(** The entry of a month with a winner carries no ["reason"] key: what
    [get] finds is neither [None] stored under the key nor
    ["insufficient_data"]. *)
Lemma reason_key_absent_with_winner :
  exists v item wd,
    compute_monthly_best_friends_wall_stats Sample.keep_all utc_fromtimestamp
      Sample.account unit Sample.no_contacts Sample.display Sample.avatar
      Sample.round_keep utc_timestamp true true Sample.rows_a VNone 2025 = Py.Ok v
    /\ nth_error (months_of v) 0 = Some (VDict item)
    /\ get item "winner" = Some (VDict wd)
    /\ get item "reason" = None
    /\ get item "reason" <> Some VNone
    /\ get item "reason" <> Some (VStr "insufficient_data").
Proof.
  destruct rows_a_january_entry as (v & item & wd & w & Hv & Hi & Hw & _ & Hr).
  exists v, item, wd. rewrite Hr.
  repeat split; auto; discriminate.
Qed.
(** C5, instance: January of the concrete setting. *)
Lemma winner_meets_thresholds_witness :
  exists v item,
    compute_monthly_best_friends_wall_stats Sample.keep_all utc_fromtimestamp
      Sample.account unit Sample.no_contacts Sample.display Sample.avatar
      Sample.round_keep utc_timestamp true true Sample.rows_a VNone 2025 = Py.Ok v
    /\ nth_error (months_of v) 0 = Some (VDict item)
    /\ exists w wd,
         get item "winner" = Some (VDict wd)
         /\ get wd "username" = Some (VStr (username w))
         /\ 8 <= total w /\ 3 <= interaction w
         /\ 1 <= replies w /\ 2 <= active_days_count w.
Proof.
  destruct (winner_meets_thresholds Sample.keep_all utc_fromtimestamp
              Sample.account unit Sample.no_contacts Sample.display
              Sample.avatar Sample.round_keep utc_timestamp true true
              Sample.rows_a VNone 2025) as [Hex _].
  destruct (Hex year_2025_ok) as (v & Hv & Hm).
  destruct (Hm 1 ltac:(lia)) as (item & Hi & [(Hno & _)|(w & wd & _ & H)]).
  - exfalso.
    assert (Hin : In Sample.good
                    (eligible_of
                       (pool_get
                          (year_pool Sample.keep_all utc_fromtimestamp
                             Sample.account true true Sample.rows_a) 1)))
      by (rewrite rows_a_january_eligible; left; reflexivity).
    destruct (eligible_in _ _ Hin) as [Hp He].
    rewrite (forall_ineligible _ _ Hno Hp) in He. discriminate He.
  - exists v, item. split; [exact Hv|]. split; [exact Hi|].
    exists w, wd. exact H.
Defined.

Lemma rows_a_february_empty :
  eligible_of
    (pool_get
       (year_pool Sample.keep_all utc_fromtimestamp Sample.account true true
          Sample.rows_a) 2)
  = [].
Proof. vm_compute. reflexivity. Qed.

(** C6, instance: the year of "wxid_a".  The array has twelve entries;
    January has a winner and its entry has no ["reason"] key; February has
    none and reports ["insufficient_data"]. *)
Lemma months_shape_and_reason_witness :
  exists v jan feb wd,
    compute_monthly_best_friends_wall_stats Sample.keep_all utc_fromtimestamp
      Sample.account unit Sample.no_contacts Sample.display Sample.avatar
      Sample.round_keep utc_timestamp true true Sample.rows_a VNone 2025 = Py.Ok v
    /\ List.length (months_of v) = 12%nat
    /\ nth_error (months_of v) 0 = Some (VDict jan)
    /\ get jan "winner" = Some (VDict wd)
    /\ get jan "reason" = None
    /\ nth_error (months_of v) 1 = Some (VDict feb)
    /\ get feb "winner" = Some VNone
    /\ get feb "reason" = Some (VStr "insufficient_data").
Proof.
  destruct (months_shape_and_reason Sample.keep_all utc_fromtimestamp
              Sample.account unit Sample.no_contacts Sample.display
              Sample.avatar Sample.round_keep utc_timestamp true true
              Sample.rows_a VNone 2025 year_2025_ok)
    as (v & Hv & Hl & Hm & _).
  destruct (Hm 1 ltac:(lia))
    as (jan & Hj & _ & [(He & _)|(_ & [wd Hw] & _ & Hr)]).
  { rewrite rows_a_january_eligible in He. discriminate. }
  destruct (Hm 2 ltac:(lia))
    as (feb & Hf & _ & [(_ & Hw2 & _ & Hr2)|(Hne & _)]).
  2:{ exfalso. apply Hne. exact rows_a_february_empty. }
  exists v, jan, feb, wd.
  split; [exact Hv|]. split; [exact Hl|]. split; [exact Hj|].
  split; [exact Hw|]. split; [exact Hr|]. split; [exact Hf|].
  split; [exact Hw2|exact Hr2].
Defined.



(** C8, instance: the year of "wxid_a" has a champion. *)
Lemma year_summary_champion_witness :
  exists v c cd,
    compute_monthly_best_friends_wall_stats Sample.keep_all utc_fromtimestamp
      Sample.account unit Sample.no_contacts Sample.display Sample.avatar
      Sample.round_keep utc_timestamp true true Sample.rows_a VNone 2025 = Py.Ok v
    /\ get (summary_of v) "topChampion" = Some (VDict cd)
    /\ get cd "username" = Some (VStr c)
    /\ get cd "monthsWon" = Some (VInt (months_won (months_of v) c))
    /\ 0 < months_won (months_of v) c.
Proof.
  destruct (year_summary_champion Sample.keep_all utc_fromtimestamp
              Sample.account unit Sample.no_contacts Sample.display
              Sample.avatar Sample.round_keep utc_timestamp true true Sample.rows_a VNone
              2025 year_2025_ok) as (v & Hv & _ & _ & _ & Hch).
  destruct rows_a_january_entry
    as (v' & item & wd & w & Hv' & Hi & Hw & Hu & _).
  rewrite Hv in Hv'. injection Hv' as <-.
  destruct Hch as (c & cd & H1 & H2 & H3 & H4 & _).
  - exists (VDict item). split; [eapply nth_error_In; exact Hi|].
    unfold has_winner, item_winner. now rewrite Hw, Hu.
  - exists v, c, cd. auto.
Defined.

(** ** Instances of the properties of the pool and of the scores *)

(** In the concrete setting the pool of January holds the aggregate of
    "wxid_a". *)
Lemma rows_a_pool_good :
  In Sample.good
    (pool_get
       (per_month_aggs
          (run_pass Sample.keep_all utc_fromtimestamp Sample.account
             Sample.rows_a)) 1).
Proof. vm_compute. now left. Qed.

(** X1, instance: the aggregate of "wxid_a" in January. *)
Lemma pooled_aggregate_is_kept_witness :
  month Sample.good = 1 /\ 1 <= 1 <= 12
  /\ Py.strip (username Sample.good) = username Sample.good
  /\ username Sample.good <> ""
  /\ Sample.keep_all (username Sample.good) = true
  /\ 0 < total Sample.good.
Proof.
  exact (pooled_aggregate_is_kept Sample.keep_all utc_fromtimestamp
           Sample.account Sample.rows_a 1 Sample.good rows_a_pool_good).
Defined.

(** X2, instance: the aggregate of "wxid_a" in January. *)
Lemma pooled_reply_counters_witness :
  0 <= replies Sample.good <= outgoing Sample.good
  /\ 0 <= sum_gap_capped Sample.good <= sum_gap Sample.good
  /\ sum_gap_capped Sample.good <= 21600 * replies Sample.good
  /\ (0 <= avg_reply_seconds_capped Sample.good
      <= avg_reply_seconds Sample.good)%R
  /\ (avg_reply_seconds_capped Sample.good <= 21600)%R.
Proof.
  exact (pooled_reply_counters Sample.keep_all utc_fromtimestamp
           Sample.account Sample.rows_a 1 Sample.good rows_a_pool_good).
Defined.

(** X3, instance: the aggregate of "wxid_a" in January. *)
Lemma pooled_calendar_bounds_witness :
  NoDup (active_days Sample.good)
  /\ (forall d, In d (active_days Sample.good) -> 1 <= d <= 31)
  /\ 0 <= active_days_count Sample.good <= 31
  /\ active_days_count Sample.good <= total Sample.good
  /\ 1 <= time_bucket_mask Sample.good <= 15
  /\ 1 <= time_bucket_count Sample.good <= 4
  /\ time_bucket_count Sample.good <= total Sample.good.
Proof.
  exact (pooled_calendar_bounds Sample.keep_all utc_fromtimestamp
           Sample.account Sample.rows_a 1 Sample.good rows_a_pool_good).
Defined.

(** X6, instance: the aggregate of "wxid_a" in January, scored against
    the maxima 4 and 2. *)
Lemma pooled_score_positive_witness :
  exists s,
    _score_month_agg Sample.good 4 2 (IZR tau_seconds) weights = Py.Ok s
    /\ (0 <= s_interaction s)%R
    /\ (1 / 13 <= s_speed s <= 1)%R
    /\ (0 <= s_continuity s)%R
    /\ (1 / 4 <= s_coverage s <= 1)%R
    /\ (0.30 / 13 + 0.10 / 4 <= s_final s)%R.
Proof.
  exact (pooled_score_positive Sample.keep_all utc_fromtimestamp
           Sample.account Sample.rows_a 1 Sample.good 4 2 rows_a_pool_good).
Defined.

Lemma better_wf : agg_wf Sample.better.
Proof. unfold agg_wf. cbn. lia. Qed.

Lemma better_replies_faster :
  (avg_reply_seconds_capped Sample.better
   <= avg_reply_seconds_capped Sample.good)%R.
Proof.
  change (avg_reply_seconds_capped Sample.better) with (IZR 100 / IZR 5)%R.
  change (avg_reply_seconds_capped Sample.good) with (IZR 120 / IZR 4)%R.
  lra.
Qed.

(** X7, instance: an aggregate with more messages, quicker replies, more
    days and as many buckets scores at least as much. *)
Lemma score_dominance_witness :
  exists sa sb,
    _score_month_agg Sample.good 5 3 (IZR tau_seconds) weights = Py.Ok sa
    /\ _score_month_agg Sample.better 5 3 (IZR tau_seconds) weights
       = Py.Ok sb
    /\ (s_interaction sa <= s_interaction sb)%R
    /\ (s_speed sa <= s_speed sb)%R
    /\ (s_continuity sa <= s_continuity sb)%R
    /\ (s_coverage sa <= s_coverage sb)%R
    /\ (s_final sa <= s_final sb)%R.
Proof.
  apply (score_dominance Sample.good Sample.better 5 3 good_wf better_wf).
  - vm_compute. discriminate.
  - exact better_replies_faster.
  - vm_compute. discriminate.
  - vm_compute. discriminate.
Defined.

Lemma good_alone_eligible : eligible_of [Sample.good] <> [].
Proof. vm_compute. discriminate. Qed.

(** X8, instance: a month with the aggregate of "wxid_a" alone. *)
Lemma month_scores_normalised_witness :
  exists a,
    In a (eligible_of [Sample.good])
    /\ s_interaction (month_score (eligible_of [Sample.good]) a) = 1%R.
Proof.
  exact (proj1 (proj2 (month_scores_normalised [Sample.good]
                         (Forall_cons _ good_wf (Forall_nil _))
                         good_alone_eligible))).
Defined.

Lemma rows_b_after_a :
  hd_error (conv_ids (Sample.chat "wxid_b" Sample.jan3 Sample.jan8))
  <> Some (last (conv_ids Sample.rows_a) "").
Proof. vm_compute. discriminate. Qed.

(** X9, instance: the rows of "wxid_a" followed by those of "wxid_b". *)
Lemma pass_splits_at_conversation_change_witness :
  pool_get
    (per_month_aggs
       (run_pass Sample.keep_all utc_fromtimestamp Sample.account
          (Sample.rows_a ++ Sample.chat "wxid_b" Sample.jan3 Sample.jan8)))
    1
  = pool_get
      (per_month_aggs
         (run_pass Sample.keep_all utc_fromtimestamp Sample.account
            Sample.rows_a)) 1
    ++ pool_get
         (per_month_aggs
            (run_pass Sample.keep_all utc_fromtimestamp Sample.account
               (Sample.chat "wxid_b" Sample.jan3 Sample.jan8))) 1.
Proof.
  exact (pass_splits_at_conversation_change Sample.keep_all utc_fromtimestamp
           Sample.account Sample.rows_a
           (Sample.chat "wxid_b" Sample.jan3 Sample.jan8) rows_b_after_a 1).
Defined.

(** X10, instance: the score of the winner of January. *)
Lemma winner_entry_scores_witness :
  exists v item wd x,
    compute_monthly_best_friends_wall_stats Sample.keep_all utc_fromtimestamp
      Sample.account unit Sample.no_contacts Sample.display Sample.avatar
      Sample.round_keep utc_timestamp true true Sample.rows_a VNone 2025 = Py.Ok v
    /\ nth_error (months_of v) 0 = Some (VDict item)
    /\ get item "winner" = Some (VDict wd)
    /\ get wd "score" = Some (VFloat x)
    /\ (0 < x <= 1)%R.
Proof.
  destruct (winner_entry_scores Sample.keep_all utc_fromtimestamp
              Sample.account unit Sample.no_contacts Sample.display
              Sample.avatar Sample.round_keep utc_timestamp true true Sample.rows_a VNone
              2025 year_2025_ok) as (v & Hv & H).
  destruct rows_a_january_entry
    as (v' & item & wd & w & Hv' & Hi & Hw & _).
  rewrite Hv in Hv'. injection Hv' as <-.
  destruct (H item wd (nth_error_In _ _ Hi) Hw)
    as (md & x & i & s & c & k & Hx & _ & _ & _ & _ & _ & _ & _ & _ & _ & _
        & _ & Hb).
  exists v, item, wd, x. auto.
Defined.

(** X11, instance: the raw statistics of the winner of January. *)
Lemma winner_entry_raw_witness :
  exists v item rd inc out,
    compute_monthly_best_friends_wall_stats Sample.keep_all utc_fromtimestamp
      Sample.account unit Sample.no_contacts Sample.display Sample.avatar
      Sample.round_keep utc_timestamp true true Sample.rows_a VNone 2025 = Py.Ok v
    /\ nth_error (months_of v) 0 = Some (VDict item)
    /\ get item "raw" = Some (VDict rd)
    /\ get rd "incomingMessages" = Some (VInt inc)
    /\ get rd "outgoingMessages" = Some (VInt out)
    /\ get rd "totalMessages" = Some (VInt (inc + out))
    /\ 8 <= inc + out.
Proof.
  destruct (winner_entry_raw Sample.keep_all utc_fromtimestamp
              Sample.account unit Sample.no_contacts Sample.display
              Sample.avatar Sample.round_keep utc_timestamp true true Sample.rows_a VNone
              2025 year_2025_ok) as (v & Hv & H).
  destruct rows_a_january_entry
    as (v' & item & wd & w & Hv' & Hi & Hw & _).
  rewrite Hv in Hv'. injection Hv' as <-.
  destruct (H item wd (nth_error_In _ _ Hi) Hw)
    as (rd & inc & out & rep & days & buckets & avg & avgc & H1 & H2 & H3
        & H4 & _ & _ & _ & _ & _ & _ & _ & _ & H5 & _).
  exists v, item, rd, inc, out. auto 10.
Defined.

(** X12, instance: the identity of the winner of January. *)
Lemma winner_entry_identity_witness :
  exists v item wd u,
    compute_monthly_best_friends_wall_stats Sample.keep_all utc_fromtimestamp
      Sample.account unit Sample.no_contacts Sample.display Sample.avatar
      Sample.round_keep utc_timestamp true true Sample.rows_a VNone 2025 = Py.Ok v
    /\ nth_error (months_of v) 0 = Some (VDict item)
    /\ get item "winner" = Some (VDict wd)
    /\ get wd "username" = Some (VStr u)
    /\ u <> ""
    /\ get wd "avatarUrl" = Some (VStr (Sample.avatar Sample.account u)).
Proof.
  destruct (winner_entry_identity Sample.keep_all utc_fromtimestamp
              Sample.account unit Sample.no_contacts Sample.display
              Sample.avatar Sample.round_keep utc_timestamp true true Sample.rows_a VNone
              2025 year_2025_ok) as (v & Hv & H).
  destruct rows_a_january_entry
    as (v' & item & wd & w & Hv' & Hi & Hw & _).
  rewrite Hv in Hv'. injection Hv' as <-.
  destruct (H item wd (nth_error_In _ _ Hi) Hw)
    as (u & row & H1 & H2 & _ & _ & _ & _ & H3 & _).
  exists v, item, wd, u. auto 10.
Defined.

(** X13, instance: January is a filled month of the year of "wxid_a". *)
Lemma summary_months_bounds_witness :
  exists v ms,
    compute_monthly_best_friends_wall_stats Sample.keep_all utc_fromtimestamp
      Sample.account unit Sample.no_contacts Sample.display Sample.avatar
      Sample.round_keep utc_timestamp true true Sample.rows_a VNone 2025 = Py.Ok v
    /\ get (summary_of v) "filledMonths" = Some (VList (map VInt ms))
    /\ In 1 ms
    /\ (List.length ms <= 12)%nat.
Proof.
  destruct (summary_months_bounds Sample.keep_all utc_fromtimestamp
              Sample.account unit Sample.no_contacts Sample.display
              Sample.avatar Sample.round_keep utc_timestamp true true
              Sample.rows_a VNone 2025 year_2025_ok)
    as (v & ms & Hv & Hf & _ & _ & Hin & Hl & _).
  exists v, ms. split; [exact Hv|]. split; [exact Hf|].
  split; [|exact Hl].
  apply Hin. split; [lia|].
  rewrite rows_a_january_eligible. discriminate.
Defined.

(** X14, instance: the year 2025 without index. *)
Lemma result_without_rows_witness :
  exists v,
    compute_monthly_best_friends_wall_stats Sample.keep_all utc_fromtimestamp
      Sample.account unit Sample.no_contacts Sample.display Sample.avatar
      Sample.round_keep utc_timestamp false false [] VNone 2025 = Py.Ok v
    /\ get (settings_of v) "usedIndex" = Some (VBool false)
    /\ summary_of v =
         [("monthsWithWinner", VInt 0); ("topChampion", VNone);
          ("filledMonths", VList [])].
Proof.
  destruct (result_without_rows Sample.keep_all utc_fromtimestamp
              Sample.account unit Sample.no_contacts Sample.display
              Sample.avatar Sample.round_keep utc_timestamp false false []
              VNone 2025 year_2025_ok)
    as (v & Hv & Hu & _ & _ & _ & He).
  exists v. split; [exact Hv|]. split; [exact Hu|].
  apply He. left. reflexivity.
Defined.

(** X15, instance: the contacts of the year of "wxid_a" are loaded for
    "wxid_a". *)
Lemma contacts_loaded_for_winners_witness :
  exists v,
    compute_monthly_best_friends_wall_stats Sample.keep_all utc_fromtimestamp
      Sample.account unit Sample.no_contacts Sample.display Sample.avatar
      Sample.round_keep utc_timestamp true true Sample.rows_a VNone 2025 = Py.Ok v
    /\ NoDup
         (contact_query
            (year_pool Sample.keep_all utc_fromtimestamp Sample.account
               true true Sample.rows_a)).
Proof.
  destruct (contacts_loaded_for_winners Sample.keep_all utc_fromtimestamp
              Sample.account unit Sample.no_contacts Sample.display
              Sample.avatar Sample.round_keep utc_timestamp true true
              Sample.rows_a VNone 2025)
    as (Hnd & _ & _ & _ & _ & Hv).
  destruct (Hv year_2025_ok) as (v & Hc & _).
  exists v. split; [exact Hc|exact Hnd].
Defined.

(** X19, instance: the card of the year of "wxid_a". *)
Lemma card_narrative_witness :
  exists data card,
    compute_monthly_best_friends_wall_stats Sample.keep_all utc_fromtimestamp
      Sample.account unit Sample.no_contacts Sample.display Sample.avatar
      Sample.round_keep utc_timestamp true true Sample.rows_a VNone 2025 = Py.Ok data
    /\ build_card_04_monthly_best_friends_wall Sample.keep_all
         utc_fromtimestamp Sample.account unit Sample.no_contacts
         Sample.display Sample.avatar Sample.round_keep utc_timestamp true
         true Sample.rows_a VNone 2025 = Py.Ok (VDict card)
    /\ get card "data" = Some data
    /\ get card "status" = Some (VStr "ok").
Proof.
  destruct (card_narrative Sample.keep_all utc_fromtimestamp
              Sample.account unit Sample.no_contacts Sample.display
              Sample.avatar Sample.round_keep utc_timestamp true true
              Sample.rows_a VNone 2025 year_2025_ok)
    as (data & card & H1 & H2 & H3 & H4 & _).
  exists data, card.
  split; [exact H1|]. split; [exact H2|]. split; [exact H3|exact H4].
Defined.
